(** * FlowViber: requirement tracker, provider gateway, artifact validator
      and debounced auto-save, embedded from the TypeScript sources.

    Part I holds the embedding (one definition per source function, named
    after it); Part II holds the lemmas and the theorems about them.

    Conventions of the embedding
    - A JavaScript string is the list of its UTF-16 code units ([jsstring]).
    - Counts and percentages are integers.  The one place where the source
      divides and rounds ([calculateCompleteness]) is evaluated over the
      rationals, and [NaN] is kept as a value because the source can
      produce it.  The binary64 cross-check recomputes the same two
      expressions over IEEE doubles and compares.
    - Built-ins whose result depends on the host (Unicode lower-casing, the
      text of engine error messages) are fields of the class [JsEngine].
    - Exceptions are a sum type; module-level and component state is passed
      explicitly. *)

From Stdlib Require Import ZArith NArith QArith Qround Lia Bool Ascii String DecimalString Floats Uint63.
From stdpp Require Import base option list gmap.

Local Open Scope Z_scope.

(* ===================================================================== *)
(** * Part I. The embedding                                               *)
(* ===================================================================== *)

(** ** JavaScript strings *)

Definition jsstring := list N.

(** The code units of an ASCII literal. *)
Definition js (s : string) : jsstring :=
  map N_of_ascii (list_ascii_of_string s).

Fixpoint startsWith (p s : jsstring) : bool :=
  match p, s with
  | [], _ => true
  | _ :: _, [] => false
  | a :: p', b :: s' => N.eqb a b && startsWith p' s'
  end.

(** [s.includes(sub)] *)
Fixpoint includes (s sub : jsstring) : bool :=
  startsWith sub s ||
  match s with
  | [] => false
  | _ :: t => includes t sub
  end.

Fixpoint indexOf_from (c : N) (s : jsstring) (i : Z) : Z :=
  match s with
  | [] => -1
  | x :: t => if N.eqb x c then i else indexOf_from c t (i + 1)
  end.

(** [s.indexOf(c)] for a one-character needle; [-1] when absent. *)
Definition indexOf (s : jsstring) (c : N) : Z := indexOf_from c s 0.

Fixpoint lastIndexOf_from (c : N) (s : jsstring) (i last : Z) : Z :=
  match s with
  | [] => last
  | x :: t => lastIndexOf_from c t (i + 1) (if N.eqb x c then i else last)
  end.

(** [s.lastIndexOf(c)] for a one-character needle; [-1] when absent. *)
Definition lastIndexOf (s : jsstring) (c : N) : Z := lastIndexOf_from c s 0 (-1).

(** [s.substring(a, b)]: both bounds are clamped to [0, length] and
    swapped when out of order. *)
Definition substring (s : jsstring) (a b : Z) : jsstring :=
  let len := Z.of_nat (length s) in
  let a' := Z.min (Z.max a 0) len in
  let b' := Z.min (Z.max b 0) len in
  let lo := Z.min a' b' in
  let hi := Z.max a' b' in
  take (Z.to_nat (hi - lo)) (drop (Z.to_nat lo) s).

(** White space as [String.prototype.trim] and the regular expression
    class [\s] see it (WhiteSpace and LineTerminator code units). *)
Definition isWhiteSpace (c : N) : bool :=
  let z := Z.of_N c in
  ((9 <=? z) && (z <=? 13)) || (z =? 32) || (z =? 160) || (z =? 5760)
  || ((8192 <=? z) && (z <=? 8202)) || (z =? 8232) || (z =? 8233)
  || (z =? 8239) || (z =? 8287) || (z =? 12288) || (z =? 65279).

Fixpoint dropWhiteSpace (s : jsstring) : jsstring :=
  match s with
  | c :: t => if isWhiteSpace c then dropWhiteSpace t else s
  | [] => []
  end.

(** [s.trim()] *)
Definition trim (s : jsstring) : jsstring :=
  rev (dropWhiteSpace (rev (dropWhiteSpace s))).

(** Decimal rendering of an integer, as template literals and
    [Number.prototype.toString] give it. *)
Definition toString (z : Z) : jsstring :=
  js (NilZero.string_of_int (Z.to_int z)).

(** ** JavaScript numbers, as far as the tracker uses them *)

Inductive number : Type :=
| Num (z : Z)
| NaN.

(** [x >= k]; every comparison with [NaN] is false. *)
Definition number_ge (x : number) (k : Z) : bool :=
  match x with
  | Num z => k <=? z
  | NaN => false
  end.

(** [Math.max(x, k)]; [NaN] is absorbing. *)
Definition Math_max (x : number) (k : Z) : number :=
  match x with
  | Num z => Num (Z.max z k)
  | NaN => NaN
  end.

(** [Math.round] of an exact value: the nearest integer, a half going
    toward +infinity. *)
Definition Math_round (x : Q) : Z := Qfloor (x + (1 # 2)).

(** [Math.round((answered / length) * 100)] on two counts, the quotient
    and the product taken exactly; [0 / 0] is [NaN] and stays so through
    [Math.round].  The engine rounds the quotient and the product to
    doubles: that evaluation is [b64_baseCompleteness] below.  The two
    give the same value for every list of at most 39 requirements (the
    tracker builds 6 to 8), not for every longer one (lemmas
    [b64_counts_agree] and [b64_differs_at_40]). *)
Definition roundedPercent (answered_ len : nat) : number :=
  if (len =? 0)%nat then NaN
  else Num (Math_round
              (inject_Z (Z.of_nat answered_) / inject_Z (Z.of_nat len) * inject_Z 100)).

(** [coreAnswered >= coreLength * 0.8] on two counts. *)
Definition coreReached (coreAnswered coreLength : nat) : bool :=
  Qle_bool (inject_Z (Z.of_nat coreLength) * (8 # 10)) (inject_Z (Z.of_nat coreAnswered)).

(** Host-dependent built-ins. *)
Class JsEngine : Type := {
  (** [String.prototype.toLowerCase] (full Unicode case mapping) *)
  toLowerCase : jsstring -> jsstring;
  (** message of the [SyntaxError] that [JSON.parse] throws on a text *)
  syntaxErrorMessage : jsstring -> jsstring;
  (** message of the [TypeError] thrown when reading a property of null *)
  typeErrorMessage : jsstring -> jsstring
}.

(** ** Requirement tracker (src/lib/prompting-system.ts) *)

Inductive Category : Type :=
| scope | triggers | resources | inputs | destinations | errors.

Inductive Priority : Type := high | medium | low.

Inductive Phase : Type := discovery | validation | generation | complete.

Record WorkflowRequirement : Type := {
  category : Category;
  question : jsstring;
  answered : bool;
  answer : option jsstring;
  priority : Priority
}.

Record ConversationState : Type := {
  phase : Phase;
  requirements : list WorkflowRequirement;
  completeness : number;
  currentFocus : option jsstring
}.

Definition Priority_eqb (a b : Priority) : bool :=
  match a, b with
  | high, high | medium, medium | low, low => true
  | _, _ => false
  end.

Definition Phase_eqb (a b : Phase) : bool :=
  match a, b with
  | discovery, discovery | validation, validation
  | generation, generation | complete, complete => true
  | _, _ => false
  end.

(** The string a category is at run time. *)
Definition Category_name (c : Category) : jsstring :=
  match c with
  | scope => js "scope"
  | triggers => js "triggers"
  | resources => js "resources"
  | inputs => js "inputs"
  | destinations => js "destinations"
  | errors => js "errors"
  end.

Definition set_question (q : jsstring) (r : WorkflowRequirement) : WorkflowRequirement :=
  {| category := category r; question := q; answered := answered r;
     answer := answer r; priority := priority r |}.

Definition baseRequirements : list WorkflowRequirement :=
  [ {| category := scope;
       question := js "What business process are you looking to automate?";
       answered := false; answer := None; priority := high |};
    {| category := triggers;
       question := js "What event should start this automation?";
       answered := false; answer := None; priority := high |};
    {| category := resources;
       question := js "What platforms, tools, or services need to be connected?";
       answered := false; answer := None; priority := high |};
    {| category := inputs;
       question := js "What information flows through this process?";
       answered := false; answer := None; priority := medium |};
    {| category := destinations;
       question := js "Where should the final results be delivered?";
       answered := false; answer := None; priority := medium |};
    {| category := errors;
       question := js "What should happen if something goes wrong?";
       answered := false; answer := None; priority := low |} ].

Section Tracker.
Context `{JsEngine}.

(** [push] appends; [requirements[1].question = ...] rewrites in place. *)
Definition customizeRequirements (requirements : list WorkflowRequirement)
    (userInput : jsstring) : list WorkflowRequirement :=
  let input := toLowerCase userInput in
  let r1 :=
    if includes input (js "email") then
      requirements ++
      [ {| category := inputs;
           question := js "What email criteria should trigger the automation (sender, subject, attachments)?";
           answered := false; answer := None; priority := high |} ]
    else requirements in
  let r2 :=
    if includes input (js "schedule") || includes input (js "daily")
       || includes input (js "weekly")
    then alter (set_question (js "What schedule should this automation run on?")) 1%nat r1
    else r1 in
  if includes input (js "data") || includes input (js "spreadsheet")
     || includes input (js "csv")
  then r2 ++
    [ {| category := inputs;
         question := js "What format is your data in and how should it be processed?";
         answered := false; answer := None; priority := medium |} ]
  else r2.

Definition initializeRequirements (userInput : jsstring) : list WorkflowRequirement :=
  customizeRequirements baseRequirements userInput.

Definition keywords (c : Category) : list jsstring :=
  match c with
  | scope => map js ["automate"; "process"; "task"; "workflow"; "want to";
                     "need to"; "daily"; "weekly"; "schedule"]
  | triggers => map js ["when"; "trigger"; "start"; "schedule"; "webhook";
                        "email arrives"; "at"; "daily"; "weekly"; "time"]
  | resources => map js ["gmail"; "slack"; "sheets"; "api"; "service";
                         "connect"; "integration"; "twitter"; "openai"; "email"]
  | inputs => map js ["data"; "information"; "file"; "email"; "form";
                      "input"; "content"; "message"]
  | destinations => map js ["send"; "save"; "output"; "notify"; "store";
                            "forward"; "email"; "to"; "@"]
  | errors => map js ["error"; "fail"; "wrong"; "retry"; "fallback";
                      "notification"; "notify"; "email"]
  end%string.

Definition checkIfRequirementAnswered (requirement : WorkflowRequirement)
    (message : jsstring) : bool :=
  existsb (fun keyword => includes message keyword) (keywords (category requirement)).

Definition summaryIndicators : list jsstring :=
  map js ["workflow summary"; "key components"; "trigger:"; "processing:";
          "output:"; "error handling:"]%string.

Definition checkIfRequirementInResponse (requirement : WorkflowRequirement)
    (response : jsstring) : bool :=
  existsb (fun indicator => includes response indicator) summaryIndicators.

Definition analyzeAndUpdateRequirements (requirements : list WorkflowRequirement)
    (userMessage aiResponse : jsstring) : list WorkflowRequirement :=
  let message := toLowerCase userMessage in
  let response := toLowerCase aiResponse in
  map (fun req =>
         if answered req then req
         else
           let isAnswered :=
             checkIfRequirementAnswered req message
             || checkIfRequirementInResponse req response in
           {| category := category req; question := question req;
              answered := isAnswered;
              answer := if isAnswered then Some userMessage else None;
              priority := priority req |})
      requirements.

Definition calculateCompleteness (requirements : list WorkflowRequirement) : number :=
  let answered_ := length (List.filter (fun r => answered r) requirements) in
  let baseCompleteness := roundedPercent answered_ (length requirements) in
  (* If we have most core requirements, boost to trigger validation phase *)
  let coreRequirements := List.filter (fun r => Priority_eqb (priority r) high) requirements in
  let coreAnswered := length (List.filter (fun r => answered r) coreRequirements) in
  if coreReached coreAnswered (length coreRequirements)
  then Math_max baseCompleteness 80
  else baseCompleteness.

Definition getCurrentFocus (requirements : list WorkflowRequirement) : jsstring :=
  let unanswered := List.filter (fun r => negb (answered r)) requirements in
  match unanswered with
  | [] => js "Ready for generation"
  | first :: _ =>
      match List.filter (fun r => Priority_eqb (priority r) high) unanswered with
      | h :: _ => Category_name (category h)
      | [] => Category_name (category first)
      end
  end.

Definition updateConversationState (currentState : ConversationState)
    (userMessage aiResponse : jsstring) : ConversationState :=
  let updatedRequirements :=
    analyzeAndUpdateRequirements (requirements currentState) userMessage aiResponse in
  let completeness_ := calculateCompleteness updatedRequirements in
  let phase_ :=
    if number_ge completeness_ 80 && Phase_eqb (phase currentState) discovery
    then validation
    else if number_ge completeness_ 90 && Phase_eqb (phase currentState) validation
    then generation
    else phase currentState in
  {| phase := phase_;
     requirements := updatedRequirements;
     completeness := completeness_;
     currentFocus := Some (getCurrentFocus updatedRequirements) |}.

Definition shouldGenerateWorkflow (state : ConversationState) : bool :=
  number_ge (completeness state) 80 && Phase_eqb (phase state) generation.

(** The state the chat route builds when the request carries none
    (first turn, or first turn after "clear conversation"). *)
Definition initialState (userMessage : jsstring) : ConversationState :=
  {| phase := discovery;
     requirements := initializeRequirements userMessage;
     completeness := Num 0;
     currentFocus := Some (js "Initial discovery") |}.

End Tracker.

(** ** The arithmetic of [calculateCompleteness] in binary64

    The two expressions evaluated as the engine evaluates them, over
    IEEE 754 doubles (primitive floats): every count is converted, and
    the quotient and each product are rounded to the nearest double.
    Part II compares them with [roundedPercent] and [coreReached]. *)

Definition b64_of_nat (n : nat) : float :=
  PrimFloat.of_uint63 (Uint63.of_Z (Z.of_nat n)).

(** [Math.round] of a double: the nearest integer, halves toward
    +infinity.  [NaN] (and an infinity, which [number] has no value for)
    gives [NaN]. *)
Definition b64_Math_round (x : float) : number :=
  match Prim2SF x with
  | S754_zero _ => Num 0
  | S754_finite s m e =>
      let v := if s then Z.neg m else Z.pos m in
      if 0 <=? e then Num (v * 2 ^ e)
      else Num ((2 * v + 2 ^ (- e)) / 2 ^ (1 - e))
  | S754_infinity _ => NaN
  | S754_nan => NaN
  end.

(** [Math.round((answered / length) * 100)] *)
Definition b64_baseCompleteness (answered_ len : nat) : number :=
  b64_Math_round (PrimFloat.mul (PrimFloat.div (b64_of_nat answered_) (b64_of_nat len)) 100%float).

(** [coreAnswered >= coreLength * 0.8]; the literal is the double nearest
    to 0.8. *)
Definition b64_coreReached (coreAnswered coreLength : nat) : bool :=
  PrimFloat.leb (PrimFloat.mul (b64_of_nat coreLength) 0x1.999999999999ap-1%float) (b64_of_nat coreAnswered).

Definition b64_calculateCompleteness (requirements : list WorkflowRequirement) : number :=
  let answered_ := length (List.filter (fun r => answered r) requirements) in
  let base := b64_baseCompleteness answered_ (length requirements) in
  let coreRequirements := List.filter (fun r => Priority_eqb (priority r) high) requirements in
  let coreAnswered := length (List.filter (fun r => answered r) coreRequirements) in
  if b64_coreReached coreAnswered (length coreRequirements)
  then Math_max base 80
  else base.

Definition number_eqb (x y : number) : bool :=
  match x, y with
  | Num a, Num b => a =? b
  | NaN, NaN => true
  | _, _ => false
  end.

(** All pairs [(a, n)] with [a <= n <= bound] agree. *)
Definition b64_agrees_upto (bound : nat) : bool :=
  forallb (fun n =>
    forallb (fun a =>
      number_eqb (b64_baseCompleteness a n) (roundedPercent a n)
      && Bool.eqb (b64_coreReached a n) (coreReached a n))
      (seq 0 (S n)))
    (seq 0 (S bound)).

(** ** JSON values and [JSON.parse] *)

(** A number keeps its literal: [JNumber m e] is [m * 10^e]. *)
#[local] Unset Elimination Schemes.
Inductive json : Type :=
| JNull
| JBool (b : bool)
| JNumber (m e : Z)
| JString (s : jsstring)
| JArray (items : list json)
| JObject (members : list (jsstring * json)).
#[local] Set Elimination Schemes.

(** Code unit of an ASCII character. *)
Definition ch (a : ascii) : N := N_of_ascii a.

(** The double quote. *)
Definition dquote : N := 34%N.

(** A literal in which each apostrophe stands for a double quote. *)
Definition jsq (s : string) : jsstring :=
  map (fun c => if N.eqb c 39 then dquote else c) (js s).

Definition isJsonSpace (c : N) : bool :=
  N.eqb c 32 || N.eqb c 9 || N.eqb c 10 || N.eqb c 13.

Fixpoint skipSpace (s : jsstring) : jsstring :=
  match s with
  | c :: t => if isJsonSpace c then skipSpace t else s
  | [] => []
  end.

Definition isDigit (c : N) : bool := (N.leb 48 c && N.leb c 57)%N.

Definition hexDigit (c : N) : option N :=
  if (N.leb 48 c && N.leb c 57)%N then Some (c - 48)%N
  else if (N.leb 97 c && N.leb c 102)%N then Some (c - 87)%N
  else if (N.leb 65 c && N.leb c 70)%N then Some (c - 55)%N
  else None.

Definition simpleEscape (c : N) : option N :=
  if N.eqb c (dquote) then Some (dquote)
  else if N.eqb c (ch "\") then Some (ch "\")
  else if N.eqb c (ch "/") then Some (ch "/")
  else if N.eqb c (ch "b") then Some 8%N
  else if N.eqb c (ch "f") then Some 12%N
  else if N.eqb c (ch "n") then Some 10%N
  else if N.eqb c (ch "r") then Some 13%N
  else if N.eqb c (ch "t") then Some 9%N
  else None.

(** The characters of a string literal after its opening quote; [acc]
    holds the decoded code units in reverse. *)
Fixpoint parseStringBody (s acc : jsstring) : option (jsstring * jsstring) :=
  match s with
  | [] => None
  | c :: t =>
      if N.eqb c (dquote) then Some (rev acc, t)
      else if N.eqb c (ch "\") then
        match t with
        | [] => None
        | e :: t' =>
            if N.eqb e (ch "u") then
              match t' with
              | h1 :: h2 :: h3 :: h4 :: t'' =>
                  match hexDigit h1, hexDigit h2, hexDigit h3, hexDigit h4 with
                  | Some a, Some b, Some c', Some d =>
                      parseStringBody t'' ((((a * 16 + b) * 16 + c') * 16 + d)%N :: acc)
                  | _, _, _, _ => None
                  end
              | _ => None
              end
            else
              match simpleEscape e with
              | Some x => parseStringBody t' (x :: acc)
              | None => None
              end
        end
      else if N.ltb c 32 then None
      else parseStringBody t (c :: acc)
  end.

(** A run of digits: its value on top of [acc], how many there were,
    and the rest of the input. *)
Fixpoint parseDigits (s : jsstring) (acc : Z) (count : Z) : Z * Z * jsstring :=
  match s with
  | c :: t =>
      if isDigit c then parseDigits t (10 * acc + Z.of_N (c - 48)) (count + 1)
      else (acc, count, s)
  | [] => (acc, count, [])
  end.

(** An optional minus sign; a zero, or a non-zero digit and more digits;
    an optional fraction (a dot and at least one digit); an optional
    exponent (e or E, an optional sign, at least one digit). *)
Definition parseNumber (s : jsstring) : option (json * jsstring) :=
  let '(negative, s1) :=
    match s with
    | c :: t => if N.eqb c (ch "-") then (true, t) else (false, s)
    | [] => (false, s)
    end in
  let intPart :=
    match s1 with
    | c :: t =>
        if N.eqb c (ch "0") then Some (0, t)
        else if isDigit c then
          let '(v, _, r) := parseDigits s1 0 0 in Some (v, r)
        else None
    | [] => None
    end in
  match intPart with
  | None => None
  | Some (iv, s2) =>
      let fracPart :=
        match s2 with
        | c :: t =>
            if N.eqb c (ch ".") then
              let '(v, k, r) := parseDigits t iv 0 in
              if k =? 0 then None else Some (v, k, r)
            else Some (iv, 0, s2)
        | [] => Some (iv, 0, s2)
        end in
      match fracPart with
      | None => None
      | Some (mant, k, s3) =>
          let expPart :=
            match s3 with
            | c :: t =>
                if N.eqb c (ch "e") || N.eqb c (ch "E") then
                  let '(neg, t1) :=
                    match t with
                    | d :: t' =>
                        if N.eqb d (ch "-") then (true, t')
                        else if N.eqb d (ch "+") then (false, t')
                        else (false, t)
                    | [] => (false, t)
                    end in
                  let '(v, n, r) := parseDigits t1 0 0 in
                  if n =? 0 then None else Some ((if neg then - v else v), r)
                else Some (0, s3)
            | [] => Some (0, s3)
            end in
          match expPart with
          | None => None
          | Some (ex, s4) =>
              Some (JNumber (if negative then - mant else mant) (ex - k), s4)
          end
      end
  end.

(** Recursive descent; [fuel] bounds the nesting of calls. *)
Fixpoint parseValue (fuel : nat) (s : jsstring) : option (json * jsstring) :=
  match fuel with
  | O => None
  | S fuel' =>
      match skipSpace s with
      | [] => None
      | c :: t =>
          if N.eqb c (ch "{") then
            match skipSpace t with
            | c' :: t' =>
                if N.eqb c' (ch "}") then Some (JObject [], t')
                else parseMembers fuel' (c' :: t') []
            | [] => None
            end
          else if N.eqb c (ch "[") then
            match skipSpace t with
            | c' :: t' =>
                if N.eqb c' (ch "]") then Some (JArray [], t')
                else parseElements fuel' (c' :: t') []
            | [] => None
            end
          else if N.eqb c (dquote) then
            match parseStringBody t [] with
            | Some (str, r) => Some (JString str, r)
            | None => None
            end
          else if startsWith (js "true") (c :: t) then Some (JBool true, drop 4 (c :: t))
          else if startsWith (js "false") (c :: t) then Some (JBool false, drop 5 (c :: t))
          else if startsWith (js "null") (c :: t) then Some (JNull, drop 4 (c :: t))
          else parseNumber (c :: t)
      end
  end
with parseMembers (fuel : nat) (s : jsstring) (acc : list (jsstring * json))
    : option (json * jsstring) :=
  match fuel with
  | O => None
  | S fuel' =>
      match skipSpace s with
      | c :: t =>
          if N.eqb c (dquote) then
            match parseStringBody t [] with
            | Some (key, r) =>
                match skipSpace r with
                | c1 :: r1 =>
                    if N.eqb c1 (ch ":") then
                      match parseValue fuel' r1 with
                      | Some (v, r2) =>
                          match skipSpace r2 with
                          | c2 :: r3 =>
                              if N.eqb c2 (ch ",") then parseMembers fuel' r3 ((key, v) :: acc)
                              else if N.eqb c2 (ch "}") then Some (JObject (rev ((key, v) :: acc)), r3)
                              else None
                          | [] => None
                          end
                      | None => None
                      end
                    else None
                | [] => None
                end
            | None => None
            end
          else None
      | [] => None
      end
  end
with parseElements (fuel : nat) (s : jsstring) (acc : list json)
    : option (json * jsstring) :=
  match fuel with
  | O => None
  | S fuel' =>
      match parseValue fuel' s with
      | Some (v, r) =>
          match skipSpace r with
          | c :: r1 =>
              if N.eqb c (ch ",") then parseElements fuel' r1 (v :: acc)
              else if N.eqb c (ch "]") then Some (JArray (rev (v :: acc)), r1)
              else None
          | [] => None
          end
      | None => None
      end
  end.

(** [JSON.parse(text)]; [None] stands for the [SyntaxError]. *)
Definition JSON_parse (text : jsstring) : option json :=
  match parseValue (2 * length text + 2) text with
  | Some (v, r) =>
      match skipSpace r with
      | [] => Some v
      | _ :: _ => None
      end
  | None => None
  end.

(** The last member with the key wins, as in an object built by
    [JSON.parse]. *)
Fixpoint lookupMember (key : jsstring) (members : list (jsstring * json)) : option json :=
  match members with
  | [] => None
  | (k, v) :: rest =>
      match lookupMember key rest with
      | Some v' => Some v'
      | None => if bool_decide (k = key) then Some v else None
      end
  end.

(** [Boolean(v)] for a parsed value.  A number literal is zero as a
    double when its digits are, or when it lies at or below half the
    least subnormal, [2^-1075]. *)
Definition truthy (v : json) : bool :=
  match v with
  | JNull => false
  | JBool b => b
  | JNumber m e =>
      negb (m =? 0) && ((0 <=? e) || (10 ^ (- e) <? Z.abs m * 2 ^ 1075))
  | JString s => negb (bool_decide (s = []))
  | JArray _ => true
  | JObject _ => true
  end.

(** [Boolean(x)] where [x] may be [undefined]. *)
Definition truthyOpt (v : option json) : bool :=
  match v with
  | Some v' => truthy v'
  | None => false
  end.

(** ** Provider gateway: the chat route (src/app/api/ai-chat/route.ts) *)

Module Gateway.

Inductive Role : Type := user | assistant | system.

Record AIMessage : Type := { role : Role; content : jsstring }.

Record ApiKey : Type := { provider : jsstring; encrypted_key : jsstring }.

(** [error.cause] when it is an object: the two fields the route reads.
    A field that is absent or not a string is [None]. *)
Record ErrorCause : Type := { type : option jsstring; code : option jsstring }.

(** What a provider call does: return the generated text, or throw an
    [Error] with a message and a cause ([None]: no cause, or not an
    object). *)
Inductive CallResult : Type :=
| Returned (text : jsstring)
| Threw (message : jsstring) (cause : option ErrorCause).

(** The two provider transports, called with a key and the messages. *)
Record Providers : Type := {
  callOpenAI : jsstring -> list AIMessage -> CallResult;
  callClaude : jsstring -> list AIMessage -> CallResult
}.

(** The module-level variables of the route. *)
Record ServerState : Type := {
  failedProviders : gset jsstring;
  sessionStartTime : Z
}.

Definition SESSION_RESET_INTERVAL : Z := 30 * 60 * 1000.

Definition resetSessionIfNeeded (now : Z) (st : ServerState) : ServerState :=
  if SESSION_RESET_INTERVAL <? now - sessionStartTime st
  then {| failedProviders := ∅; sessionStartTime := now |}
  else st.

Definition has (s : gset jsstring) (name : jsstring) : bool :=
  bool_decide (name ∈ s).

Definition add (name : jsstring) (st : ServerState) : ServerState :=
  {| failedProviders := {[ name ]} ∪ failedProviders st;
     sessionStartTime := sessionStartTime st |}.

(** The JSON body of a successful response.  Optional fields that are
    only tested for truth are [bool] ([false] when absent);
    [showNotification] is compared with [false], so its absence is kept
    apart. *)
Record AIResponse : Type := {
  res_content : jsstring;
  res_provider : jsstring;
  fallback : bool;
  fallbackReason : option jsstring;
  errorCode : option jsstring;
  originalProvider : option jsstring;
  fallbackProvider : option jsstring;
  showNotification : option bool;
  silentFallback : bool;
  conversationState : option ConversationState;
  canGenerateWorkflow : bool
}.

Record ErrorResponse : Type := {
  status : Z;
  error : jsstring;
  err_errorCode : option jsstring
}.

(** What a provider call hands back before the route decorates it. *)
Definition plain (text name : jsstring) : AIResponse :=
  {| res_content := text; res_provider := name; fallback := false;
     fallbackReason := None; errorCode := None; originalProvider := None;
     fallbackProvider := None; showNotification := None;
     silentFallback := false; conversationState := None;
     canGenerateWorkflow := false |}.

Definition eqs (x : option jsstring) (lit : string) : bool :=
  bool_decide (x = Some (js lit)).

Section Route.
Context `{JsEngine}.
Variable generateSystemPrompt : ConversationState -> jsstring.

Definition findKey (apiKeys : list ApiKey) (name : string) : option ApiKey :=
  find (fun key => includes (toLowerCase (provider key)) (js name)) apiKeys.

(** [messages[messages.length - 1]?.content || ""] *)
Definition lastContent (messages : list AIMessage) : jsstring :=
  match last messages with
  | Some m => content m
  | None => []
  end.

(** The tail of the handler: update the tracker and answer. *)
Definition respond (currentState : ConversationState) (messages : list AIMessage)
    (aiResponse : AIResponse) : AIResponse :=
  let userMessage := lastContent messages in
  let updatedState := updateConversationState currentState userMessage (res_content aiResponse) in
  {| res_content := res_content aiResponse;
     res_provider := res_provider aiResponse;
     fallback := fallback aiResponse;
     fallbackReason := fallbackReason aiResponse;
     errorCode := errorCode aiResponse;
     originalProvider := originalProvider aiResponse;
     fallbackProvider := fallbackProvider aiResponse;
     showNotification := showNotification aiResponse;
     silentFallback := silentFallback aiResponse;
     conversationState := Some updatedState;
     canGenerateWorkflow := shouldGenerateWorkflow updatedState |}.

(** The classification of an OpenAI failure: the reason, the code,
    whether to fall back, and the state after the [failedProviders.add]
    of the quota and rate-limit branches. *)
Definition classify (cause : option ErrorCause) (st : ServerState)
    : jsstring * jsstring * bool * ServerState :=
  match cause with
  | Some c =>
      if eqs (code c) "context_length_exceeded" then
        (js "OpenAI context length exceeded (conversation too long)",
         js "CONTEXT_LENGTH_EXCEEDED", true, st)
      else if eqs (type c) "insufficient_quota" then
        (js "OpenAI API credits exhausted", js "CREDITS_LOW", true,
         add (js "openai") st)
      else if eqs (type c) "rate_limit_error" then
        (js "OpenAI API rate limit exceeded", js "RATE_LIMIT", true,
         add (js "openai") st)
      else (js "OpenAI API error", js "OPENAI_UNKNOWN", false, st)
  | None => (js "OpenAI API error", js "OPENAI_UNKNOWN", false, st)
  end.

(** [POST], the branch taken when [isWorkflowGeneration] is not set.
    [now] is the value of [Date.now()]; the state is the route's
    module-level state before and after the request. *)
Definition POST (w : Providers) (now : Z) (st0 : ServerState)
    (apiKeyError : bool) (apiKeys : option (list ApiKey))
    (messages : list AIMessage) (conversationState_ : option ConversationState)
    : ServerState * (ErrorResponse + AIResponse) :=
  let st := resetSessionIfNeeded now st0 in
  let currentState :=
    match conversationState_ with
    | None => initialState (lastContent messages)
    | Some cs => cs
    end in
  let systemPrompt := generateSystemPrompt currentState in
  let enhancedMessages :=
    {| role := system; content := systemPrompt |}
    :: List.filter (fun m => match role m with system => false | _ => true end) messages in
  if apiKeyError then
    (st, inl {| status := 500; error := js "Failed to fetch API keys"; err_errorCode := None |})
  else
  match apiKeys with
  | None | Some [] =>
      (st, inl {| status := 400; error := js "No API keys configured"; err_errorCode := None |})
  | Some keys =>
      let claudeKey := findKey keys "claude" in
      let openaiKey := findKey keys "openai" in
      (* if (openaiKey && !failedProviders.has("openai")) *)
      match (if has (failedProviders st) (js "openai") then None else openaiKey) with
      | Some okey =>
          match callOpenAI w (encrypted_key okey) enhancedMessages with
          | Returned text =>
              (st, inr (respond currentState messages (plain text (js "openai"))))
          | Threw errorMessage errorCause =>
              let '(fallbackReason_, errorCode_, shouldFallback, st1) :=
                classify errorCause st in
              let isTemporaryError :=
                includes errorMessage (js "529")
                || includes errorMessage (js "overloaded")
                || includes errorMessage (js "rate_limit")
                || includes errorMessage (js "503")
                || includes errorMessage (js "timeout")
                || shouldFallback in
              match isTemporaryError, claudeKey with
              | true, Some ckey =>
                  match callClaude w (encrypted_key ckey) enhancedMessages with
                  | Returned text =>
                      let aiResponse :=
                        {| res_content := text; res_provider := js "claude";
                           fallback := true;
                           fallbackReason := Some fallbackReason_;
                           errorCode := Some errorCode_;
                           originalProvider := Some (js "openai");
                           fallbackProvider := Some (js "claude");
                           showNotification :=
                             Some (negb (has (failedProviders st1) (js "openai")));
                           silentFallback := false;
                           conversationState := None;
                           canGenerateWorkflow := false |} in
                      (st1, inr (respond currentState messages aiResponse))
                  | Threw _ _ =>
                      (st1, inl {| status := 503;
                                   error := js "Both OpenAI and Claude are currently unavailable. Please try again in a moment.";
                                   err_errorCode := Some (js "ALL_PROVIDERS_FAILED") |})
                  end
              | _, _ =>
                  (st1, inl {| status := 503;
                               error := if isTemporaryError
                                        then fallbackReason_ ++ js " and no backup provider is configured"
                                        else js "OpenAI API error occurred";
                               err_errorCode := Some errorCode_ |})
              end
          end
      | None =>
          match claudeKey with
          | Some ckey =>
              match callClaude w (encrypted_key ckey) enhancedMessages with
              | Returned text =>
                  let r := plain text (js "claude") in
                  let aiResponse :=
                    if has (failedProviders st) (js "openai")
                    then {| res_content := res_content r; res_provider := res_provider r;
                            fallback := fallback r; fallbackReason := fallbackReason r;
                            errorCode := errorCode r; originalProvider := originalProvider r;
                            fallbackProvider := fallbackProvider r;
                            showNotification := showNotification r;
                            silentFallback := true;
                            conversationState := conversationState r;
                            canGenerateWorkflow := canGenerateWorkflow r |}
                    else r in
                  (st, inr (respond currentState messages aiResponse))
              | Threw _ _ =>
                  (st, inl {| status := 503; error := js "Claude API is currently unavailable";
                              err_errorCode := Some (js "CLAUDE_FAILED") |})
              end
          | None =>
              (st, inl {| status := 400;
                          error := js "No AI providers are configured. Please add API keys in Advanced Settings.";
                          err_errorCode := Some (js "NO_API_KEYS") |})
          end
      end
  end.

End Route.

End Gateway.

(** ** Regular-expression replacement, and the cleaning of a model reply *)

(** [text.replace(regex, replacement)] for a global regular expression.
    [matchAt s] is the match of the expression anchored at the head of
    [s], if there is one: what replaces it and how many characters it
    spans (at least one).  The scan goes left to right, replaces a match
    and resumes after it; [skip] counts the characters of a match still to
    pass over. *)
Fixpoint replaceAll (matchAt : jsstring -> option (jsstring * nat)) (skip : nat)
    (s : jsstring) : jsstring :=
  match s with
  | [] => []
  | c :: t =>
      match skip with
      | S k => replaceAll matchAt k t
      | O =>
          match matchAt s with
          | Some (replacement, span) => replacement ++ replaceAll matchAt (Nat.pred span) t
          | None => c :: replaceAll matchAt 0 t
          end
      end
  end.

(** Length of the run of white space at the head. *)
Fixpoint spaceRun (s : jsstring) : nat :=
  match s with
  | c :: t => if isWhiteSpace c then S (spaceRun t) else 0%nat
  | [] => 0%nat
  end.

(** The expression that matches a fence, an optional "json" tag and the
    white space after it. *)
Definition fenceOpenAt (s : jsstring) : option (jsstring * nat) :=
  if startsWith (js "```json") s then Some ([], (7 + spaceRun (drop 7 s))%nat)
  else if startsWith (js "```") s then Some ([], (3 + spaceRun (drop 3 s))%nat)
  else None.

(** The expression that matches white space followed by a fence. *)
Definition fenceCloseAt (s : jsstring) : option (jsstring * nat) :=
  let k := spaceRun s in
  if startsWith (js "```") (drop k s) then Some ([], (k + 3)%nat) else None.

(** Both replacements that remove the markdown fences. *)
Definition stripFences (text : jsstring) : jsstring :=
  replaceAll fenceCloseAt 0 (replaceAll fenceOpenAt 0 text).

(** *** [AIService.cleanJsonResponse] *)

Module AIService.

Definition isWordChar (c : N) : bool :=
  isDigit c || (N.leb 65 c && N.leb c 90) || (N.leb 97 c && N.leb c 122) || N.eqb c 95.

Fixpoint wordRun (s : jsstring) : nat :=
  match s with
  | c :: t => if isWordChar c then S (wordRun t) else 0%nat
  | [] => 0%nat
  end.

Fixpoint nonQuoteRun (s : jsstring) : nat :=
  match s with
  | c :: t => if N.eqb c dquote then 0%nat else S (nonQuoteRun t)
  | [] => 0%nat
  end.

(** A comma, white space and the closing character: the closing
    character alone replaces them. *)
Definition trailingCommaAt (closer : N) (s : jsstring) : option (jsstring * nat) :=
  match s with
  | c :: t =>
      if N.eqb c (ch ",") then
        let k := spaceRun t in
        match drop k t with
        | d :: _ => if N.eqb d closer then Some ([closer], (k + 2)%nat) else None
        | [] => None
        end
      else None
  | [] => None
  end.

(** An apostrophe: a double quote replaces it. *)
Definition apostropheAt (s : jsstring) : option (jsstring * nat) :=
  match s with
  | c :: _ => if N.eqb c 39 then Some ([dquote], 1%nat) else None
  | [] => None
  end.

(** A run of word characters and a colon: the run is put in quotes. *)
Definition bareKeyAt (s : jsstring) : option (jsstring * nat) :=
  let k := wordRun s in
  if (0 <? k)%nat then
    match drop k s with
    | d :: _ =>
        if N.eqb d (ch ":") then Some ([dquote] ++ take k s ++ [dquote; ch ":"], (k + 1)%nat)
        else None
    | [] => None
    end
  else None.

(** A colon, a quoted string without quotes inside, and a colon: the
    second colon becomes a comma and an opening quote. *)
Definition missingCommaAt (s : jsstring) : option (jsstring * nat) :=
  match s with
  | a :: b :: t =>
      if N.eqb a (ch ":") && N.eqb b dquote then
        let k := nonQuoteRun t in
        match drop k t with
        | q :: c :: _ =>
            if N.eqb q dquote && N.eqb c (ch ":")
            then Some ([ch ":"; dquote] ++ take k t ++ [dquote; ch ","; dquote], (k + 4)%nat)
            else None
        | _ => None
        end
      else None
  | _ => None
  end.

Definition cleanJsonResponse (text : jsstring) : jsstring :=
  (* Remove markdown code blocks *)
  let text := stripFences text in
  (* Extract JSON object if wrapped in text *)
  let jsonStart := indexOf text (ch "{") in
  let jsonEnd := lastIndexOf text (ch "}") in
  let text :=
    if negb (jsonStart =? -1) && negb (jsonEnd =? -1) && (jsonStart <? jsonEnd)
    then substring text jsonStart (jsonEnd + 1)
    else text in
  (* Fix common JSON issues *)
  replaceAll missingCommaAt 0
    (replaceAll bareKeyAt 0
       (replaceAll apostropheAt 0
          (replaceAll (trailingCommaAt (ch "]")) 0
             (replaceAll (trailingCommaAt (ch "}")) 0 text)))).

End AIService.

(** ** Conversation builder (src/components/ai-conversation-builder.tsx) *)

Module Builder.

Inductive Sender : Type := user | ai.

Record Message : Type := {
  id : jsstring;
  content : jsstring;
  sender : Sender;
  timestamp : Z;
  provider : option jsstring;
  error : bool
}.

(** *** The fallback notification of [handleSendMessage] *)

Inductive NotificationType : Type := credits | overload | fallback.

Record Notification : Type := {
  show : bool;
  type : NotificationType;
  title : jsstring;
  message : jsstring;
  errorCode : option jsstring
}.

Definition truthyString (x : option jsstring) : bool :=
  match x with
  | Some (_ :: _) => true
  | _ => false
  end.

(** The notification [handleSendMessage] sets for a response, if any:
    the guard on [fallback], [errorCode], [showNotification] and
    [silentFallback], then the switch on the error code. *)
Definition fallbackNotification (response : Gateway.AIResponse) : option Notification :=
  if Gateway.fallback response
     && truthyString (Gateway.errorCode response)
     && negb (bool_decide (Gateway.showNotification response = Some false))
     && negb (Gateway.silentFallback response)
  then
    let code := Gateway.errorCode response in
    if Gateway.eqs code "CREDITS_LOW" then
      Some {| show := true; type := credits;
              title := js "Claude Credits Exhausted";
              message := js "Primary API is out of credits. Now using OpenAI for this session.";
              errorCode := code |}
    else if Gateway.eqs code "RATE_LIMIT" then
      Some {| show := true; type := overload;
              title := js "Claude Rate Limited";
              message := js "Primary API rate limit exceeded. Now using OpenAI for this session.";
              errorCode := code |}
    else if match Gateway.fallbackReason response with
            | Some reason => includes reason (js "overloaded")
            | None => false
            end
    then
      Some {| show := true; type := overload;
              title := js "Claude Overloaded";
              message := js "Primary API is overloaded. Now using OpenAI for this session.";
              errorCode := code |}
    else
      Some {| show := true; type := fallback;
              title := js "Provider Switched";
              message := js "Switched to backup provider";
              errorCode := code |}
  else None.

(** *** [handleGenerateWorkflow] *)

(** What [fetch("/api/ai-chat")] and reading its body come to. *)
Inductive FetchResult : Type :=
| Rejected (message : jsstring)
| NotOk (errorField : option jsstring)
| Ok (content : jsstring) (provider : jsstring).

Inductive Effect : Type :=
| updateWorkflowJsonAndStatus (workflowId : jsstring) (workflowJson : json) (status : jsstring)
| onWorkflowUpdated
| onWorkflowGenerated (workflowJson : jsstring)
| celebrationScheduled (provider : jsstring).

(** The props and state of the component that the handler reads or
    writes. *)
Record Builder : Type := {
  messages : list Message;
  showGenerateButton : bool;
  isGeneratingWorkflow : bool;
  workflowGenerated : bool;
  errorText : jsstring;
  currentWorkflowId : option jsstring;
  has_onWorkflowUpdated : bool;
  has_onWorkflowGenerated : bool
}.

Section Generate.
Context `{JsEngine}.

(** [v.key] for the keys the handler reads (nodes, name, type); [inl] is
    the [TypeError] on null. *)
Definition getProp (v : json) (key : string) : jsstring + option json :=
  match v with
  | JNull => inl (typeErrorMessage (js key))
  | JObject members => inr (lookupMember (js key) members)
  | _ => inr None
  end.

(** The cleaning step: trim, drop the fences, slice from the first
    opening brace to the last closing brace.  [inl] is the message of
    the [Error] thrown. *)
Definition extractJson (content : jsstring) : jsstring + jsstring :=
  let workflowJson := trim content in
  let workflowJson := stripFences workflowJson in
  let jsonStart := indexOf workflowJson (ch "{") in
  let jsonEnd := lastIndexOf workflowJson (ch "}") in
  if (jsonStart =? -1) || (jsonEnd =? -1) || (jsonEnd <=? jsonStart) then
    if includes (toLowerCase workflowJson) (js "sorry")
       || includes (toLowerCase workflowJson) (js "can't generate")
       || includes (toLowerCase workflowJson) (js "unable to")
    then inl (js "AI provided explanation instead of JSON. The system prompt may need adjustment.")
    else inl (js "AI did not generate valid JSON structure. Please try again.")
  else inr (substring workflowJson jsonStart (jsonEnd + 1)).

(** [(node) => !node.name || !node.type] *)
Definition nodeInvalid (node : json) : jsstring + bool :=
  match getProp node "name" with
  | inl e => inl e
  | inr name =>
      if negb (truthyOpt name) then inr true
      else
        match getProp node "type" with
        | inl e => inl e
        | inr type_ => inr (negb (truthyOpt type_))
        end
  end.

(** [nodes.filter(...)], which stops at the first exception. *)
Fixpoint invalidNodes (nodes : list json) : jsstring + list json :=
  match nodes with
  | [] => inr []
  | node :: rest =>
      match nodeInvalid node with
      | inl e => inl e
      | inr b =>
          match invalidNodes rest with
          | inl e => inl e
          | inr l => inr (if b then node :: l else l)
          end
      end
  end.

(** The structural checks on the parsed value; the nodes on success. *)
Definition checkWorkflow (parsed : json) : jsstring + list json :=
  match getProp parsed "nodes" with
  | inl e => inl e
  | inr (Some (JArray nodes)) =>
      if (length nodes =? 0)%nat then inl (js "Generated workflow has no nodes")
      else
        match invalidNodes nodes with
        | inl e => inl e
        | inr invalid =>
            if (0 <? length invalid)%nat then
              inl (js "Generated workflow has " ++ toString (Z.of_nat (length invalid))
                   ++ js " invalid nodes missing name or type")
            else inr nodes
        end
  | inr _ => inl (js "Generated workflow is missing required 'nodes' array")
  end.

(** The [catch (parseError)] of the inner [try]. *)
Definition rethrown (message : jsstring) : jsstring :=
  if includes message (js "Unexpected token")
  then js "AI generated malformed JSON. Please try again."
  else if includes message (js "nodes") then message
  else js "JSON parsing failed: " ++ message.

(** The message the outer [catch] shows. *)
Definition shownError (message : jsstring) : jsstring :=
  if includes message (js "AI provided explanation")
  then js "AI provided explanation instead of JSON. Please try rephrasing your requirements and try again."
  else if includes message (js "system prompt")
  then js "System configuration issue. Please try again or contact support."
  else if includes message (js "JSON") then js "JSON Error: " ++ message
  else if includes message (js "nodes") then js "Workflow Error: " ++ message
  else message.

(** The [try] block of [handleGenerateWorkflow] up to the point where
    the artifact is accepted: the cleaned text and the parsed value, or
    the message of the [Error] that reaches the outer [catch]. *)
Definition generate (response : FetchResult) : jsstring + (jsstring * json * jsstring) :=
  match response with
  | Rejected message => inl message
  | NotOk (Some (c :: e)) => inl (c :: e)
  | NotOk _ => inl (js "Failed to generate workflow")
  | Ok content provider =>
      match extractJson content with
      | inl e => inl e
      | inr workflowJson =>
          match JSON_parse workflowJson with
          | None => inl (rethrown (syntaxErrorMessage workflowJson))
          | Some parsed =>
              match checkWorkflow parsed with
              | inl e => inl (rethrown e)
              | inr _ => inr (workflowJson, parsed, provider)
              end
          end
      end
  end.

(** [handleGenerateWorkflow], run from the click to the end of its
    [finally]: the state it leaves and the calls it made, in order.
    [now] is [Date.now()]. *)
Definition handleGenerateWorkflow (now : Z) (response : FetchResult) (b : Builder)
    : Builder * list Effect :=
  match generate response with
  | inr (workflowJson, parsed, provider_) =>
      let saved :=
        match currentWorkflowId b with
        | Some (c :: w) =>
            updateWorkflowJsonAndStatus (c :: w) parsed (js "generated")
            :: (if has_onWorkflowUpdated b then [onWorkflowUpdated] else [])
        | _ => []
        end in
      let sent :=
        if has_onWorkflowGenerated b then [onWorkflowGenerated workflowJson] else [] in
      ({| messages := messages b;
          showGenerateButton := false;
          isGeneratingWorkflow := false;
          workflowGenerated := true;
          errorText := errorText b;
          currentWorkflowId := currentWorkflowId b;
          has_onWorkflowUpdated := has_onWorkflowUpdated b;
          has_onWorkflowGenerated := has_onWorkflowGenerated b |},
       saved ++ sent ++ [celebrationScheduled provider_])
  | inl thrown =>
      let errorMessage := shownError thrown in
      let errorMessage_ai :=
        {| id := toString (now + 3);
           content := [226%N; 338%N] ++ js " Workflow generation failed: " ++ errorMessage
                      ++ [10%N; 10%N]
                      ++ js "Please ensure your requirements are clear and try again. You may need to provide more specific details about your automation needs.";
           sender := ai;
           timestamp := now;
           provider := None;
           error := true |} in
      ({| messages := messages b ++ [errorMessage_ai];
          showGenerateButton := true;
          isGeneratingWorkflow := false;
          workflowGenerated := workflowGenerated b;
          errorText := errorMessage;
          currentWorkflowId := currentWorkflowId b;
          has_onWorkflowUpdated := has_onWorkflowUpdated b;
          has_onWorkflowGenerated := has_onWorkflowGenerated b |},
       [])
  end.

End Generate.

(** The ways a generation attempt fails, stage by stage. *)
Inductive GenerationFails `{JsEngine} : FetchResult -> Prop :=
| fails_rejected message : GenerationFails (Rejected message)
| fails_not_ok errorField : GenerationFails (NotOk errorField)
| fails_no_braces content provider_ :
    (let text := stripFences (trim content) in
     indexOf text (ch "{") = -1 \/ lastIndexOf text (ch "}") = -1
     \/ lastIndexOf text (ch "}") <= indexOf text (ch "{")) ->
    GenerationFails (Ok content provider_)
| fails_parse content provider_ workflowJson :
    extractJson content = inr workflowJson ->
    JSON_parse workflowJson = None ->
    GenerationFails (Ok content provider_)
| fails_nodes_not_array content provider_ workflowJson parsed :
    extractJson content = inr workflowJson ->
    JSON_parse workflowJson = Some parsed ->
    (forall nodes, getProp parsed "nodes" <> inr (Some (JArray nodes))) ->
    GenerationFails (Ok content provider_)
| fails_no_nodes content provider_ workflowJson parsed :
    extractJson content = inr workflowJson ->
    JSON_parse workflowJson = Some parsed ->
    getProp parsed "nodes" = inr (Some (JArray [])) ->
    GenerationFails (Ok content provider_)
| fails_null_node content provider_ workflowJson parsed nodes :
    extractJson content = inr workflowJson ->
    JSON_parse workflowJson = Some parsed ->
    getProp parsed "nodes" = inr (Some (JArray nodes)) ->
    In JNull nodes ->
    GenerationFails (Ok content provider_)
| fails_invalid_node content provider_ workflowJson parsed nodes node :
    extractJson content = inr workflowJson ->
    JSON_parse workflowJson = Some parsed ->
    getProp parsed "nodes" = inr (Some (JArray nodes)) ->
    In node nodes ->
    nodeInvalid node = inr true ->
    GenerationFails (Ok content provider_).

(** *** Debounced auto-save of the message log

    The effect of lines 166-244 and the timeout it schedules, as a
    transition system over the refs of the component, the pending
    timeouts and the calls made to the storage service. *)

Definition senderName (s : Sender) : jsstring :=
  match s with
  | user => js "user"
  | ai => js "ai"
  end.

(** [JSON.stringify(messages.map((m) => m.id + m.content + m.sender))].
    The rendering of an array of strings determines the array, so the
    array stands for it. *)
Definition messagesHash (messages_ : list Message) : list jsstring :=
  map (fun m => id m ++ content m ++ senderName (sender m)) messages_.

(** What the timeout callback captured when it was created. *)
Record Closure : Type := {
  cl_currentWorkflowId : option jsstring;
  cl_messages : list Message;
  cl_messagesHash : list jsstring
}.

Record Timer : Type := {
  timerId : nat;
  due : Z;
  captured : Closure
}.

(** A call [workflowStorage.updateWorkflowChatHistory(id, chatHistory)]
    and the time it was made. *)
Record Save : Type := {
  save_time : Z;
  save_workflowId : option jsstring;
  save_chatHistory : list Message
}.

Record AutoSave : Type := {
  workflowStateRef : option jsstring * list Message;
  (** [None] is the initial empty string, which no hash equals *)
  lastSavedHashRef : option (list jsstring);
  isTransitioningRef : bool;
  autoSaveTimeoutRef : option nat;
  (** whether the last run of the effect returned its cleanup *)
  cleanup : bool;
  (** the timeouts that are pending *)
  timers : list Timer;
  nextTimerId : nat;
  (** the calls made so far, oldest first *)
  saves : list Save
}.

Definition DEBOUNCE : Z := 3000.

Definition clearTimeout (ref : option nat) (ts : list Timer) : list Timer :=
  match ref with
  | Some i => List.filter (fun t => negb (Nat.eqb (timerId t) i)) ts
  | None => ts
  end.

Definition with_timers (s : AutoSave) (cleanup_ : bool) (ref : option nat)
    (ts : list Timer) (next : nat) : AutoSave :=
  {| workflowStateRef := workflowStateRef s;
     lastSavedHashRef := lastSavedHashRef s;
     isTransitioningRef := isTransitioningRef s;
     autoSaveTimeoutRef := ref;
     cleanup := cleanup_;
     timers := ts;
     nextTimerId := next;
     saves := saves s |}.

(** The body of the effect for a render with [messages_] and
    [currentWorkflowId_], at time [now]. *)
Definition autoSaveEffect (now : Z) (messages_ : list Message)
    (currentWorkflowId_ : option jsstring) (s : AutoSave) : AutoSave :=
  let skip := with_timers s false (autoSaveTimeoutRef s) (timers s) (nextTimerId s) in
  if isTransitioningRef s then skip
  else if negb (truthyString currentWorkflowId_) || (length messages_ <=? 1)%nat then skip
  else if negb (bool_decide (fst (workflowStateRef s) = currentWorkflowId_)) then skip
  else
    let messagesHash_ := messagesHash messages_ in
    if bool_decide (Some messagesHash_ = lastSavedHashRef s) then skip
    else
      let ts := clearTimeout (autoSaveTimeoutRef s) (timers s) in
      let t := {| timerId := nextTimerId s;
                  due := now + DEBOUNCE;
                  captured := {| cl_currentWorkflowId := currentWorkflowId_;
                                 cl_messages := messages_;
                                 cl_messagesHash := messagesHash_ |} |} in
      with_timers s true (Some (nextTimerId s)) (ts ++ [t]) (S (nextTimerId s)).

(** A commit in which [messages] or [currentWorkflowId] changed: the
    cleanup of the previous run, the effect that copies both into
    [workflowStateRef], then the auto-save effect. *)
Definition commit (now : Z) (messages_ : list Message)
    (currentWorkflowId_ : option jsstring) (s : AutoSave) : AutoSave :=
  let ts := if cleanup s then clearTimeout (autoSaveTimeoutRef s) (timers s) else timers s in
  let s1 :=
    {| workflowStateRef := (currentWorkflowId_, messages_);
       lastSavedHashRef := lastSavedHashRef s;
       isTransitioningRef := isTransitioningRef s;
       autoSaveTimeoutRef := autoSaveTimeoutRef s;
       cleanup := false;
       timers := ts;
       nextTimerId := nextTimerId s;
       saves := saves s |} in
  autoSaveEffect now messages_ currentWorkflowId_ s1.

(** The timeout callback up to its call of the storage service. *)
Definition autoSaveCallback (t : Timer) (s : AutoSave) : AutoSave :=
  let c := captured t in
  if negb (bool_decide (fst (workflowStateRef s) = cl_currentWorkflowId c))
     || isTransitioningRef s
  then s
  else if negb (bool_decide (messagesHash (cl_messages c) = cl_messagesHash c)) then s
  else
    {| workflowStateRef := workflowStateRef s;
       lastSavedHashRef := lastSavedHashRef s;
       isTransitioningRef := isTransitioningRef s;
       autoSaveTimeoutRef := autoSaveTimeoutRef s;
       cleanup := cleanup s;
       timers := timers s;
       nextTimerId := nextTimerId s;
       saves := saves s ++ [ {| save_time := due t;
                                save_workflowId := cl_currentWorkflowId c;
                                save_chatHistory := cl_messages c |} ] |}.

(** The continuation after [await]: a successful save records its hash. *)
Definition saveResolved (success : bool) (hash : list jsstring) (s : AutoSave) : AutoSave :=
  if success then
    {| workflowStateRef := workflowStateRef s;
       lastSavedHashRef := Some hash;
       isTransitioningRef := isTransitioningRef s;
       autoSaveTimeoutRef := autoSaveTimeoutRef s;
       cleanup := cleanup s;
       timers := timers s;
       nextTimerId := nextTimerId s;
       saves := saves s |}
  else s.

(** Time reaches [now]: the timeouts that are due run, oldest first. *)
Definition elapse (now : Z) (s : AutoSave) : AutoSave :=
  let dues := List.filter (fun t => due t <=? now) (timers s) in
  let rest := List.filter (fun t => negb (due t <=? now)) (timers s) in
  fold_left (fun acc t => autoSaveCallback t acc) dues
    (with_timers s (cleanup s) (autoSaveTimeoutRef s) rest (nextTimerId s)).

Inductive Event : Type :=
| Mutation (now : Z) (messages_ : list Message)
| Elapse (now : Z)
| Resolved (success : bool) (hash : list jsstring).

(** One event; timeouts due by the time of a mutation run before it.
    A mutation keeps the current workflow. *)
Definition step (s : AutoSave) (e : Event) : AutoSave :=
  match e with
  | Mutation now messages_ =>
      let s1 := elapse now s in
      commit now messages_ (fst (workflowStateRef s1)) s1
  | Elapse now => elapse now s
  | Resolved success hash => saveResolved success hash s
  end.

Definition run (s : AutoSave) (events : list Event) : AutoSave :=
  fold_left step events s.

(** At most the timeout held by the ref is pending, and its cleanup is
    registered. *)
Definition wellFormed (s : AutoSave) : Prop :=
  match timers s with
  | [] => True
  | [t] => autoSaveTimeoutRef s = Some (timerId t) /\ cleanup s = true
  | _ => False
  end.

(** A burst after a mutation at time [last]: every further mutation
    comes less than the debounce delay after the one before, and the time
    that passes in between does not reach the pending deadline.  Saves
    may resolve at any point. *)
Fixpoint burst (last : Z) (events : list Event) : Prop :=
  match events with
  | [] => True
  | Mutation t _ :: rest => last <= t /\ t < last + DEBOUNCE /\ burst t rest
  | Elapse t :: rest => t < last + DEBOUNCE /\ burst last rest
  | Resolved _ _ :: rest => burst last rest
  end.

(** The time and the log of the last mutation among [events], or
    [first] when there is none. *)
Definition lastMutation (first : Z * list Message) (events : list Event)
    : Z * list Message :=
  fold_left (fun acc e => match e with
                          | Mutation t m => (t, m)
                          | _ => acc
                          end) events first.

(** After a mutation at time [t] that left the log [m]: nothing is
    pending, or only the timeout scheduled by that mutation. *)
Definition pendingAfter (s : AutoSave) (t : Z) (m : list Message) : Prop :=
  timers s = []
  \/ exists tm, timers s = [tm]
       /\ due tm = t + DEBOUNCE
       /\ cl_messages (captured tm) = m
       /\ autoSaveTimeoutRef s = Some (timerId tm)
       /\ cleanup s = true.

(** *** The storage service (WorkflowStorage.updateWorkflowChatHistory) *)

Record StoredWorkflow : Type := {
  chat_history : list Message;
  version : option Z
}.

(** The request [PUT /api/workflows/:id] with its body. *)
Record PutRequest : Type := {
  put_chat_history : list Message;
  expected_version : Z
}.

Definition storageHash (history : list Message) : list jsstring :=
  map (fun m => id m ++ content m) history.

(** What the [fetch] of the [PUT] comes to: the promise is rejected (no
    answer arrives), or it gives a response with its status and its
    body.  The body is the text that [response.json()] parses; it is
    [None] when the body cannot be read. *)
Inductive PutResponse : Type :=
| PutFailed
| PutAnswered (status : Z) (body : option jsstring).

(** The body that the storage method runs for a call: what the promise
    resolves with and the request issued, if any.  [currentWorkflow] is
    what [getWorkflow] returned and [response] what the [PUT] comes to.
    Whatever is thrown inside the [try] is caught and resolves [false].
    (The method delays this body by a further second.) *)
Definition updateWorkflowChatHistory (currentWorkflow : option StoredWorkflow)
    (response : PutResponse) (chatHistory : list Message) : bool * option PutRequest :=
  match currentWorkflow with
  | None => (false, None)
  | Some w =>
      let cur := Z.of_nat (length (chat_history w)) in
      let new := Z.of_nat (length chatHistory) in
      if new + 2 <? cur then (false, None)
      else if (Z.abs (cur - new) <=? 2)
              && bool_decide (storageHash (chat_history w) = storageHash chatHistory)
      then (true, None)
      else
        let request :=
          {| put_chat_history := chatHistory;
             expected_version := match version w with
                                 | Some v => if v =? 0 then 1 else v
                                 | None => 1
                                 end |} in
        match response with
        | PutFailed => (false, Some request)
        | PutAnswered status body =>
            if status =? 409 then (false, Some request)
            else if negb ((200 <=? status) && (status <=? 299)) then (false, Some request)
            else
              (* const result = await response.json() *)
              match body with
              | Some text =>
                  match JSON_parse text with
                  | Some result => (true, Some request)
                  | None => (false, Some request)
                  end
              | None => (false, Some request)
              end
        end
  end.

End Builder.

(** ** Notions used to state the properties *)

(** An engine to run the embedding on examples: lower-casing of the
    ASCII letters, and the messages of one engine. *)
Definition asciiLower (c : N) : N :=
  if (N.leb 65 c && N.leb c 90)%N then (c + 32)%N else c.

Definition exampleEngine : JsEngine :=
  {| toLowerCase := map asciiLower;
     syntaxErrorMessage := fun _ => js "Unexpected end of JSON input";
     typeErrorMessage := fun key =>
       js "Cannot read properties of null (reading '" ++ key ++ js "')" |}.

(** Number of elements of a list that satisfy a test. *)
Definition count {A : Type} (p : A -> bool) (l : list A) : nat :=
  length (List.filter p l).

Definition isHigh (r : WorkflowRequirement) : bool := Priority_eqb (priority r) high.

(** [r] is [100 * a / t] rounded to the nearest integer, a half going up. *)
Definition rounds_percent (a t r : Z) : Prop :=
  2 * t * r - t <= 200 * a < 2 * t * r + t.

(** From the specification: completeness is the rounded percentage of
    answered requirements, and the larger of that and 80 when at least
    80% of the high-priority requirements are answered. *)
Definition spec_completeness (requirements_ : list WorkflowRequirement) (c : Z) : Prop :=
  exists r : Z,
    rounds_percent (Z.of_nat (count answered requirements_))
                   (Z.of_nat (length requirements_)) r
    /\ c = if 80 * Z.of_nat (count isHigh requirements_)
              <=? 100 * Z.of_nat (count (fun x => isHigh x && answered x) requirements_)
           then Z.max r 80 else r.

(** The order of the phases. *)
Definition Phase_rank (p : Phase) : nat :=
  match p with
  | discovery => 0
  | validation => 1
  | generation => 2
  | complete => 3
  end.

(** A sequence of turns, each a user message and the assistant's reply,
    applied in order. *)
Definition runUpdates `{JsEngine} (s : ConversationState)
    (turns : list (jsstring * jsstring)) : ConversationState :=
  fold_left (fun st turn => updateConversationState st (fst turn) (snd turn)) turns s.

(** The states of a session: the initial one, and any update of one. *)
Inductive reachable `{JsEngine} : ConversationState -> Prop :=
| reachable_initial userMessage : reachable (initialState userMessage)
| reachable_update s userMessage aiResponse :
    reachable s -> reachable (updateConversationState s userMessage aiResponse).

(** From the specification: the focus is the category of the first
    unanswered high-priority requirement, else that of the first
    unanswered requirement, else the given sentinel. *)
Definition spec_currentFocus (sentinel : jsstring)
    (requirements_ : list WorkflowRequirement) : jsstring :=
  match find (fun r => negb (answered r) && isHigh r) requirements_ with
  | Some r => Category_name (category r)
  | None =>
      match find (fun r => negb (answered r)) requirements_ with
      | Some r => Category_name (category r)
      | None => sentinel
      end
  end.

(** What an update may do to a requirement: keep its priority and
    category, and keep it answered once it is. *)
Definition grows (r r' : WorkflowRequirement) : Prop :=
  priority r' = priority r /\ category r' = category r
  /\ (answered r = true -> answered r' = true).

(** The generation output of the acceptance example, and the text the
    cleaning step is expected to leave. *)
Definition sampleJson : jsstring :=
  jsq "{'nodes':[{'name':'A','type':'t'}],'connections':{}}".

Definition sampleOutput : jsstring :=
  js "Sure! ```json" ++ [10%N] ++ sampleJson ++ [10%N] ++ js "```".

(** ** Concrete inputs for the examples *)

(** Six base requirements, the three high-priority ones answered. *)
Definition threeOfSix : list WorkflowRequirement :=
  map (fun r => {| category := category r; question := question r;
                   answered := isHigh r; answer := None; priority := priority r |})
      baseRequirements.

(** Forty requirements: twenty-three answered ones that are not of
    high priority, then seventeen unanswered ones of high priority. *)
Definition twentyThreeOfForty : list WorkflowRequirement :=
  List.repeat {| category := inputs; question := js "What data do you need?";
                 answered := true; answer := Some (js "the orders");
                 priority := medium |} 23
  ++ List.repeat {| category := scope; question := js "What should it do?";
                    answered := false; answer := None; priority := high |} 17.

(** A session opened with "hello", and a reply that carries the summary
    heading. *)
Definition helloState : ConversationState :=
  @initialState exampleEngine (js "hello").

Definition summaryReply : jsstring :=
  js "Workflow Summary: a daily report. Does this capture everything?".

(** Both providers configured; OpenAI answers with a rate-limit error,
    Claude answers. *)
Definition exampleKeys : list Gateway.ApiKey :=
  [ {| Gateway.provider := js "OpenAI"; Gateway.encrypted_key := js "key-1" |};
    {| Gateway.provider := js "Claude"; Gateway.encrypted_key := js "key-2" |} ].

Definition rateLimited : Gateway.Providers :=
  {| Gateway.callOpenAI := fun _ _ =>
       Gateway.Threw (js "OpenAI API error: 429 - rate limit reached")
         (Some {| Gateway.type := Some (js "rate_limit_error");
                  Gateway.code := Some (js "rate_limit_exceeded") |});
     Gateway.callClaude := fun _ _ => Gateway.Returned (js "Which event starts it?") |}.

Definition freshServer : Gateway.ServerState :=
  {| Gateway.failedProviders := ∅; Gateway.sessionStartTime := 0 |}.

Definition examplePrompt (s : ConversationState) : jsstring := js "system prompt".

Definition exampleMessages : list Gateway.AIMessage :=
  [ {| Gateway.role := Gateway.user; Gateway.content := js "hello" |} ].

(** The first request, one second after the route was loaded, and a
    second one a minute later. *)
Definition firstCall : Gateway.ServerState * (Gateway.ErrorResponse + Gateway.AIResponse) :=
  @Gateway.POST exampleEngine examplePrompt rateLimited 1000 freshServer false
    (Some exampleKeys) exampleMessages None.

Definition secondCall : Gateway.ServerState * (Gateway.ErrorResponse + Gateway.AIResponse) :=
  @Gateway.POST exampleEngine examplePrompt rateLimited 61000 (fst firstCall) false
    (Some exampleKeys) exampleMessages None.

(** A builder with a stored workflow and both callbacks. *)
Definition exampleBuilder : Builder.Builder :=
  {| Builder.messages := [];
     Builder.showGenerateButton := true;
     Builder.isGeneratingWorkflow := false;
     Builder.workflowGenerated := false;
     Builder.errorText := [];
     Builder.currentWorkflowId := Some (js "wf-1");
     Builder.has_onWorkflowUpdated := true;
     Builder.has_onWorkflowGenerated := true |}.

Definition exampleMessage (n : Z) (who : Builder.Sender) (text : string) : Builder.Message :=
  {| Builder.id := toString n; Builder.content := js text; Builder.sender := who;
     Builder.timestamp := n; Builder.provider := None; Builder.error := false |}.

(** The component just after workflow "wf-1" was loaded with its
    greeting, nothing pending. *)
Definition exampleAutoSave : Builder.AutoSave :=
  {| Builder.workflowStateRef := (Some (js "wf-1"), [exampleMessage 0 Builder.ai "Hi!"]);
     Builder.lastSavedHashRef := Some (Builder.messagesHash [exampleMessage 0 Builder.ai "Hi!"]);
     Builder.isTransitioningRef := false;
     Builder.autoSaveTimeoutRef := None;
     Builder.cleanup := false;
     Builder.timers := [];
     Builder.nextTimerId := 0;
     Builder.saves := [] |}.

Definition log1 : list Builder.Message :=
  [exampleMessage 0 Builder.ai "Hi!"; exampleMessage 10 Builder.user "hello"].
Definition log2 : list Builder.Message :=
  log1 ++ [exampleMessage 400 Builder.ai "Which event starts it?"].
Definition log3 : list Builder.Message :=
  log2 ++ [exampleMessage 900 Builder.user "a new email"].

(** ** Further parts of the program *)

(** ** The provider transports of the route: the failure of a call *)

Module Transport.
Import Gateway.

(** A member that the route compares with a string literal: its value
    when it is a string. *)
Definition stringMember (key : string) (members : list (jsstring * json)) : option jsstring :=
  match lookupMember (js key) members with
  | Some (JString s) => Some s
  | _ => None
  end.

(** [parsedError.error || parsedError] inside the [try], with the
    [catch] that keeps the default: [JSON.parse] throws on a text that is
    not JSON, and reading [.error] throws on [null]. *)
Definition errorDetails (default : json) (error : jsstring) : json :=
  match JSON_parse error with
  | Some (JObject members) =>
      match lookupMember (js "error") members with
      | Some e => if truthy e then e else JObject members
      | None => JObject members
      end
  | Some JNull | None => default
  | Some parsedError => parsedError
  end.

(** What the route sees of [error.cause]: the test
    [errorCause && typeof errorCause === "object"], then the fields
    [type] and [code]. *)
Definition causeOf (details : json) : option ErrorCause :=
  match details with
  | JObject members =>
      Some {| type := stringMember "type" members; code := stringMember "code" members |}
  | JArray _ => Some {| type := None; code := None |}
  | _ => None
  end.

(** [callOpenAI] when the response is not ok: the [Error] thrown for a
    status and a body. *)
Definition callOpenAI_notOk (status : Z) (error : jsstring) : CallResult :=
  Threw (js "OpenAI API error: " ++ toString status ++ js " - " ++ error)
        (causeOf (errorDetails
                    (JObject [(js "type", JString (js "unknown"));
                              (js "message", JString error);
                              (js "code", JString (js "UNKNOWN"))])
                    error)).

(** [callClaude] when the response is not ok. *)
Definition callClaude_notOk (status : Z) (error : jsstring) : CallResult :=
  Threw (js "Claude API error: " ++ toString status ++ js " - " ++ error)
        (causeOf (errorDetails
                    (JObject [(js "type", JString (js "unknown"));
                              (js "message", JString error)])
                    error)).

End Transport.

(** ** The chat route when [isWorkflowGeneration] is set *)

Module Generation.
Import Gateway.

Definition workflowGenerationPrompt : jsstring :=
  js "You are an expert n8n workflow generator. Your ONLY task is to generate valid n8n workflow JSON based on the conversation history.

CRITICAL INSTRUCTIONS:
- Generate ONLY valid n8n workflow JSON
- NO explanations, comments, or markdown formatting
- NO text before or after the JSON
- Start directly with { and end with }
- Include all necessary nodes, connections, and configurations
- Use proper n8n node types and parameters

Based on the conversation, create a complete n8n workflow JSON that implements the requested automation.".

(** The body of the answer: the provider's response and the flag the
    route adds to it. *)
Record WorkflowResponse : Type := {
  response : AIResponse;
  isWorkflowGeneration : bool
}.

Section Route.
Context `{JsEngine}.

(** [POST], the branch taken when [isWorkflowGeneration] is set.  An
    OpenAI failure with no Claude key is thrown again and reaches the
    [catch] of the handler. *)
Definition POST (w : Providers) (now : Z) (st0 : ServerState)
    (apiKeyError : bool) (apiKeys : option (list ApiKey))
    (messages : list AIMessage)
    : ServerState * (ErrorResponse + WorkflowResponse) :=
  let st := resetSessionIfNeeded now st0 in
  let enhancedMessages :=
    {| role := system; content := workflowGenerationPrompt |}
    :: List.filter (fun m => match role m with system => false | _ => true end) messages
    ++ [ {| role := user;
            content := js "Generate the complete n8n workflow JSON now. Output only valid JSON, no explanations." |} ] in
  let answer (aiResponse : AIResponse) : ErrorResponse + WorkflowResponse :=
    inr {| response := aiResponse; isWorkflowGeneration := true |} in
  if apiKeyError then
    (st, inl {| status := 500; error := js "Failed to fetch API keys"; err_errorCode := None |})
  else
  match apiKeys with
  | None | Some [] =>
      (st, inl {| status := 400; error := js "No API keys configured"; err_errorCode := None |})
  | Some keys =>
      let claudeKey := findKey keys "claude" in
      let openaiKey := findKey keys "openai" in
      (* Try OpenAI first for workflow generation *)
      match (if has (failedProviders st) (js "openai") then None else openaiKey) with
      | Some okey =>
          match callOpenAI w (encrypted_key okey) enhancedMessages with
          | Returned text => (st, answer (plain text (js "openai")))
          | Threw _ _ =>
              match claudeKey with
              | Some ckey =>
                  match callClaude w (encrypted_key ckey) enhancedMessages with
                  | Returned text =>
                      (st, answer
                             {| res_content := text; res_provider := js "claude";
                                fallback := true;
                                fallbackReason := Some (js "OpenAI failed for workflow generation");
                                errorCode := None; originalProvider := None;
                                fallbackProvider := None; showNotification := None;
                                silentFallback := false; conversationState := None;
                                canGenerateWorkflow := false |})
                  | Threw _ _ =>
                      (st, inl {| status := 503;
                                  error := js "Workflow generation failed - all AI providers unavailable";
                                  err_errorCode := None |})
                  end
              | None =>
                  (st, inl {| status := 500;
                              error := js "Internal server error occurred while processing your request";
                              err_errorCode := Some (js "INTERNAL_ERROR") |})
              end
          end
      | None =>
          match claudeKey with
          | Some ckey =>
              match callClaude w (encrypted_key ckey) enhancedMessages with
              | Returned text => (st, answer (plain text (js "claude")))
              | Threw _ _ =>
                  (st, inl {| status := 503;
                              error := js "Workflow generation failed - Claude API unavailable";
                              err_errorCode := None |})
              end
          | None =>
              (st, inl {| status := 400;
                          error := js "No AI providers configured for workflow generation";
                          err_errorCode := None |})
          end
      end
  end.

End Route.

(** The request of [handleGenerateWorkflow]: the log as the messages of
    the conversation. *)
Definition conversationHistory (messages : list Builder.Message) : list AIMessage :=
  map (fun msg => {| role := match Builder.sender msg with
                             | Builder.user => user
                             | Builder.ai => assistant
                             end;
                     content := Builder.content msg |})
      messages.

(** What [fetch] and the reading of the body come to for an answer of
    the route: [error.error] of an answer that is not ok, [data.content]
    and [data.provider] of one that is. *)
Definition fetched (answer : ErrorResponse + WorkflowResponse) : Builder.FetchResult :=
  match answer with
  | inl e => Builder.NotOk (Some (error e))
  | inr r => Builder.Ok (res_content (response r)) (res_provider (response r))
  end.

End Generation.

(** ** Loading a workflow into the conversation builder *)

Module Loading.
Import Builder.

Definition greeting : jsstring :=
  js "Hi! I'm your n8n workflow expert. Tell me what you want to automate, and I'll help you build the perfect workflow. What process would you like to automate today?".

Definition initialMessage (id_ : jsstring) (now : Z) : Message :=
  {| id := id_; content := greeting; sender := ai; timestamp := now;
     provider := None; error := false |}.

(** The workflow id and the log that [loadWorkflowData] sets: the stored
    history, or the greeting when there is none; without a workflow, no
    id and a greeting whose id carries the time. *)
Definition messagesToSet (now : Z) (workflow : option (jsstring * list Message))
    : option jsstring * list Message :=
  match workflow with
  | Some (workflowId, chat_history_) =>
      (Some workflowId,
       match chat_history_ with
       | [] => [initialMessage (js "initial") now]
       | _ :: _ => chat_history_
       end)
  | None => (None, [initialMessage (js "initial-" ++ toString now) now])
  end.

(** [loadWorkflowData] on the refs of the auto-save, followed by the
    commit of the state it sets. *)
Definition loadWorkflowData (now : Z) (workflow : option (jsstring * list Message))
    (s : AutoSave) : AutoSave :=
  let loaded := messagesToSet now workflow in
  commit now (snd loaded) (fst loaded)
    {| workflowStateRef := workflowStateRef s;
       lastSavedHashRef := Some (messagesHash (snd loaded));
       isTransitioningRef := true;
       autoSaveTimeoutRef := autoSaveTimeoutRef s;
       cleanup := cleanup s;
       timers := timers s;
       nextTimerId := nextTimerId s;
       saves := saves s |}.

(** The timeout that [loadWorkflowData] sets for 500 ms later. *)
Definition transitionComplete (s : AutoSave) : AutoSave :=
  {| workflowStateRef := workflowStateRef s;
     lastSavedHashRef := lastSavedHashRef s;
     isTransitioningRef := false;
     autoSaveTimeoutRef := autoSaveTimeoutRef s;
     cleanup := cleanup s;
     timers := timers s;
     nextTimerId := nextTimerId s;
     saves := saves s |}.

End Loading.

(** ** The storage service: the one-second debounce of
    [updateWorkflowChatHistory] *)

Module Storage.
Import Builder.

(** A timeout set by a call: its id, which also names the promise the
    call returned, when it is due, and what the call was given. *)
Record Scheduled : Type := {
  sch_timer : nat;
  sch_due : Z;
  sch_workflowId : jsstring;
  sch_chatHistory : list Message
}.

Record Service : Type := {
  (** the map [pendingUpdates] of the instance *)
  pendingUpdates : gmap jsstring nat;
  (** the timeouts that are pending, oldest first *)
  scheduled : list Scheduled;
  nextTimeout : nat;
  (** the promises resolved so far, with their values *)
  settled : list (nat * bool);
  (** the [PUT] requests issued so far *)
  puts : list (jsstring * PutRequest)
}.

(** A fresh instance. *)
Definition newService : Service :=
  {| pendingUpdates := ∅; scheduled := []; nextTimeout := 0;
     settled := []; puts := [] |}.

(** The synchronous part of the method: cancel the timeout recorded for
    the workflow, set a new one for a second later and record it. *)
Definition updateWorkflowChatHistory (now : Z) (workflowId : jsstring)
    (chatHistory : list Message) (s : Service) : Service :=
  let live :=
    match pendingUpdates s !! workflowId with
    | Some t => List.filter (fun x => negb (Nat.eqb (sch_timer x) t)) (scheduled s)
    | None => scheduled s
    end in
  {| pendingUpdates := <[ workflowId := nextTimeout s ]> (pendingUpdates s);
     scheduled := live ++ [ {| sch_timer := nextTimeout s; sch_due := now + 1000;
                               sch_workflowId := workflowId;
                               sch_chatHistory := chatHistory |} ];
     nextTimeout := S (nextTimeout s);
     settled := settled s;
     puts := puts s |}.

(** The timeout callback, run in one piece: the body, the resolution of
    the promise and the [finally].  [server] gives what [getWorkflow]
    returns and what the [PUT] would come to for this call. *)
Definition timeoutCallback (server : Scheduled -> option StoredWorkflow * PutResponse)
    (x : Scheduled) (s : Service) : Service :=
  let result :=
    Builder.updateWorkflowChatHistory (fst (server x)) (snd (server x)) (sch_chatHistory x) in
  {| pendingUpdates := delete (sch_workflowId x) (pendingUpdates s);
     scheduled := scheduled s;
     nextTimeout := nextTimeout s;
     settled := settled s ++ [(sch_timer x, fst result)];
     puts := puts s ++ match snd result with
                       | Some request => [(sch_workflowId x, request)]
                       | None => []
                       end |}.

(** Time reaches [now]: the timeouts that are due run, oldest first. *)
Definition elapse (server : Scheduled -> option StoredWorkflow * PutResponse) (now : Z)
    (s : Service) : Service :=
  let dues := List.filter (fun x => sch_due x <=? now) (scheduled s) in
  let rest := List.filter (fun x => negb (sch_due x <=? now)) (scheduled s) in
  fold_left (fun acc x => timeoutCallback server x acc) dues
    {| pendingUpdates := pendingUpdates s; scheduled := rest;
       nextTimeout := nextTimeout s; settled := settled s; puts := puts s |}.

Inductive Event : Type :=
| Call (now : Z) (workflowId : jsstring) (chatHistory : list Message)
| Elapse (now : Z).

(** One event; timeouts due by the time of a call run before it. *)
Definition step (server : Scheduled -> option StoredWorkflow * PutResponse) (s : Service)
    (e : Event) : Service :=
  match e with
  | Call now workflowId chatHistory =>
      updateWorkflowChatHistory now workflowId chatHistory (elapse server now s)
  | Elapse now => elapse server now s
  end.

Definition run (server : Scheduled -> option StoredWorkflow * PutResponse) (s : Service)
    (events : list Event) : Service :=
  fold_left (step server) events s.

(** The promise [n] can no longer be resolved: its timeout is gone, and
    no later timeout gets its id. *)
Definition dropped (n : nat) (s : Service) : Prop :=
  Forall (fun x => sch_timer x <> n) (scheduled s)
  /\ (n < nextTimeout s)%nat
  /\ ~ In n (map fst (settled s)).

End Storage.

(** ** [AIService.generateWorkflowJson] *)

Module AIServiceJson.
Import AIService.

Section GenerateWorkflowJson.
Context `{JsEngine}.

(** The method after [generateResponse]: [response] is the content of
    the answer, or the message of the [Error] that the request threw.
    A [SyntaxError] is replaced; any other error is thrown again. *)
Definition generateWorkflowJson (response : jsstring + jsstring) : jsstring + jsstring :=
  match response with
  | inl message => inl message
  | inr content =>
      let workflowJson := trim content in
      (* Clean up the JSON *)
      let workflowJson := cleanJsonResponse workflowJson in
      (* Validate JSON structure *)
      match JSON_parse workflowJson with
      | None => inl (js "Generated workflow is not valid JSON. Please try again.")
      | Some parsed =>
          match Builder.getProp parsed "nodes" with
          | inl e => inl e
          | inr nodes =>
              if negb (match nodes with
                       | Some (JArray _) => true
                       | _ => false
                       end)
              then inl (js "Invalid workflow structure: missing nodes array")
              else
                match Builder.getProp parsed "connections" with
                | inl e => inl e
                | inr connections =>
                    if negb (match connections with
                             | Some (JObject _) | Some (JArray _) => true
                             | _ => false
                             end)
                    then inl (js "Invalid workflow structure: missing connections object")
                    else inr workflowJson
                end
          end
      end
  end.

End GenerateWorkflowJson.

End AIServiceJson.

(** ** The client of the chat route (src/lib/ai-service.ts) and
    [handleSendMessage] *)

Module Client.
Import Builder.

(** [aiService.generateResponse] after the [fetch]: the data of an
    answer that is ok, or the message of the [Error] thrown for one that
    is not. *)
Definition generateResponse (answer : Gateway.ErrorResponse + Gateway.AIResponse)
    : jsstring + Gateway.AIResponse :=
  match answer with
  | inl error_ =>
      let errorCode_ :=
        match Gateway.err_errorCode error_ with
        | Some (c :: code) => c :: code
        | _ => js "UNKNOWN"
        end in
      let userMessage :=
        match Gateway.error error_ with
        | c :: text => c :: text
        | [] => js "AI service request failed"
        end in
      inl (if bool_decide (errorCode_ = js "CONTEXT_LENGTH_EXCEEDED") then
             [9888%N; 65039%N]
             ++ js " Conversation is too long. The AI will now use a shorter context window to continue."
           else if bool_decide (errorCode_ = js "CREDITS_LOW") then
             [55357%N; 56499%N]
             ++ js " AI provider credits are low. Switching to backup provider..."
           else if bool_decide (errorCode_ = js "RATE_LIMIT") then
             [9201%N; 65039%N]
             ++ js " Rate limit reached. Switching to backup provider..."
           else if bool_decide (errorCode_ = js "ALL_PROVIDERS_FAILED") then
             [10060%N]
             ++ js " All AI providers are currently unavailable. Please try again in a few minutes."
           else if bool_decide (errorCode_ = js "NO_API_KEYS") then
             [55357%N; 56593%N]
             ++ js " No AI API keys configured. Please add them in Advanced Settings."
           else userMessage)
  | inr data => inr data
  end.

(** The state of the component that [handleSendMessage] reads or
    writes. *)
Record Chat : Type := {
  chat_messages : list Message;
  inputValue : jsstring;
  isLoading : bool;
  chat_error : jsstring;
  conversationState : option ConversationState;
  (** the last notification set, if any *)
  notification : option Notification;
  currentProvider : jsstring;
  chat_showGenerateButton : bool
}.

Section Send.
Context `{JsEngine}.

(** The messages sent with the request: the log of the closure, then
    the new message. *)
Definition aiMessages (messages_ : list Message) (content_ : jsstring)
    : list Gateway.AIMessage :=
  map (fun msg => {| Gateway.role := match sender msg with
                                     | user => Gateway.user
                                     | ai => Gateway.assistant
                                     end;
                     Gateway.content := content msg |})
      messages_
  ++ [ {| Gateway.role := Gateway.user; Gateway.content := content_ |} ].

(** [messages[messages.length - 2]], on the log of the closure. *)
Definition secondToLast (messages_ : list Message) : option Message :=
  if (1 <? length messages_)%nat then messages_ !! (length messages_ - 2)%nat else None.

(** The detection that shows or hides the generate button. *)
Definition generateButton (messages_ : list Message) (response : Gateway.AIResponse) : bool :=
  let responseContent := toLowerCase (Gateway.res_content response) in
  let hasWorkflowSummary :=
    includes responseContent (js "workflow summary")
    || includes responseContent (js "here's the n8n workflow")
    || includes responseContent (js "final summary")
    || includes responseContent (js "summary of your workflow")
    || includes responseContent (js "workflow will scan")
    || includes responseContent (js "workflow that") in
  let hasComponents :=
    includes responseContent (js "n8n components")
    || includes responseContent (js "key components")
    || includes responseContent (js "**key components")
    || includes responseContent (js "components:**")
    || includes responseContent (js "trigger**")
    || includes responseContent (js "processing**")
    || includes responseContent (js "output**") in
  let hasConfirmation :=
    includes responseContent (js "does this capture")
    || includes responseContent (js "anything else")
    || includes responseContent (js "ready to generate")
    || includes responseContent (js "click the generate workflow button")
    || includes responseContent (js "you can now click")
    || includes responseContent (js "proceed with generating") in
  let hasGenerateInstruction :=
    includes responseContent (js "[generate workflow]")
    || includes responseContent (js "click on the button below")
    || includes responseContent (js "click the button")
    || includes responseContent (js "generate your workflow")
    || includes responseContent (js "create your n8n workflow")
    || includes responseContent (js "let's create your n8n workflow")
    || includes responseContent (js "click the generate workflow button") in
  (* Check conversation state completeness *)
  let userConfirmedInPreviousMessage :=
    match secondToLast messages_ with
    | Some previous =>
        match sender previous with
        | user =>
            includes (toLowerCase (content previous)) (js "yes")
            || includes (toLowerCase (content previous)) (js "looks good")
            || includes (toLowerCase (content previous)) (js "that's correct")
            || includes (toLowerCase (content previous)) (js "let's generate")
            || includes (toLowerCase (content previous)) (js "looks great")
        | ai => false
        end
    | None => false
    end in
  let isReady :=
    match Gateway.conversationState response with
    | None => true
    | Some state => number_ge (completeness state) 70
    end
    || userConfirmedInPreviousMessage in
  hasGenerateInstruction
  || ((hasWorkflowSummary || hasComponents)
      && (hasConfirmation || userConfirmedInPreviousMessage) && isReady).

(** [handleSendMessage], from the click to the end of its [finally].
    [now] is [Date.now()] when the message is sent and [later] when the
    request has settled; [request] gives what
    [aiService.generateResponse] comes to for the messages and the state
    it is called with. *)
Definition handleSendMessage (now later : Z)
    (request : list Gateway.AIMessage -> option ConversationState ->
               jsstring + Gateway.AIResponse)
    (c : Chat) : Chat :=
  if negb (truthyString (Some (trim (inputValue c)))) || isLoading c then c
  else
    let userMessage :=
      {| id := toString now; content := trim (inputValue c); sender := user;
         timestamp := now; provider := None; error := false |} in
    match request (aiMessages (chat_messages c) (content userMessage)) (conversationState c) with
    | inr response =>
        let aiMessage :=
          {| id := toString (later + 1); content := Gateway.res_content response;
             sender := ai; timestamp := later;
             provider := Some (Gateway.res_provider response); error := false |} in
        {| chat_messages := chat_messages c ++ [userMessage; aiMessage];
           inputValue := [];
           isLoading := false;
           chat_error := [];
           conversationState :=
             match Gateway.conversationState response with
             | Some state => Some state
             | None => conversationState c
             end;
           notification :=
             match fallbackNotification response with
             | Some n => Some n
             | None => notification c
             end;
           currentProvider := Gateway.res_provider response;
           chat_showGenerateButton := generateButton (chat_messages c) response |}
    | inl errorMessage =>
        let aiMessage :=
          {| id := toString (later + 1);
             content := js "I apologize, but I'm having trouble connecting to the AI service right now. "
                        ++ errorMessage ++ js ". Please try again in a moment.";
             sender := ai; timestamp := later; provider := None; error := true |} in
        {| chat_messages := chat_messages c ++ [userMessage; aiMessage];
           inputValue := [];
           isLoading := false;
           chat_error := errorMessage;
           conversationState := conversationState c;
           notification := notification c;
           currentProvider := currentProvider c;
           chat_showGenerateButton := chat_showGenerateButton c |}
    end.

(** A turn against the chat route: the request of the client is the
    route's [POST] on the module state [st0] at time [at_], with the keys
    the database gives. *)
Definition turn (generateSystemPrompt : ConversationState -> jsstring)
    (w : Gateway.Providers) (at_ : Z) (st0 : Gateway.ServerState)
    (apiKeyError : bool) (apiKeys : option (list Gateway.ApiKey))
    (now later : Z) (c : Chat) : Chat :=
  handleSendMessage now later
    (fun messages_ state =>
       generateResponse
         (snd (Gateway.POST generateSystemPrompt w at_ st0 apiKeyError apiKeys
                 messages_ state)))
    c.

End Send.

End Client.

(** ** Notions used to state the further properties *)

(** The calls to the storage service among the effects. *)
Definition isStorageWrite (e : Builder.Effect) : bool :=
  match e with
  | Builder.updateWorkflowJsonAndStatus _ _ _ => true
  | _ => false
  end.

(** Number of mutations among the events. *)
Definition mutations (events : list Builder.Event) : nat :=
  length (List.filter (fun e => match e with Builder.Mutation _ _ => true | _ => false end)
            events).

(** ** Concrete inputs for the further examples *)

(** A state as a client may send it: no requirement at all. *)
Definition noRequirements : ConversationState :=
  {| phase := validation; requirements := []; completeness := Num 95;
     currentFocus := None |}.

(** OpenAI answers that the conversation is too long; Claude answers. *)
Definition contextTooLong : Gateway.Providers :=
  {| Gateway.callOpenAI := fun _ _ =>
       Transport.callOpenAI_notOk 400
         (jsq "{'error':{'message':'too many tokens','type':'invalid_request_error','code':'context_length_exceeded'}}");
     Gateway.callClaude := fun _ _ => Gateway.Returned (js "Which event starts it?") |}.

(** OpenAI is out of quota; Claude answers. *)
Definition quotaBody : jsstring :=
  jsq "{'error':{'message':'You exceeded your current quota','type':'insufficient_quota','code':'insufficient_quota'}}".

Definition outOfQuota : Gateway.Providers :=
  {| Gateway.callOpenAI := fun _ _ => Transport.callOpenAI_notOk 429 quotaBody;
     Gateway.callClaude := fun _ _ => Gateway.Returned (js "Which event starts it?") |}.

(** OpenAI rejects the key; Claude would answer. *)
Definition badKey : Gateway.Providers :=
  {| Gateway.callOpenAI := fun _ _ =>
       Transport.callOpenAI_notOk 401
         (jsq "{'error':{'message':'Incorrect API key provided','type':'invalid_request_error','code':'invalid_api_key'}}");
     Gateway.callClaude := fun _ _ => Gateway.Returned (js "Which event starts it?") |}.

(** OpenAI is down with a page that is not JSON; Claude answers. *)
Definition gatewayDown : Gateway.Providers :=
  {| Gateway.callOpenAI := fun _ _ =>
       Transport.callOpenAI_notOk 503 (js "<html>Service Unavailable</html>");
     Gateway.callClaude := fun _ _ => Gateway.Returned (js "Which event starts it?") |}.

(** The module state after OpenAI was recorded as failed at time 0. *)
Definition suppressedServer : Gateway.ServerState :=
  {| Gateway.failedProviders := {[ js "openai" ]}; Gateway.sessionStartTime := 0 |}.

(** A server that has the workflow with an empty history and accepts
    every write, answering with a JSON body. *)
Definition acceptingServer (x : Storage.Scheduled)
    : option Builder.StoredWorkflow * Builder.PutResponse :=
  (Some {| Builder.chat_history := []; Builder.version := Some 1 |},
   Builder.PutAnswered 200 (Some (jsq "{'success':true}"))).

(** The component after the greeting, with a request typed. *)
Definition exampleChat : Client.Chat :=
  {| Client.chat_messages := [exampleMessage 0 Builder.ai "Hi!"];
     Client.inputValue := js "  build me a daily report  ";
     Client.isLoading := false;
     Client.chat_error := [];
     Client.conversationState := None;
     Client.notification := None;
     Client.currentProvider := [];
     Client.chat_showGenerateButton := false |}.

(** Only OpenAI is configured. *)
Definition openaiOnly : list Gateway.ApiKey :=
  [ {| Gateway.provider := js "OpenAI"; Gateway.encrypted_key := js "key-1" |} ].

(** The first request of a session against each transport. *)
Definition contextCall : Gateway.ServerState * (Gateway.ErrorResponse + Gateway.AIResponse) :=
  @Gateway.POST exampleEngine examplePrompt contextTooLong 1000 freshServer false
    (Some exampleKeys) exampleMessages None.

Definition badKeyCall : Gateway.ServerState * (Gateway.ErrorResponse + Gateway.AIResponse) :=
  @Gateway.POST exampleEngine examplePrompt badKey 1000 freshServer false
    (Some exampleKeys) exampleMessages None.

(* ===================================================================== *)
(** * Part II. Properties                                                 *)
(* ===================================================================== *)

(** Case analysis on every conditional of the goal. *)
Ltac case_ifs :=
  repeat match goal with
         | |- context [if ?c then _ else _] => destruct c
         end.

(** ** Arithmetic of the completeness score *)

Lemma roundedPercent_formula (a n : nat) :
  (0 < n)%nat ->
  roundedPercent a n = Num ((200 * Z.of_nat a + Z.of_nat n) / (2 * Z.of_nat n)).
Proof.
  intros Hn. unfold roundedPercent.
  destruct (Nat.eqb_spec n 0) as [->|_]; [lia|].
  f_equal. unfold Math_round, Qfloor.
  destruct (Z.of_nat n) as [|p|p] eqn:E; try lia.
  cbn. f_equal; lia.
Qed.

Lemma coreReached_formula (ca ct : nat) :
  coreReached ca ct = (4 * Z.of_nat ct <=? 5 * Z.of_nat ca).
Proof.
  unfold coreReached, Qle_bool. cbn.
  apply eq_true_iff_eq. rewrite !Z.leb_le. lia.
Qed.

Lemma forallb_seq_le (p : nat -> bool) (k : nat) :
  forallb p (seq 0 (S k)) = true -> forall i, (i <= k)%nat -> p i = true.
Proof.
  intros Hall i Hi. rewrite forallb_forall in Hall.
  apply Hall, in_seq. lia.
Qed.

Lemma number_eqb_eq (x y : number) : number_eqb x y = true -> x = y.
Proof.
  destruct x, y; cbn; try discriminate; try reflexivity.
  intros E. apply Z.eqb_eq in E. now subst.
Qed.

(** The double-precision evaluation of the two expressions gives the
    values of the exact one for every list of at most 39 requirements. *)
Lemma b64_counts_agree (a n : nat) :
  (a <= n)%nat -> (n <= 39)%nat ->
  b64_baseCompleteness a n = roundedPercent a n
  /\ b64_coreReached a n = coreReached a n.
Proof.
  intros Ha Hn.
  assert (Hall : b64_agrees_upto 39 = true) by (vm_compute; reflexivity).
  unfold b64_agrees_upto in Hall.
  pose proof (forallb_seq_le _ _ Hall n Hn) as Hrow. cbv beta in Hrow.
  pose proof (forallb_seq_le _ _ Hrow a Ha) as Hcell. cbv beta in Hcell.
  apply andb_true_iff in Hcell as [E1 E2].
  split; [now apply number_eqb_eq | now apply Bool.eqb_prop].
Qed.

Lemma filter_length_le {A : Type} (p : A -> bool) (l : list A) :
  (length (List.filter p l) <= length l)%nat.
Proof. induction l as [|x l IH]; cbn; [lia|]. destruct (p x); cbn; lia. Qed.

Lemma b64_calculateCompleteness_agrees (requirements_ : list WorkflowRequirement) :
  (length requirements_ <= 39)%nat ->
  b64_calculateCompleteness requirements_ = calculateCompleteness requirements_.
Proof.
  intros Hlen. unfold b64_calculateCompleteness, calculateCompleteness. cbv zeta.
  set (core := List.filter _ requirements_).
  assert (Hcore : (length core <= length requirements_)%nat) by apply filter_length_le.
  destruct (b64_counts_agree (length (List.filter (fun r => answered r) requirements_))
              (length requirements_)) as [-> _];
    [apply filter_length_le | lia |].
  destruct (b64_counts_agree (length (List.filter (fun r => answered r) core))
              (length core)) as [_ ->];
    [apply filter_length_le | lia |].
  reflexivity.
Qed.

(** Beyond that size the two evaluations can differ by one: for 23
    answered out of 40 the product is just below 57.5 in doubles. *)
Example b64_differs_at_40 :
  b64_baseCompleteness 23 40 = Num 57 /\ roundedPercent 23 40 = Num 58.
Proof. split; vm_compute; reflexivity. Qed.

(** ** Requirement tracker *)

Section TrackerFacts.
Context `{JsEngine}.

Lemma analyze_grows (requirements_ : list WorkflowRequirement) (m a : jsstring) :
  Forall2 grows requirements_ (analyzeAndUpdateRequirements requirements_ m a).
Proof.
  unfold analyzeAndUpdateRequirements.
  induction requirements_ as [|r l IH]; cbn [map]; constructor; [|exact IH].
  unfold grows. destruct (answered r) eqn:E; cbn; rewrite ?E; auto.
  repeat split; auto. discriminate.
Qed.

Lemma analyze_length (requirements_ : list WorkflowRequirement) (m a : jsstring) :
  length (analyzeAndUpdateRequirements requirements_ m a) = length requirements_.
Proof. unfold analyzeAndUpdateRequirements. apply length_map. Qed.

Lemma grows_counts (l l' : list WorkflowRequirement) :
  Forall2 grows l l' ->
  length l' = length l
  /\ (count answered l <= count answered l')%nat
  /\ count isHigh l' = count isHigh l
  /\ (count answered (List.filter isHigh l) <= count answered (List.filter isHigh l'))%nat.
Proof.
  unfold count. induction 1 as [|r r' l l' (Hp & _ & Ha) _ IH]; cbn; [lia|].
  destruct IH as (IH1 & IH2 & IH3 & IH4).
  assert (Hh : isHigh r' = isHigh r) by (unfold isHigh; now rewrite Hp).
  rewrite Hh.
  destruct (isHigh r), (answered r) eqn:Er, (answered r') eqn:Er'; cbn;
    rewrite ?Er, ?Er'; cbn; try lia;
    specialize (Ha eq_refl); discriminate.
Qed.

Lemma calculateCompleteness_value (l : list WorkflowRequirement) :
  l <> [] ->
  calculateCompleteness l =
  Num (let base := (200 * Z.of_nat (count answered l) + Z.of_nat (length l))
                   / (2 * Z.of_nat (length l)) in
       if 4 * Z.of_nat (count isHigh l)
          <=? 5 * Z.of_nat (count answered (List.filter isHigh l))
       then Z.max base 80 else base).
Proof.
  intros Hne. unfold calculateCompleteness. cbv zeta.
  rewrite coreReached_formula, roundedPercent_formula
    by (destruct l; [congruence | cbn; lia]).
  fold isHigh. unfold count.
  destruct (_ <=? _); reflexivity.
Qed.

Lemma percent_bounds (a n : Z) :
  0 <= a <= n -> 0 < n -> 0 <= (200 * a + n) / (2 * n) <= 100.
Proof.
  intros Ha Hn. split.
  - apply Z.div_pos; lia.
  - enough ((200 * a + n) / (2 * n) < 101) by lia.
    apply Z.div_lt_upper_bound; lia.
Qed.

Lemma calculateCompleteness_range (l : list WorkflowRequirement) :
  l <> [] -> exists z, calculateCompleteness l = Num z /\ 0 <= z <= 100.
Proof.
  intros Hne. rewrite calculateCompleteness_value by assumption. cbv zeta.
  eexists; split; [reflexivity|].
  assert (Hb := percent_bounds (Z.of_nat (count answered l)) (Z.of_nat (length l))).
  assert (count answered l <= length l)%nat by apply filter_length_le.
  assert (0 < length l)%nat by (destruct l; [congruence | cbn; lia]).
  destruct (_ <=? _); lia.
Qed.

Lemma calculateCompleteness_mono (l l' : list WorkflowRequirement) :
  l <> [] -> Forall2 grows l l' ->
  exists z z', calculateCompleteness l = Num z
               /\ calculateCompleteness l' = Num z' /\ z <= z'.
Proof.
  intros Hne HF.
  assert (Hne' : l' <> []) by (inversion HF; subst; congruence).
  destruct (grows_counts _ _ HF) as (Hlen & Ha & Hh & Hc).
  rewrite !calculateCompleteness_value by assumption. cbv zeta.
  do 2 eexists; split; [reflexivity | split; [reflexivity|]].
  rewrite Hlen, Hh.
  assert (0 < length l)%nat by (destruct l; [congruence | cbn; lia]).
  assert (Hdiv : (200 * Z.of_nat (count answered l) + Z.of_nat (length l))
                 / (2 * Z.of_nat (length l))
                 <= (200 * Z.of_nat (count answered l') + Z.of_nat (length l))
                    / (2 * Z.of_nat (length l)))
    by (apply Z.div_le_mono; lia).
  repeat match goal with |- context [?x <=? ?y] => destruct (Z.leb_spec x y) end; lia.
Qed.


Lemma filter_filter_and {A : Type} (p q : A -> bool) (l : list A) :
  List.filter q (List.filter p l) = List.filter (fun x => p x && q x) l.
Proof.
  induction l as [|x l IH]; cbn; [reflexivity|].
  destruct (p x); cbn; [destruct (q x)|]; now rewrite IH.
Qed.

Lemma rounds_percent_div (a n : Z) :
  0 < n -> rounds_percent a n ((200 * a + n) / (2 * n)).
Proof.
  intros Hn. unfold rounds_percent.
  pose proof (Z.mul_div_le (200 * a + n) (2 * n)).
  pose proof (Z.mul_succ_div_gt (200 * a + n) (2 * n)).
  lia.
Qed.

Lemma filter_agree {A : Type} (p q : A -> bool) (l : list A) :
  (forall x, In x l -> p x = q x) -> List.filter p l = List.filter q l.
Proof.
  induction l as [|x l IH]; cbn; intros Hpq; [reflexivity|].
  rewrite (Hpq x) by now left. rewrite IH by (intros; apply Hpq; now right).
  reflexivity.
Qed.

Lemma filter_idem_with {A : Type} (p : A -> bool) (l : list A) :
  List.filter p (List.filter p l) = List.filter p l.
Proof.
  rewrite filter_filter_and. apply filter_agree. intros x _. now destruct (p x).
Qed.

(** C3. The completeness that the tracker computes, the quotient, the
    products and the comparison taken in doubles as the engine takes
    them.  For the empty list it is NaN.  For a list of 1 to 39
    requirements (the tracker builds 6 to 8) it is 100 times the answered
    share rounded to the nearest integer, and the larger of that and 80
    when at least 80% of the high-priority requirements are answered;
    with three high-priority requirements all answered and three others
    all unanswered it is 80.  On these lists the exact evaluation
    [calculateCompleteness] gives the same value. *)
Theorem completeness_formula (requirements_ : list WorkflowRequirement) :
  (length requirements_ <= 39)%nat ->
  (requirements_ = [] -> b64_calculateCompleteness requirements_ = NaN)
  /\ (requirements_ <> [] ->
      exists c : Z,
        b64_calculateCompleteness requirements_ = Num c
        /\ calculateCompleteness requirements_ = Num c
        /\ spec_completeness requirements_ c
        /\ (count isHigh requirements_ = 3%nat ->
            length requirements_ = 6%nat ->
            (forall r, In r requirements_ -> answered r = isHigh r) ->
            c = 80)).
Proof.
  intros Hlen. split; [intros ->; vm_compute; reflexivity|]. intros Hne.
  rewrite (b64_calculateCompleteness_agrees requirements_ Hlen).
  rewrite calculateCompleteness_value by assumption. cbv zeta.
  assert (Hpos : 0 < Z.of_nat (length requirements_))
    by (destruct requirements_; [congruence | cbn; lia]).
  eexists; split; [reflexivity|]. split; [reflexivity|]. split.
  - exists ((200 * Z.of_nat (count answered requirements_) + Z.of_nat (length requirements_))
            / (2 * Z.of_nat (length requirements_))).
    split; [now apply rounds_percent_div|].
    assert (Hcc : count answered (List.filter isHigh requirements_)
                  = count (fun x => isHigh x && answered x) requirements_)
      by (unfold count; now rewrite filter_filter_and).
    rewrite Hcc.
    repeat match goal with |- context [?x <=? ?y] => destruct (Z.leb_spec x y) end;
      try reflexivity; lia.
  - intros Hhigh Hlen6 Hall.
    assert (Ha : count answered requirements_ = 3%nat).
    { unfold count. rewrite (filter_agree answered isHigh) by assumption. exact Hhigh. }
    assert (Hc : count answered (List.filter isHigh requirements_) = 3%nat).
    { unfold count.
      rewrite (filter_agree answered isHigh)
        by (intros x Hx; apply Hall; apply filter_In in Hx; tauto).
      rewrite filter_idem_with. exact Hhigh. }
    rewrite Ha, Hc, Hhigh, Hlen6. reflexivity.
Qed.

Lemma phase_update (s : ConversationState) (m a : jsstring) :
  phase (updateConversationState s m a) =
  if number_ge (completeness (updateConversationState s m a)) 80
     && Phase_eqb (phase s) discovery
  then validation
  else if number_ge (completeness (updateConversationState s m a)) 90
          && Phase_eqb (phase s) validation
  then generation
  else phase s.
Proof. reflexivity. Qed.

Lemma phase_update_cases (s : ConversationState) (m a : jsstring) :
  let s' := updateConversationState s m a in
  phase s' = phase s
  \/ (phase s = discovery /\ phase s' = validation
      /\ number_ge (completeness s') 80 = true)
  \/ (phase s = validation /\ phase s' = generation
      /\ number_ge (completeness s') 90 = true).
Proof.
  cbv zeta. rewrite phase_update.
  destruct (number_ge _ 80) eqn:E80, (number_ge _ 90) eqn:E90, (phase s); cbn; auto.
Qed.

Lemma phase_update_rank (s : ConversationState) (m a : jsstring) :
  (Phase_rank (phase s) <= Phase_rank (phase (updateConversationState s m a))
   <= S (Phase_rank (phase s)))%nat.
Proof.
  destruct (phase_update_cases s m a) as [-> | [(-> & -> & _) | (-> & -> & _)]];
    cbn; lia.
Qed.

Lemma runUpdates_cons (s : ConversationState) (u : jsstring * jsstring)
    (turns : list (jsstring * jsstring)) :
  runUpdates s (u :: turns) = runUpdates (updateConversationState s (fst u) (snd u)) turns.
Proof. reflexivity. Qed.

Lemma runUpdates_rank (turns : list (jsstring * jsstring)) (s : ConversationState) :
  (Phase_rank (phase s) <= Phase_rank (phase (runUpdates s turns)))%nat.
Proof.
  revert s. induction turns as [|u turns IH]; intros s; [cbn; lia|].
  rewrite runUpdates_cons. specialize (IH (updateConversationState s (fst u) (snd u))).
  pose proof (phase_update_rank s (fst u) (snd u)). lia.
Qed.

(** C4. An update changes the phase only from discovery to validation,
    when the new completeness is at least 80, or from validation to
    generation, when it is at least 90, and does so whenever the
    threshold is met; over any sequence of updates the phase never moves
    backward, so only the fresh state built after a reset is in discovery
    again. *)
Theorem phase_progression (s : ConversationState) (m a : jsstring) :
  let s' := updateConversationState s m a in
  (phase s' = phase s
   \/ (phase s = discovery /\ phase s' = validation
       /\ number_ge (completeness s') 80 = true)
   \/ (phase s = validation /\ phase s' = generation
       /\ number_ge (completeness s') 90 = true))
  /\ (phase s = discovery -> number_ge (completeness s') 80 = true -> phase s' = validation)
  /\ (phase s = validation -> number_ge (completeness s') 90 = true -> phase s' = generation)
  /\ (forall turns,
        (Phase_rank (phase s) <= Phase_rank (phase (runUpdates s turns)))%nat)
  /\ (forall turns, phase (runUpdates s turns) = discovery -> phase s = discovery)
  /\ (forall userMessage, phase (initialState userMessage) = discovery).
Proof.
  cbv zeta. split; [apply phase_update_cases|].
  split; [intros Hp Hc; rewrite phase_update, Hc, Hp; reflexivity|].
  split; [intros Hp Hc; rewrite phase_update, Hc, Hp;
          destruct (number_ge _ 80); reflexivity|].
  split; [intros turns; apply runUpdates_rank|].
  split; [|reflexivity].
  intros turns Hd. pose proof (runUpdates_rank turns s) as Hr. rewrite Hd in Hr.
  destruct (phase s); cbn in Hr; try lia; reflexivity.
Qed.

End TrackerFacts.

Section TrackerSessions.
Context `{JsEngine}.

Lemma initializeRequirements_nonempty (userMessage : jsstring) :
  initializeRequirements userMessage <> [].
Proof.
  unfold initializeRequirements, customizeRequirements, baseRequirements.
  case_ifs; discriminate.
Qed.

Lemma analyze_nonempty (l : list WorkflowRequirement) (m a : jsstring) :
  l <> [] -> analyzeAndUpdateRequirements l m a <> [].
Proof.
  intros Hne E. apply (f_equal length) in E. rewrite analyze_length in E.
  destruct l; [congruence | discriminate].
Qed.

Lemma initializeRequirements_length (userMessage : jsstring) :
  (6 <= length (initializeRequirements userMessage) <= 8)%nat.
Proof.
  unfold initializeRequirements, customizeRequirements.
  case_ifs; vm_compute; lia.
Qed.

(** A session has the six to eight requirements it started with. *)
Lemma reachable_length (s : ConversationState) :
  reachable s -> (6 <= length (requirements s) <= 8)%nat.
Proof.
  induction 1 as [userMessage | s m a _ IH].
  - apply initializeRequirements_length.
  - cbn [requirements updateConversationState]. now rewrite analyze_length.
Qed.

(** What holds of every state of a session. *)
Lemma reachable_invariant (s : ConversationState) :
  reachable s ->
  requirements s <> []
  /\ exists z, completeness s = Num z /\ 0 <= z <= 100
               /\ (z = 0 \/ completeness s = calculateCompleteness (requirements s)).
Proof.
  induction 1 as [userMessage | s m a _ (Hne & _)].
  - split; [apply initializeRequirements_nonempty|].
    exists 0. cbn. repeat split; auto; lia.
  - split; [now apply analyze_nonempty|].
    destruct (calculateCompleteness_range (analyzeAndUpdateRequirements (requirements s) m a))
      as (z & Hz & Hr); [now apply analyze_nonempty|].
    exists z. cbn. repeat split; auto; lia.
Qed.

(** C5. In every state reachable from initialization, one more update
    does not lower completeness: both values are integers and the new one
    is at least the old one; the update keeps the length of the
    requirement list, and a requirement that was answered stays so.  The
    new value is also what the evaluation in doubles gives. *)
Theorem completeness_monotonic (s : ConversationState) (m a : jsstring) :
  reachable s ->
  let s' := updateConversationState s m a in
  (exists z z', completeness s = Num z /\ completeness s' = Num z' /\ z <= z')
  /\ length (requirements s') = length (requirements s)
  /\ Forall2 grows (requirements s) (requirements s')
  /\ b64_calculateCompleteness (requirements s') = completeness s'.
Proof.
  intros Hr. cbv zeta.
  destruct (reachable_invariant s Hr) as (Hne & z & Hz & Hrange & Hcase).
  split; [|split; [apply analyze_length | split; [apply analyze_grows|]]];
    [|apply b64_calculateCompleteness_agrees;
      pose proof (reachable_length _ (reachable_update s m a Hr)); lia].
  change (completeness (updateConversationState s m a))
    with (calculateCompleteness (analyzeAndUpdateRequirements (requirements s) m a)).
  destruct Hcase as [-> | Hcalc].
  - destruct (calculateCompleteness_range (analyzeAndUpdateRequirements (requirements s) m a))
      as (z' & Hz' & Hr'); [now apply analyze_nonempty|].
    exists 0, z'. repeat split; auto; lia.
  - destruct (calculateCompleteness_mono (requirements s)
                (analyzeAndUpdateRequirements (requirements s) m a) Hne (analyze_grows _ m a))
      as (y & y' & Hy & Hy' & Hle).
    exists y, y'. repeat split; auto. congruence.
Qed.

Lemma checkIfRequirementAnswered_category (r r' : WorkflowRequirement) (message : jsstring) :
  category r' = category r ->
  checkIfRequirementAnswered r' message = checkIfRequirementAnswered r message.
Proof. unfold checkIfRequirementAnswered. now intros ->. Qed.

Lemma analyze_idempotent (l : list WorkflowRequirement) (m a : jsstring) :
  analyzeAndUpdateRequirements (analyzeAndUpdateRequirements l m a) m a
  = analyzeAndUpdateRequirements l m a.
Proof.
  unfold analyzeAndUpdateRequirements. rewrite map_map. apply map_ext.
  intros r. destruct (answered r) eqn:E; [now rewrite E|].
  set (hit := checkIfRequirementAnswered r (toLowerCase m)
              || checkIfRequirementInResponse r (toLowerCase a)).
  cbn [answered category question answer priority].
  destruct hit eqn:Ea; [reflexivity|].
  rewrite (checkIfRequirementAnswered_category r) by reflexivity.
  change (checkIfRequirementInResponse _ (toLowerCase a))
    with (checkIfRequirementInResponse r (toLowerCase a)).
  fold hit. rewrite Ea. reflexivity.
Qed.

(** C6. A second update with the same message and reply changes neither
    completeness nor any answered flag: the requirement list it yields is
    the one the first update yielded. *)
Theorem update_idempotent (s : ConversationState) (m a : jsstring) :
  let s1 := updateConversationState s m a in
  let s2 := updateConversationState s1 m a in
  completeness s2 = completeness s1
  /\ map answered (requirements s2) = map answered (requirements s1)
  /\ requirements s2 = requirements s1.
Proof.
  cbv zeta.
  assert (E : requirements (updateConversationState (updateConversationState s m a) m a)
              = requirements (updateConversationState s m a))
    by apply analyze_idempotent.
  split; [|split; [now rewrite E | exact E]].
  change (calculateCompleteness
            (requirements (updateConversationState (updateConversationState s m a) m a))
          = calculateCompleteness (requirements (updateConversationState s m a))).
  now rewrite E.
Qed.

Lemma find_filter_head {A : Type} (p : A -> bool) (l : list A) :
  find p l = head (List.filter p l).
Proof.
  induction l as [|x l IH]; cbn; [reflexivity|]. destruct (p x); [reflexivity | exact IH].
Qed.

Lemma getCurrentFocus_spec (l : list WorkflowRequirement) :
  getCurrentFocus l = spec_currentFocus (js "Ready for generation") l.
Proof.
  unfold getCurrentFocus, spec_currentFocus. cbv zeta.
  rewrite !find_filter_head.
  assert (Euh : List.filter (fun r => Priority_eqb (priority r) high)
                  (List.filter (fun r => negb (answered r)) l)
                = List.filter (fun r => negb (answered r) && isHigh r) l)
    by apply filter_filter_and.
  rewrite Euh. clear Euh.
  assert (Hsub : forall x, In x (List.filter (fun r => negb (answered r) && isHigh r) l) ->
                           In x (List.filter (fun r => negb (answered r)) l)).
  { intros x Hx. apply filter_In in Hx as [Hx1 Hx2]. apply filter_In.
    split; [assumption|]. now apply andb_true_iff in Hx2. }
  remember (List.filter (fun r => negb (answered r)) l) as U eqn:EU.
  remember (List.filter (fun r => negb (answered r) && isHigh r) l) as UH eqn:EUH.
  destruct U as [|first rest], UH as [|h hs]; try reflexivity.
  destruct (Hsub h). now left.
Qed.

(** C9, as amended. After every update [currentFocus] is the category of
    the first unanswered high-priority requirement; when every
    high-priority requirement is answered, the category of the first
    unanswered requirement; and when every requirement is answered, the
    string "Ready for generation". *)
Theorem currentFocus_after_update (s : ConversationState) (m a : jsstring) :
  let s' := updateConversationState s m a in
  currentFocus s' = Some (spec_currentFocus (js "Ready for generation") (requirements s')).
Proof. cbv zeta. cbn [currentFocus updateConversationState requirements]. now rewrite getCurrentFocus_spec. Qed.

Lemma shouldGenerate_phase (s : ConversationState) :
  shouldGenerateWorkflow s = true ->
  phase s = generation /\ number_ge (completeness s) 80 = true.
Proof.
  unfold shouldGenerateWorkflow. intros E. apply andb_true_iff in E as [E1 E2].
  split; [destruct (phase s); cbn in E2; congruence | exact E1].
Qed.

Lemma generation_from_validation (turns : list (jsstring * jsstring)) (s : ConversationState) :
  phase s = validation ->
  phase (runUpdates s turns) = generation ->
  exists t1 u t2,
    turns = t1 ++ u :: t2
    /\ number_ge (completeness (runUpdates s (t1 ++ [u]))) 90 = true.
Proof.
  revert s. induction turns as [|u turns IH]; intros s Hv Hg.
  - cbn in Hg. congruence.
  - rewrite runUpdates_cons in Hg.
    destruct (phase_update_cases s (fst u) (snd u)) as [E | [(E & _) | (_ & _ & E)]].
    + destruct (IH _ (eq_trans E Hv) Hg) as (t1 & v & t2 & -> & Hc).
      exists (u :: t1), v, t2. split; [reflexivity|].
      now rewrite <- app_comm_cons, runUpdates_cons.
    + congruence.
    + exists [], u, turns. split; [reflexivity | exact E].
Qed.

Lemma generation_from_discovery (turns : list (jsstring * jsstring)) (s : ConversationState) :
  phase s = discovery ->
  phase (runUpdates s turns) = generation ->
  exists t1 u1 t2 u2 t3,
    turns = t1 ++ u1 :: t2 ++ u2 :: t3
    /\ number_ge (completeness (runUpdates s (t1 ++ [u1]))) 80 = true
    /\ number_ge (completeness (runUpdates s (t1 ++ u1 :: t2 ++ [u2]))) 90 = true.
Proof.
  revert s. induction turns as [|u turns IH]; intros s Hd Hg.
  - cbn in Hg. congruence.
  - rewrite runUpdates_cons in Hg.
    destruct (phase_update_cases s (fst u) (snd u)) as [E | [(_ & E & Hc) | (E & _)]].
    + destruct (IH _ (eq_trans E Hd) Hg) as (t1 & v1 & t2 & v2 & t3 & -> & H80 & H90).
      exists (u :: t1), v1, t2, v2, t3. split; [reflexivity|].
      now rewrite <- !app_comm_cons, !runUpdates_cons.
    + destruct (generation_from_validation turns _ E Hg) as (t2 & v2 & t3 & -> & H90).
      exists [], u, t2, v2, t3. split; [reflexivity|]. split; [exact Hc|].
      cbn [app]. now rewrite runUpdates_cons.
    + congruence.
Qed.

(** C10. One update advances the phase by at most one step: from
    discovery it reaches at most validation, whatever the new
    completeness, so [shouldGenerateWorkflow] is still false after it; and
    when a sequence of updates started in discovery ends with
    [shouldGenerateWorkflow] true, it contains two different updates, an
    earlier one whose completeness is at least 80 and a later one whose
    completeness is at least 90. *)
Theorem phase_one_step_per_update (s : ConversationState) (m a : jsstring) :
  (Phase_rank (phase (updateConversationState s m a)) <= S (Phase_rank (phase s)))%nat
  /\ (phase s = discovery ->
      phase (updateConversationState s m a) <> generation
      /\ shouldGenerateWorkflow (updateConversationState s m a) = false)
  /\ (forall turns,
        phase s = discovery ->
        shouldGenerateWorkflow (runUpdates s turns) = true ->
        exists t1 u1 t2 u2 t3,
          turns = t1 ++ u1 :: t2 ++ u2 :: t3
          /\ number_ge (completeness (runUpdates s (t1 ++ [u1]))) 80 = true
          /\ number_ge (completeness (runUpdates s (t1 ++ u1 :: t2 ++ [u2]))) 90 = true).
Proof.
  split; [apply phase_update_rank|]. split.
  - intros Hd.
    assert (Hne : phase (updateConversationState s m a) <> generation).
    { pose proof (phase_update_rank s m a) as Hr. intros E.
      rewrite E, Hd in Hr. cbn in Hr. lia. }
    split; [exact Hne|].
    destruct (shouldGenerateWorkflow _) eqn:E; [|reflexivity].
    apply shouldGenerate_phase in E as [E _]. contradiction.
  - intros turns Hd Hs. apply shouldGenerate_phase in Hs as [Hg _].
    now apply generation_from_discovery.
Qed.

End TrackerSessions.

(** ** Provider gateway *)

Section GatewayFacts.
Context `{JsEngine}.
Variable generateSystemPrompt : ConversationState -> jsstring.

Import Gateway.

Lemma has_add (name : jsstring) (st : ServerState) :
  has (failedProviders (add name st)) name = true.
Proof. unfold has, add. cbn. apply bool_decide_eq_true. set_solver. Qed.

Lemma findKey_nonempty (keys : list ApiKey) (name : string) (k : ApiKey) :
  findKey keys name = Some k -> exists k0 rest, keys = k0 :: rest.
Proof. destruct keys as [|k0 rest]; [discriminate | eauto]. Qed.

Lemma classify_rate_limit (cause : ErrorCause) (st : ServerState) :
  type cause = Some (js "rate_limit_error") ->
  code cause <> Some (js "context_length_exceeded") ->
  classify (Some cause) st
  = (js "OpenAI API rate limit exceeded", js "RATE_LIMIT", true, add (js "openai") st).
Proof.
  intros Ht Hc. unfold classify, eqs.
  rewrite (bool_decide_eq_false_2 _ Hc), Ht.
  rewrite bool_decide_eq_false_2 by (intros E; vm_compute in E; discriminate).
  rewrite bool_decide_eq_true_2 by reflexivity.
  reflexivity.
Qed.

(** The first fallback on a rate limit: the answer comes from the
    secondary provider, is tagged, and the primary is recorded as failed;
    but [showNotification] is computed after the primary was recorded, so
    it is [false] and the client sets no notification. *)
Lemma rate_limit_fallback (w : Providers) (now : Z) (st0 : ServerState)
    (keys : list ApiKey) (messages : list AIMessage) (cs : option ConversationState)
    (okey ckey : ApiKey) (errorMessage text : jsstring) (cause : ErrorCause) :
  findKey keys "openai" = Some okey ->
  findKey keys "claude" = Some ckey ->
  has (failedProviders (resetSessionIfNeeded now st0)) (js "openai") = false ->
  (forall ms, callOpenAI w (encrypted_key okey) ms = Threw errorMessage (Some cause)) ->
  type cause = Some (js "rate_limit_error") ->
  code cause <> Some (js "context_length_exceeded") ->
  (forall ms, callClaude w (encrypted_key ckey) ms = Returned text) ->
  exists st' r,
    POST generateSystemPrompt w now st0 false (Some keys) messages cs = (st', inr r)
    /\ res_provider r = js "claude"
    /\ fallback r = true
    /\ errorCode r = Some (js "RATE_LIMIT")
    /\ js "openai" ∈ failedProviders st'
    /\ silentFallback r = false
    /\ showNotification r = Some false
    /\ Builder.fallbackNotification r = None.
Proof.
  intros Ho Hc Hhas Hopen Ht Hcode Hclaude.
  destruct (findKey_nonempty _ _ _ Ho) as (k0 & rest & ->).
  unfold POST. cbv zeta. rewrite Ho, Hc, Hhas, Hopen.
  rewrite (classify_rate_limit _ _ Ht Hcode).
  rewrite !orb_true_r, Hclaude, has_add.
  do 2 eexists. split; [reflexivity|].
  repeat split; try reflexivity.
  unfold add. cbn. set_solver.
Qed.

(** The sibling branch: a context-length failure does not record the
    primary, so [showNotification] is [true] and the client sets a
    notification. *)
Lemma context_length_fallback_notifies (w : Providers) (now : Z) (st0 : ServerState)
    (keys : list ApiKey) (messages : list AIMessage) (cs : option ConversationState)
    (okey ckey : ApiKey) (errorMessage text : jsstring) (cause : ErrorCause) :
  findKey keys "openai" = Some okey ->
  findKey keys "claude" = Some ckey ->
  has (failedProviders (resetSessionIfNeeded now st0)) (js "openai") = false ->
  (forall ms, callOpenAI w (encrypted_key okey) ms = Threw errorMessage (Some cause)) ->
  code cause = Some (js "context_length_exceeded") ->
  (forall ms, callClaude w (encrypted_key ckey) ms = Returned text) ->
  exists r,
    POST generateSystemPrompt w now st0 false (Some keys) messages cs
    = (resetSessionIfNeeded now st0, inr r)
    /\ fallback r = true
    /\ errorCode r = Some (js "CONTEXT_LENGTH_EXCEEDED")
    /\ showNotification r = Some true
    /\ exists n, Builder.fallbackNotification r = Some n.
Proof.
  intros Ho Hc Hhas Hopen Hcode Hclaude.
  destruct (findKey_nonempty _ _ _ Ho) as (k0 & rest & ->).
  unfold POST. cbv zeta. rewrite Ho, Hc, Hhas, Hopen.
  unfold classify, eqs. rewrite Hcode, bool_decide_eq_true_2 by reflexivity.
  rewrite !orb_true_r, Hclaude, Hhas.
  eexists. split; [reflexivity|]. repeat split; try reflexivity.
  eexists. vm_compute. reflexivity.
Qed.

(** A later call while the primary is still recorded: the secondary
    answers, the response is marked silent and sets no notification. *)
Lemma suppressed_call (w : Providers) (now : Z) (st0 : ServerState)
    (keys : list ApiKey) (messages : list AIMessage) (cs : option ConversationState)
    (ckey : ApiKey) (text : jsstring) :
  js "openai" ∈ failedProviders st0 ->
  now - sessionStartTime st0 <= SESSION_RESET_INTERVAL ->
  findKey keys "claude" = Some ckey ->
  (forall ms, callClaude w (encrypted_key ckey) ms = Returned text) ->
  exists r,
    POST generateSystemPrompt w now st0 false (Some keys) messages cs = (st0, inr r)
    /\ res_provider r = js "claude"
    /\ silentFallback r = true
    /\ fallback r = false
    /\ Builder.fallbackNotification r = None.
Proof.
  intros Hin Hwin Hc Hclaude.
  destruct (findKey_nonempty _ _ _ Hc) as (k0 & rest & ->).
  assert (Hst : resetSessionIfNeeded now st0 = st0).
  { unfold resetSessionIfNeeded. destruct (Z.ltb_spec SESSION_RESET_INTERVAL (now - sessionStartTime st0)); [lia | reflexivity]. }
  assert (Hhas : has (failedProviders st0) (js "openai") = true)
    by (now apply bool_decide_eq_true).
  unfold POST. cbv zeta. rewrite Hst, Hc, Hhas, Hclaude.
  eexists. split; [reflexivity|]. repeat split; reflexivity.
Qed.

End GatewayFacts.

(** ** Artifact generation and validation *)

Section GenerateFacts.
Context `{JsEngine}.

Import Builder.

Lemma nodeInvalid_throws (node : json) (e : jsstring) :
  nodeInvalid node = inl e -> node = JNull.
Proof.
  unfold nodeInvalid, getProp. destruct node; try reflexivity;
    case_ifs; discriminate.
Qed.

Lemma nodeInvalid_null : exists e, nodeInvalid JNull = inl e.
Proof. eexists. reflexivity. Qed.

Lemma invalidNodes_throws (nodes : list json) (e : jsstring) :
  invalidNodes nodes = inl e -> In JNull nodes.
Proof.
  induction nodes as [|node rest IH]; cbn [invalidNodes]; [discriminate|].
  destruct (nodeInvalid node) as [e'|b] eqn:En.
  - intros _. left. now apply nodeInvalid_throws with e'.
  - destruct (invalidNodes rest) as [e'|l]; [|discriminate].
    intros E. right. exact (IH E).
Qed.

Lemma invalidNodes_null (nodes : list json) :
  In JNull nodes -> exists e, invalidNodes nodes = inl e.
Proof.
  induction nodes as [|node rest IH]; [intros []|].
  intros [-> | Hin]; cbn [invalidNodes].
  - destruct nodeInvalid_null as [e ->]. eauto.
  - destruct (nodeInvalid node); [eauto|].
    destruct (IH Hin) as [e ->]. eauto.
Qed.

Lemma invalidNodes_sound (nodes invalid : list json) :
  invalidNodes nodes = inr invalid ->
  forall node, In node invalid <-> In node nodes /\ nodeInvalid node = inr true.
Proof.
  revert invalid. induction nodes as [|n rest IH]; cbn [invalidNodes]; intros invalid.
  - intros [= <-] node. cbn. tauto.
  - destruct (nodeInvalid n) as [e|b] eqn:En; [discriminate|].
    destruct (invalidNodes rest) as [e|l] eqn:El; [discriminate|].
    intros [= <-] node. specialize (IH l eq_refl node).
    destruct b; cbn; rewrite ?IH; split.
    + intros [<- | [? ?]]; auto.
    + intros [[<- | ?] ?]; auto.
    + intros [? ?]; auto.
    + intros [[<- | ?] ?]; [congruence | auto].
Qed.

Lemma invalidNodes_valid (nodes : list json) :
  Forall (fun n => nodeInvalid n = inr false) nodes -> invalidNodes nodes = inr [].
Proof.
  induction 1 as [|n rest Hn _ IH]; cbn [invalidNodes]; [reflexivity|].
  now rewrite Hn, IH.
Qed.

Lemma invalidNodes_app (l1 l2 i1 i2 : list json) :
  invalidNodes l1 = inr i1 -> invalidNodes l2 = inr i2 ->
  invalidNodes (l1 ++ l2) = inr (i1 ++ i2).
Proof.
  revert i1. induction l1 as [|n rest IH]; cbn [invalidNodes app]; intros i1.
  - now intros [= <-].
  - destruct (nodeInvalid n) as [e|b]; [discriminate|].
    destruct (invalidNodes rest) as [e|l] eqn:El; [discriminate|].
    intros [= <-] H2. rewrite (IH l eq_refl H2). now destruct b.
Qed.

Lemma nodeInvalid_missing_type (members : list (jsstring * json)) :
  lookupMember (js "type") members = None ->
  nodeInvalid (JObject members) = inr true.
Proof.
  intros Ht. unfold nodeInvalid, getProp. rewrite Ht.
  now destruct (negb _).
Qed.

Lemma rethrown_no_nodes :
  rethrown (js "Generated workflow has no nodes") = js "Generated workflow has no nodes".
Proof. vm_compute. reflexivity. Qed.

Lemma shownError_no_nodes :
  shownError (js "Generated workflow has no nodes")
  = js "Workflow Error: Generated workflow has no nodes".
Proof. vm_compute. reflexivity. Qed.

Lemma rethrown_one_invalid :
  rethrown (js "Generated workflow has " ++ toString 1
            ++ js " invalid nodes missing name or type")
  = js "Generated workflow has 1 invalid nodes missing name or type".
Proof. vm_compute. reflexivity. Qed.

Lemma shownError_one_invalid :
  shownError (js "Generated workflow has 1 invalid nodes missing name or type")
  = js "Workflow Error: Generated workflow has 1 invalid nodes missing name or type".
Proof. vm_compute. reflexivity. Qed.

(** A failed attempt: what the handler leaves behind. *)
Lemma handle_failure (now : Z) (response : FetchResult) (b : Builder) (e : jsstring) :
  generate response = inl e ->
  exists m,
    handleGenerateWorkflow now response b
    = ({| messages := messages b ++ [m];
          showGenerateButton := true;
          isGeneratingWorkflow := false;
          workflowGenerated := workflowGenerated b;
          errorText := shownError e;
          currentWorkflowId := currentWorkflowId b;
          has_onWorkflowUpdated := has_onWorkflowUpdated b;
          has_onWorkflowGenerated := has_onWorkflowGenerated b |}, [])
    /\ error m = true /\ sender m = ai.
Proof.
  intros He. unfold handleGenerateWorkflow. rewrite He.
  eexists. split; [reflexivity|]. split; reflexivity.
Qed.

Lemma extractJson_no_braces (content : jsstring) :
  (let text := stripFences (trim content) in
   indexOf text (ch "{") = -1 \/ lastIndexOf text (ch "}") = -1
   \/ lastIndexOf text (ch "}") <= indexOf text (ch "{")) <->
  exists e, extractJson content = inl e.
Proof.
  cbv zeta. unfold extractJson. cbv zeta.
  set (text := stripFences (trim content)).
  set (cond := (indexOf text (ch "{") =? -1) || (lastIndexOf text (ch "}") =? -1)
               || (lastIndexOf text (ch "}") <=? indexOf text (ch "{"))).
  assert (Hc : cond = true <->
               (indexOf text (ch "{") = -1 \/ lastIndexOf text (ch "}") = -1
                \/ lastIndexOf text (ch "}") <= indexOf text (ch "{")))
    by (unfold cond; rewrite !orb_true_iff, !Z.eqb_eq, Z.leb_le; tauto).
  destruct cond.
  - split; [intros _ | intros _; now apply Hc].
    match goal with |- context [if ?c then _ else _] => destruct c end; eauto.
  - split; [intros D; apply Hc in D; discriminate | intros [e He]; discriminate].
Qed.

Lemma generate_fails (response : FetchResult) :
  GenerationFails response <-> exists e, generate response = inl e.
Proof.
  split.
  - intros Hf. destruct Hf as
      [ message | errorField
      | content p Hb
      | content p w Hx Hp
      | content p w parsed Hx Hp Hn
      | content p w parsed Hx Hp Hn
      | content p w parsed nodes Hx Hp Hn Hin
      | content p w parsed nodes node Hx Hp Hn Hin Hinv ];
      unfold generate.
    + eauto.
    + destruct errorField as [[|c e]|]; eauto.
    + apply extractJson_no_braces in Hb as [e ->]. eauto.
    + rewrite Hx, Hp. eauto.
    + rewrite Hx, Hp. unfold checkWorkflow.
      destruct (getProp parsed "nodes") as [e|[[]|]]; eauto.
      exfalso. eapply Hn. reflexivity.
    + rewrite Hx, Hp. unfold checkWorkflow. rewrite Hn. cbn. eauto.
    + rewrite Hx, Hp. unfold checkWorkflow. rewrite Hn.
      destruct nodes as [|n0 rest]; [destruct Hin|].
      cbn [length Nat.eqb].
      destruct (invalidNodes_null _ Hin) as [e ->]. eauto.
    + rewrite Hx, Hp. unfold checkWorkflow. rewrite Hn.
      destruct nodes as [|n0 rest]; [destruct Hin|].
      cbn [length Nat.eqb].
      destruct (invalidNodes (n0 :: rest)) as [e|invalid] eqn:Ei; [eauto|].
      assert (Hin' : In node invalid) by (apply (invalidNodes_sound _ _ Ei); auto).
      destruct invalid as [|i0 irest]; [destruct Hin'|].
      cbn [length Nat.ltb Nat.leb]. eauto.
  - intros [e He]. destruct response as [message | errorField | content p].
    + constructor.
    + constructor.
    + unfold generate in He.
      destruct (extractJson content) as [e1|w] eqn:Hx.
      { apply fails_no_braces. apply extractJson_no_braces. eauto. }
      destruct (JSON_parse w) as [parsed|] eqn:Hp; [|now apply fails_parse with w].
      unfold checkWorkflow in He.
      destruct (getProp parsed "nodes") as [e1|[v|]] eqn:Hn;
        [ apply fails_nodes_not_array with w parsed; auto; intros nodes; rewrite Hn; discriminate
        | | apply fails_nodes_not_array with w parsed; auto; intros nodes; rewrite Hn; discriminate ].
      destruct v as [ | | | | nodes | ];
        try (apply fails_nodes_not_array with w parsed; auto; intros nodes'; rewrite Hn; discriminate).
      destruct nodes as [|n0 rest]; [now apply fails_no_nodes with w parsed|].
      cbn [length Nat.eqb] in He.
      destruct (invalidNodes (n0 :: rest)) as [e1|invalid] eqn:Ei.
      { apply fails_null_node with w parsed (n0 :: rest); auto.
        now apply invalidNodes_throws with e1. }
      destruct invalid as [|i0 irest]; [discriminate|].
      assert (Hi : In i0 (n0 :: rest) /\ nodeInvalid i0 = inr true)
        by (apply (invalidNodes_sound _ _ Ei); now left).
      destruct Hi. now apply fails_invalid_node with w parsed (n0 :: rest) i0.
Qed.

(** C1. The sample output is cleaned to the JSON text (by the handler
    and by [cleanJsonResponse] alike), parsed and accepted as an artifact
    whose only node is named "A"; an output whose
    parsed object has an empty [nodes] list fails with the "no nodes"
    error; an output whose nodes are valid but for one that lacks [type]
    fails reporting 1 invalid node; and a failing attempt hands no
    artifact to anyone. *)
Theorem artifact_acceptance (now : Z) (b : Builder) (p : jsstring) :
  (exists parsed node,
      generate (Ok sampleOutput p) = inr (sampleJson, parsed, p)
      /\ AIService.cleanJsonResponse (trim sampleOutput) = sampleJson
      /\ checkWorkflow parsed = inr [node]
      /\ getProp node "name" = inr (Some (JString (js "A")))
      /\ workflowGenerated (fst (handleGenerateWorkflow now (Ok sampleOutput p) b)) = true
      /\ (has_onWorkflowGenerated b = true ->
          In (onWorkflowGenerated sampleJson)
             (snd (handleGenerateWorkflow now (Ok sampleOutput p) b))))
  /\ (forall content w parsed,
        extractJson content = inr w ->
        JSON_parse w = Some parsed ->
        getProp parsed "nodes" = inr (Some (JArray [])) ->
        generate (Ok content p) = inl (js "Generated workflow has no nodes")
        /\ errorText (fst (handleGenerateWorkflow now (Ok content p) b))
           = js "Workflow Error: Generated workflow has no nodes"
        /\ snd (handleGenerateWorkflow now (Ok content p) b) = [])
  /\ (forall content w parsed before members after,
        extractJson content = inr w ->
        JSON_parse w = Some parsed ->
        getProp parsed "nodes" = inr (Some (JArray (before ++ JObject members :: after))) ->
        lookupMember (js "type") members = None ->
        Forall (fun n => nodeInvalid n = inr false) (before ++ after) ->
        generate (Ok content p)
        = inl (js "Generated workflow has 1 invalid nodes missing name or type")
        /\ errorText (fst (handleGenerateWorkflow now (Ok content p) b))
           = js "Workflow Error: Generated workflow has 1 invalid nodes missing name or type"
        /\ snd (handleGenerateWorkflow now (Ok content p) b) = [])
  /\ (forall response e,
        generate response = inl e ->
        snd (handleGenerateWorkflow now response b) = []
        /\ workflowGenerated (fst (handleGenerateWorkflow now response b))
           = workflowGenerated b).
Proof.
  split; [|split; [|split]].
  - assert (Hg : generate (Ok sampleOutput p)
                 = inr (sampleJson,
                        JObject [(js "nodes",
                                  JArray [JObject [(js "name", JString (js "A"));
                                                   (js "type", JString (js "t"))]]);
                                 (js "connections", JObject [])], p))
      by (vm_compute; reflexivity).
    do 2 eexists. split; [exact Hg|].
    split; [vm_compute; reflexivity|].
    split; [vm_compute; reflexivity|].
    split; [vm_compute; reflexivity|].
    unfold handleGenerateWorkflow. rewrite Hg. cbn [fst snd workflowGenerated].
    split; [reflexivity|]. intros ->.
    apply in_or_app. right. now left.
  - intros content w parsed Hx Hp Hn.
    assert (Hg : generate (Ok content p) = inl (js "Generated workflow has no nodes")).
    { unfold generate. rewrite Hx, Hp. unfold checkWorkflow. rewrite Hn.
      cbn [length Nat.eqb]. now rewrite rethrown_no_nodes. }
    split; [exact Hg|].
    destruct (handle_failure now _ b _ Hg) as (m & -> & _).
    cbn [fst snd errorText]. split; [apply shownError_no_nodes | reflexivity].
  - intros content w parsed before members after Hx Hp Hn Ht Hvalid.
    apply Forall_app in Hvalid as [Hb Ha].
    assert (Hi : invalidNodes (before ++ JObject members :: after) = inr [JObject members]).
    { change [JObject members] with ([] ++ [JObject members] ++ []).
      apply invalidNodes_app; [now apply invalidNodes_valid|].
      change (JObject members :: after) with ([JObject members] ++ after).
      apply invalidNodes_app; [|now apply invalidNodes_valid].
      cbn [invalidNodes]. now rewrite (nodeInvalid_missing_type _ Ht). }
    assert (Hg : generate (Ok content p)
                 = inl (js "Generated workflow has 1 invalid nodes missing name or type")).
    { unfold generate. rewrite Hx, Hp. unfold checkWorkflow. rewrite Hn, Hi.
      destruct before; cbn [length app Nat.eqb Nat.ltb Nat.leb];
        change (Z.of_nat 1) with 1; now rewrite rethrown_one_invalid. }
    split; [exact Hg|].
    destruct (handle_failure now _ b _ Hg) as (m & -> & _).
    cbn [fst snd errorText]. split; [apply shownError_one_invalid | reflexivity].
  - intros response e He.
    destruct (handle_failure now _ b _ He) as (m & -> & _). split; reflexivity.
Qed.

(** C7. When a generation attempt fails at any stage (the request, the
    search for the braces, the parse, the [nodes] list, a node), nothing
    is sent to storage and no callback runs, an error-flagged assistant
    message is appended to the log, and the generate button is shown
    again; the flag that an artifact exists is left as it was. *)
Theorem generation_failure_atomic (now : Z) (response : FetchResult) (b : Builder) :
  GenerationFails response ->
  snd (handleGenerateWorkflow now response b) = []
  /\ (exists m,
        messages (fst (handleGenerateWorkflow now response b)) = messages b ++ [m]
        /\ error m = true /\ sender m = ai)
  /\ showGenerateButton (fst (handleGenerateWorkflow now response b)) = true
  /\ isGeneratingWorkflow (fst (handleGenerateWorkflow now response b)) = false
  /\ workflowGenerated (fst (handleGenerateWorkflow now response b)) = workflowGenerated b.
Proof.
  intros Hf. apply generate_fails in Hf as [e He].
  destruct (handle_failure now _ b _ He) as (m & -> & Hm1 & Hm2).
  cbn [fst snd messages showGenerateButton isGeneratingWorkflow workflowGenerated].
  repeat split; eauto.
Qed.

(** A successful attempt is the only one that reaches storage: the write
    carries the parsed artifact and the status "generated". *)
Lemma storage_write_only_on_success (now : Z) (response : FetchResult) (b : Builder)
    (workflowId : jsstring) (artifact : json) (status_ : jsstring) :
  In (updateWorkflowJsonAndStatus workflowId artifact status_)
     (snd (handleGenerateWorkflow now response b)) ->
  exists text p, generate response = inr (text, artifact, p) /\ status_ = js "generated".
Proof.
  unfold handleGenerateWorkflow.
  destruct (generate response) as [e|[[text parsed] p]]; cbn [snd]; [intros []|].
  intros Hin. exists text, p.
  apply in_app_or in Hin as [Hin | Hin].
  - destruct (currentWorkflowId b) as [[|c w]|]; [destruct Hin | | destruct Hin].
    destruct Hin as [E | Hin]; [injection E as <- <- <-; auto|].
    destruct (has_onWorkflowUpdated b); [destruct Hin as [E|[]]; discriminate | destruct Hin].
  - apply in_app_or in Hin as [Hin | Hin].
    + destruct (has_onWorkflowGenerated b); [destruct Hin as [E|[]]; discriminate | destruct Hin].
    + destruct Hin as [E|[]]; discriminate.
Qed.

End GenerateFacts.

(** ** Debounced auto-save *)

Section AutoSaveFacts.

Import Builder.

Lemma clearTimeout_own (t : Timer) :
  clearTimeout (Some (timerId t)) [t] = [].
Proof. unfold clearTimeout. cbn. now rewrite Nat.eqb_refl. Qed.

(** A commit cancels what was pending and schedules at most one
    timeout, for the log it was given; it makes no call. *)
Lemma commit_post (now : Z) (m : list Message) (w : option jsstring) (s : AutoSave) :
  wellFormed s ->
  pendingAfter (commit now m w s) now m
  /\ saves (commit now m w s) = saves s
  /\ lastSavedHashRef (commit now m w s) = lastSavedHashRef s
  /\ isTransitioningRef (commit now m w s) = isTransitioningRef s
  /\ fst (workflowStateRef (commit now m w s)) = w.
Proof.
  intros Hwf.
  assert (Hts : (if cleanup s then clearTimeout (autoSaveTimeoutRef s) (timers s)
                 else timers s) = []).
  { unfold wellFormed in Hwf. destruct (timers s) as [|t0 [|t1 rest]]; [| |destruct Hwf].
    - destruct (cleanup s), (autoSaveTimeoutRef s); reflexivity.
    - destruct Hwf as [-> ->]. apply clearTimeout_own. }
  unfold commit, autoSaveEffect, pendingAfter. cbv zeta. cbn [isTransitioningRef
    workflowStateRef lastSavedHashRef autoSaveTimeoutRef timers nextTimerId fst].
  rewrite Hts.
  case_ifs;
    cbn [with_timers timers saves lastSavedHashRef isTransitioningRef workflowStateRef
         autoSaveTimeoutRef cleanup fst];
    (split; [|repeat split; reflexivity]); auto.
  right. eexists. split.
  - destruct (autoSaveTimeoutRef s); reflexivity.
  - cbn. repeat split; reflexivity.
Qed.

(** The callback makes at most one call, for the log it captured. *)
Lemma autoSaveCallback_saves (t : Timer) (s : AutoSave) :
  timers (autoSaveCallback t s) = timers s
  /\ autoSaveTimeoutRef (autoSaveCallback t s) = autoSaveTimeoutRef s
  /\ cleanup (autoSaveCallback t s) = cleanup s
  /\ (saves (autoSaveCallback t s) = saves s
      \/ saves (autoSaveCallback t s)
         = saves s ++ [ {| save_time := due t;
                           save_workflowId := cl_currentWorkflowId (captured t);
                           save_chatHistory := cl_messages (captured t) |} ]).
Proof.
  unfold autoSaveCallback. cbv zeta.
  case_ifs; cbn; auto.
Qed.

(** Time passing while a mutation's timeout is pending. *)
Lemma elapse_post (T : Z) (s : AutoSave) (t : Z) (m : list Message) :
  pendingAfter s t m ->
  (T < t + DEBOUNCE -> saves (elapse T s) = saves s /\ pendingAfter (elapse T s) t m)
  /\ wellFormed (elapse T s)
  /\ exists new,
       saves (elapse T s) = saves s ++ new
       /\ (length new <= 1)%nat
       /\ forall sv, In sv new ->
            save_chatHistory sv = m /\ save_time sv = t + DEBOUNCE /\ t + DEBOUNCE <= T.
Proof.
  intros [Hnil | (tm & Hts & Hdue & Hm & Href & Hcl)]; unfold elapse; cbv zeta.
  - rewrite Hnil. cbn [List.filter fold_left].
    split; [intros _; split; [reflexivity | now left]|].
    split; [unfold wellFormed; now cbn|].
    exists []. rewrite app_nil_r. split; [reflexivity|]. split; [cbn; lia | intros sv []].
  - rewrite Hts. cbn [List.filter]. rewrite Hdue.
    destruct (Z.leb_spec (t + DEBOUNCE) T) as [Hle | Hgt]; cbn [negb fold_left].
    + split; [intros; lia|].
      match goal with |- context [autoSaveCallback tm ?s0] =>
        destruct (autoSaveCallback_saves tm s0) as (E1 & E2 & E3 & E4)
      end.
      split; [unfold wellFormed; now rewrite E1|].
      cbn [with_timers saves] in E4. destruct E4 as [-> | ->].
      * exists []. rewrite app_nil_r. split; [reflexivity|]. split; [cbn; lia | intros sv []].
      * eexists. split; [reflexivity|]. cbn. split; [lia|].
        intros sv [<- | []]. cbn. split; [exact Hm|]. split; [exact Hdue | exact Hle].
    + split.
      { intros _. split; [reflexivity|]. right. exists tm. cbn. auto. }
      split; [unfold wellFormed; cbn; auto|].
      exists []. rewrite app_nil_r. split; [reflexivity|]. split; [cbn; lia | intros sv []].
Qed.

Lemma wellFormed_pending (s : AutoSave) :
  wellFormed s ->
  timers s = [] \/ exists tm, pendingAfter s (due tm - DEBOUNCE) (cl_messages (captured tm)).
Proof.
  unfold wellFormed, pendingAfter.
  destruct (timers s) as [|t0 [|t1 rest]]; [auto | | intros []].
  intros [Hr Hc]. right. exists t0. right. exists t0. repeat split; auto. lia.
Qed.

Lemma elapse_wellFormed (T : Z) (s : AutoSave) :
  wellFormed s -> wellFormed (elapse T s).
Proof.
  intros Hwf. destruct (wellFormed_pending s Hwf) as [Hnil | (tm & Hp)].
  - apply (elapse_post T s 0 []). now left.
  - now apply (elapse_post T s _ _ Hp).
Qed.

(** A mutation of a well-formed state leaves at most its own timeout. *)
Lemma mutation_post (now : Z) (m : list Message) (s : AutoSave) :
  wellFormed s -> pendingAfter (step s (Mutation now m)) now m.
Proof.
  intros Hwf. cbn [step]. apply commit_post. now apply elapse_wellFormed.
Qed.

(** A mutation that comes before the pending timeout is due cancels it:
    no call is made. *)
Lemma quiet_mutation (s : AutoSave) (t t' : Z) (m m' : list Message) :
  pendingAfter s t m -> t' < t + DEBOUNCE ->
  saves (step s (Mutation t' m')) = saves s
  /\ pendingAfter (step s (Mutation t' m')) t' m'.
Proof.
  intros Hp Hlt. cbn [step].
  destruct (elapse_post t' s t m Hp) as (Hquiet & Hwf & _).
  destruct (Hquiet Hlt) as [Hs _].
  destruct (commit_post t' m' (fst (workflowStateRef (elapse t' s))) (elapse t' s) Hwf)
    as (Hpost & Hsaves & _).
  split; [congruence | exact Hpost].
Qed.

Lemma saveResolved_post (success : bool) (hash : list jsstring) (s : AutoSave)
    (t : Z) (m : list Message) :
  pendingAfter s t m ->
  saves (saveResolved success hash s) = saves s
  /\ pendingAfter (saveResolved success hash s) t m.
Proof.
  intros Hp. unfold saveResolved. destruct success; [|auto].
  split; [reflexivity|]. exact Hp.
Qed.

Lemma burst_run (events : list Event) (s : AutoSave) (t0 : Z) (m0 : list Message) (T : Z) :
  pendingAfter s t0 m0 ->
  burst t0 events ->
  exists new,
    saves (run s (events ++ [Elapse T])) = saves s ++ new
    /\ (length new <= 1)%nat
    /\ forall sv, In sv new ->
         save_chatHistory sv = snd (lastMutation (t0, m0) events)
         /\ save_time sv = fst (lastMutation (t0, m0) events) + DEBOUNCE
         /\ fst (lastMutation (t0, m0) events) + DEBOUNCE <= T.
Proof.
  revert s t0 m0. induction events as [|e rest IH]; intros s t0 m0 Hp Hb.
  - cbn [app run fold_left step lastMutation fst snd].
    now destruct (elapse_post T s t0 m0 Hp) as (_ & _ & Hex).
  - change (run s ((e :: rest) ++ [Elapse T])) with (run (step s e) (rest ++ [Elapse T])).
    destruct e as [t1 m1 | t1 | success hash]; cbn [burst] in Hb.
    + destruct Hb as (Hle & Hlt & Hb).
      destruct (quiet_mutation s t0 t1 m0 m1 Hp Hlt) as [Hs Hp1].
      destruct (IH _ t1 m1 Hp1 Hb) as (new & Hnew & Hlen & Hall).
      exists new. rewrite Hnew, Hs. auto.
    + destruct Hb as (Hlt & Hb).
      destruct (elapse_post t1 s t0 m0 Hp) as (Hquiet & _).
      destruct (Hquiet Hlt) as [Hs Hp1].
      destruct (IH _ t0 m0 Hp1 Hb) as (new & Hnew & Hlen & Hall).
      exists new. cbn [step]. rewrite Hnew, Hs. auto.
    + destruct (saveResolved_post success hash s t0 m0 Hp) as [Hs Hp1].
      destruct (IH _ t0 m0 Hp1 Hb) as (new & Hnew & Hlen & Hall).
      exists new. cbn [step]. rewrite Hnew, Hs. auto.
Qed.

End AutoSaveFacts.

Section AutoSaveTheorem.

Import Builder.

(** C8. A burst of mutations of the message log, each less than the
    debounce delay after the one before (with earlier saves resolving in
    between or not), followed by any lapse of time, issues at most one
    save; that save carries the log of the last mutation and is made 3
    seconds after it.  The timeout makes no call
    when the workflow of the refs differs from the one it captured or a
    transition is in progress; no timeout is scheduled when the hash of
    the log equals the last saved hash; and a call to the storage service
    issues at most one request, whose body is the log it was given. *)
Theorem debounced_auto_save (s : AutoSave) (t0 : Z) (m0 : list Message)
    (events : list Event) (T : Z) :
  wellFormed s ->
  burst t0 events ->
  (exists new,
      saves (run (step s (Mutation t0 m0)) (events ++ [Elapse T]))
      = saves (step s (Mutation t0 m0)) ++ new
      /\ (length new <= 1)%nat
      /\ forall sv, In sv new ->
           save_chatHistory sv = snd (lastMutation (t0, m0) events)
           /\ save_time sv = fst (lastMutation (t0, m0) events) + DEBOUNCE
           /\ fst (lastMutation (t0, m0) events) + DEBOUNCE <= T)
  /\ (forall tm st,
        fst (workflowStateRef st) <> cl_currentWorkflowId (captured tm)
        \/ isTransitioningRef st = true ->
        saves (autoSaveCallback tm st) = saves st)
  /\ (forall now m w,
        lastSavedHashRef s = Some (messagesHash m) ->
        timers (commit now m w s) = [] /\ saves (commit now m w s) = saves s)
  /\ (forall currentWorkflow response chatHistory r request,
        updateWorkflowChatHistory currentWorkflow response chatHistory = (r, Some request) ->
        put_chat_history request = chatHistory).
Proof.
  intros Hwf Hb. split; [|split; [|split]].
  - apply burst_run; [now apply mutation_post | exact Hb].
  - intros tm st Hskip. unfold autoSaveCallback. cbv zeta.
    destruct Hskip as [Hne | Htr].
    + rewrite (bool_decide_eq_false_2 _ Hne). reflexivity.
    + rewrite Htr, orb_true_r. reflexivity.
  - intros now m w Hhash.
    destruct (commit_post now m w s Hwf) as (Hp & Hs & Hl & _).
    split; [|exact Hs].
    destruct Hp as [Hnil | (tm & Hts & _)]; [exact Hnil|].
    exfalso. revert Hts. unfold commit, autoSaveEffect. cbv zeta.
    cbn [isTransitioningRef workflowStateRef lastSavedHashRef autoSaveTimeoutRef timers
         nextTimerId fst].
    rewrite Hhash, !bool_decide_eq_true_2 by reflexivity.
    assert (Hts0 : (if cleanup s then clearTimeout (autoSaveTimeoutRef s) (timers s)
                    else timers s) = []).
    { unfold wellFormed in Hwf. destruct (timers s) as [|x [|y rest]]; [| |destruct Hwf].
      - destruct (cleanup s), (autoSaveTimeoutRef s); reflexivity.
      - destruct Hwf as [-> ->]. apply clearTimeout_own. }
    rewrite Hts0.
    case_ifs; cbn; discriminate.
  - intros cw response ch r request. unfold updateWorkflowChatHistory.
    destruct cw as [w|]; [|discriminate]. cbv zeta.
    destruct response as [|status [text|]]; [| destruct (JSON_parse text) |];
      case_ifs; intros [= <- <-]; reflexivity.
Qed.

End AutoSaveTheorem.

(** ** Concrete instances *)

Example threeOfSix_completeness : calculateCompleteness threeOfSix = Num 80.
Proof. vm_compute. reflexivity. Qed.

(** With no requirement at all the quotient is [0 / 0]. *)
Example empty_list_completeness : calculateCompleteness [] = NaN.
Proof. reflexivity. Qed.

Lemma completeness_formula_witness :
  (length threeOfSix <= 39)%nat
  /\ (threeOfSix = [] -> b64_calculateCompleteness threeOfSix = NaN)
  /\ (threeOfSix <> [] ->
      exists c : Z,
        b64_calculateCompleteness threeOfSix = Num c
        /\ calculateCompleteness threeOfSix = Num c
        /\ spec_completeness threeOfSix c
        /\ (count isHigh threeOfSix = 3%nat ->
            length threeOfSix = 6%nat ->
            (forall r, In r threeOfSix -> answered r = isHigh r) ->
            c = 80)).
Proof.
  assert (Hlen : (length threeOfSix <= 39)%nat) by (vm_compute; lia).
  split; [exact Hlen | exact (completeness_formula threeOfSix Hlen)].
Defined.

(** C3 as stated, for every list, fails.  With 23 answered out of 40 and
    no high-priority requirement answered among 17, the quotient
    [23 / 40] is rounded to a double below 0.575 and the product with 100
    to one below 57.5: the tracker computes 57, where 100 times the
    answered share is 57.5 and rounds to 58. *)
Lemma completeness_formula_counterexample :
  length twentyThreeOfForty = 40%nat
  /\ count answered twentyThreeOfForty = 23%nat
  /\ count isHigh twentyThreeOfForty = 17%nat
  /\ count (fun x => isHigh x && answered x) twentyThreeOfForty = 0%nat
  /\ b64_calculateCompleteness twentyThreeOfForty = Num 57
  /\ spec_completeness twentyThreeOfForty 58
  /\ ~ spec_completeness twentyThreeOfForty 57.
Proof.
  repeat (split; [vm_compute; reflexivity|]).
  split.
  - exists 58. split; [unfold rounds_percent; vm_compute; split; [discriminate | reflexivity]|].
    vm_compute; reflexivity.
  - intros (r & Hr & Hc). unfold rounds_percent in Hr.
    change (Z.of_nat (count answered twentyThreeOfForty)) with 23 in Hr.
    change (Z.of_nat (length twentyThreeOfForty)) with 40 in Hr.
    change (80 * Z.of_nat (count isHigh twentyThreeOfForty)
            <=? 100 * Z.of_nat (count (fun x => isHigh x && answered x) twentyThreeOfForty))
      with false in Hc.
    lia.
Qed.

Lemma completeness_monotonic_witness :
  @reachable exampleEngine helloState
  /\ ((exists z z',
          completeness helloState = Num z
          /\ completeness (@updateConversationState exampleEngine helloState (js "hello") summaryReply)
             = Num z'
          /\ z <= z')
      /\ length (requirements (@updateConversationState exampleEngine helloState (js "hello") summaryReply))
         = length (requirements helloState)
      /\ Forall2 grows (requirements helloState)
           (requirements (@updateConversationState exampleEngine helloState (js "hello") summaryReply))
      /\ b64_calculateCompleteness
           (requirements (@updateConversationState exampleEngine helloState (js "hello") summaryReply))
         = completeness (@updateConversationState exampleEngine helloState (js "hello") summaryReply)).
Proof.
  split; [apply reachable_initial|].
  apply (@completeness_monotonic exampleEngine helloState (js "hello") summaryReply).
  apply reachable_initial.
Defined.

(** C9 with the sentinel "ready" fails: when every requirement is
    answered the focus is "Ready for generation". *)
Lemma currentFocus_sentinel_counterexample :
  forallb answered
    (requirements (@updateConversationState exampleEngine helloState (js "hello") summaryReply))
  = true
  /\ currentFocus (@updateConversationState exampleEngine helloState (js "hello") summaryReply)
     = Some (js "Ready for generation")
  /\ currentFocus (@updateConversationState exampleEngine helloState (js "hello") summaryReply)
     <> Some (spec_currentFocus (js "ready")
                (requirements (@updateConversationState exampleEngine helloState (js "hello") summaryReply))).
Proof.
  split; [vm_compute; reflexivity|].
  split; [vm_compute; reflexivity|].
  intros E. vm_compute in E. discriminate.
Qed.

(** From discovery, one update whose completeness is 100 reaches
    validation only. *)
Example full_completeness_one_step :
  completeness (@updateConversationState exampleEngine helloState (js "hello") summaryReply)
  = Num 100
  /\ phase (@updateConversationState exampleEngine helloState (js "hello") summaryReply)
     = validation.
Proof. split; vm_compute; reflexivity. Qed.

Lemma phase_one_step_per_update_witness :
  phase helloState = discovery
  /\ @shouldGenerateWorkflow
       (@runUpdates exampleEngine helloState [(js "hello", summaryReply); (js "yes", summaryReply)])
     = true
  /\ exists t1 u1 t2 u2 t3,
       [(js "hello", summaryReply); (js "yes", summaryReply)] = t1 ++ u1 :: t2 ++ u2 :: t3
       /\ number_ge (completeness (@runUpdates exampleEngine helloState (t1 ++ [u1]))) 80 = true
       /\ number_ge (completeness (@runUpdates exampleEngine helloState (t1 ++ u1 :: t2 ++ [u2]))) 90
          = true.
Proof.
  split; [reflexivity|].
  split; [vm_compute; reflexivity|].
  apply (proj2 (proj2 (@phase_one_step_per_update exampleEngine helloState (js "hello") summaryReply))).
  - reflexivity.
  - vm_compute. reflexivity.
Defined.

(** C2 on the code. The first rate-limit fallback is answered by the
    secondary provider with [fallback] set and the code "RATE_LIMIT", and
    records the primary as failed; but the route computes
    [showNotification] after recording it, so the flag is [false] and
    [handleSendMessage] sets no notification for this first fallback.
    The second call, inside the window, is answered by the secondary
    provider, marked silent, and sets no notification either. *)
Theorem first_rate_limit_fallback_not_notified :
  exists st1 r1 r2,
    firstCall = (st1, inr r1)
    /\ Gateway.res_provider r1 = js "claude"
    /\ Gateway.fallback r1 = true
    /\ Gateway.errorCode r1 = Some (js "RATE_LIMIT")
    /\ js "openai" ∈ Gateway.failedProviders st1
    /\ Gateway.showNotification r1 = Some false
    /\ Builder.fallbackNotification r1 = None
    /\ secondCall = (st1, inr r2)
    /\ Gateway.res_provider r2 = js "claude"
    /\ Gateway.silentFallback r2 = true
    /\ Builder.fallbackNotification r2 = None.
Proof.
  destruct (@rate_limit_fallback exampleEngine examplePrompt rateLimited 1000 freshServer
              exampleKeys exampleMessages None
              {| Gateway.provider := js "OpenAI"; Gateway.encrypted_key := js "key-1" |}
              {| Gateway.provider := js "Claude"; Gateway.encrypted_key := js "key-2" |}
              (js "OpenAI API error: 429 - rate limit reached")
              (js "Which event starts it?")
              {| Gateway.type := Some (js "rate_limit_error");
                 Gateway.code := Some (js "rate_limit_exceeded") |})
    as (st1 & r1 & E1 & Hp & Hf & Hc & Hin & _ & Hshow & Hnote);
    try (vm_compute; reflexivity); try reflexivity.
  { intros E. vm_compute in E. discriminate. }
  assert (Hstart : Gateway.sessionStartTime st1 = 0).
  { unfold Gateway.POST in E1. vm_compute in E1. injection E1 as <- _. reflexivity. }
  assert (Hwin : 61000 - Gateway.sessionStartTime st1 <= Gateway.SESSION_RESET_INTERVAL)
    by (rewrite Hstart; vm_compute; discriminate).
  assert (Hkey : @Gateway.findKey exampleEngine exampleKeys "claude"
                 = Some {| Gateway.provider := js "Claude"; Gateway.encrypted_key := js "key-2" |})
    by (vm_compute; reflexivity).
  destruct (@suppressed_call exampleEngine examplePrompt rateLimited 61000 st1
              exampleKeys exampleMessages None
              {| Gateway.provider := js "Claude"; Gateway.encrypted_key := js "key-2" |}
              (js "Which event starts it?") Hin Hwin Hkey (fun _ => eq_refl))
    as (r2 & E2 & Hp2 & Hs2 & _ & Hn2).
  exists st1, r1, r2. unfold secondCall. fold firstCall in E1. rewrite E1. cbn [fst].
  repeat split; assumption.
Qed.

Section BuilderInstances.

Import Builder.

Lemma artifact_acceptance_witness :
  @extractJson exampleEngine (jsq "Here: {'nodes':[]} done") = inr (jsq "{'nodes':[]}")
  /\ JSON_parse (jsq "{'nodes':[]}") = Some (JObject [(js "nodes", JArray [])])
  /\ @getProp exampleEngine (JObject [(js "nodes", JArray [])]) "nodes" = inr (Some (JArray []))
  /\ (@generate exampleEngine (Ok (jsq "Here: {'nodes':[]} done") (js "openai"))
      = inl (js "Generated workflow has no nodes")
      /\ errorText (fst (@handleGenerateWorkflow exampleEngine 0
                           (Ok (jsq "Here: {'nodes':[]} done") (js "openai")) exampleBuilder))
         = js "Workflow Error: Generated workflow has no nodes"
      /\ snd (@handleGenerateWorkflow exampleEngine 0
                (Ok (jsq "Here: {'nodes':[]} done") (js "openai")) exampleBuilder) = []).
Proof.
  split; [vm_compute; reflexivity|].
  split; [vm_compute; reflexivity|].
  split; [vm_compute; reflexivity|].
  apply (proj1 (proj2 (@artifact_acceptance exampleEngine 0 exampleBuilder (js "openai"))))
    with (w := jsq "{'nodes':[]}") (parsed := JObject [(js "nodes", JArray [])]);
    vm_compute; reflexivity.
Defined.

(** One node of two lacks its type: one invalid node is reported. *)
Example one_invalid_node :
  @generate exampleEngine
    (Ok (jsq "{'nodes':[{'name':'A','type':'t'},{'name':'B'}]}") (js "openai"))
  = inl (js "Generated workflow has 1 invalid nodes missing name or type").
Proof. vm_compute. reflexivity. Qed.

Lemma generation_failure_atomic_witness :
  @GenerationFails exampleEngine (Ok (js "I am sorry, I can only describe it.") (js "openai"))
  /\ (snd (@handleGenerateWorkflow exampleEngine 0
             (Ok (js "I am sorry, I can only describe it.") (js "openai")) exampleBuilder) = []
      /\ (exists m,
            messages (fst (@handleGenerateWorkflow exampleEngine 0
                             (Ok (js "I am sorry, I can only describe it.") (js "openai"))
                             exampleBuilder))
            = messages exampleBuilder ++ [m]
            /\ error m = true /\ sender m = ai)
      /\ showGenerateButton (fst (@handleGenerateWorkflow exampleEngine 0
                                    (Ok (js "I am sorry, I can only describe it.") (js "openai"))
                                    exampleBuilder)) = true
      /\ isGeneratingWorkflow (fst (@handleGenerateWorkflow exampleEngine 0
                                      (Ok (js "I am sorry, I can only describe it.") (js "openai"))
                                      exampleBuilder)) = false
      /\ workflowGenerated (fst (@handleGenerateWorkflow exampleEngine 0
                                   (Ok (js "I am sorry, I can only describe it.") (js "openai"))
                                   exampleBuilder))
         = workflowGenerated exampleBuilder).
Proof.
  assert (Hf : @GenerationFails exampleEngine
                 (Ok (js "I am sorry, I can only describe it.") (js "openai")))
    by (apply fails_no_braces; cbv zeta; left; vm_compute; reflexivity).
  split; [exact Hf|].
  apply (@generation_failure_atomic exampleEngine 0 _ exampleBuilder Hf).
Defined.

(** Three mutations within one second, then four seconds of quiet: one
    save, of the last log, 3 seconds after the last mutation. *)
Example three_mutations_one_save :
  saves (run (step exampleAutoSave (Mutation 0 log1))
             [Mutation 400 log2; Mutation 900 log3; Elapse 5000])
  = [ {| save_time := 3900; save_workflowId := Some (js "wf-1");
         save_chatHistory := log3 |} ].
Proof. vm_compute. reflexivity. Qed.

Lemma debounced_auto_save_witness :
  wellFormed exampleAutoSave
  /\ burst 0 [Mutation 400 log2; Elapse 800; Mutation 900 log3]
  /\ ((exists new,
          saves (run (step exampleAutoSave (Mutation 0 log1))
                     ([Mutation 400 log2; Elapse 800; Mutation 900 log3] ++ [Elapse 5000]))
          = saves (step exampleAutoSave (Mutation 0 log1)) ++ new
          /\ (length new <= 1)%nat
          /\ forall sv, In sv new ->
               save_chatHistory sv
               = snd (lastMutation (0, log1) [Mutation 400 log2; Elapse 800; Mutation 900 log3])
               /\ save_time sv
                  = fst (lastMutation (0, log1) [Mutation 400 log2; Elapse 800; Mutation 900 log3])
                    + DEBOUNCE
               /\ fst (lastMutation (0, log1) [Mutation 400 log2; Elapse 800; Mutation 900 log3])
                  + DEBOUNCE <= 5000)
      /\ (forall tm st,
            fst (workflowStateRef st) <> cl_currentWorkflowId (captured tm)
            \/ isTransitioningRef st = true ->
            saves (autoSaveCallback tm st) = saves st)
      /\ (forall now m w,
            lastSavedHashRef exampleAutoSave = Some (messagesHash m) ->
            timers (commit now m w exampleAutoSave) = []
            /\ saves (commit now m w exampleAutoSave) = saves exampleAutoSave)
      /\ (forall currentWorkflow response chatHistory r request,
            updateWorkflowChatHistory currentWorkflow response chatHistory = (r, Some request) ->
            put_chat_history request = chatHistory)).
Proof.
  assert (Hwf : wellFormed exampleAutoSave) by exact I.
  assert (Hb : burst 0 [Mutation 400 log2; Elapse 800; Mutation 900 log3])
    by (unfold burst, DEBOUNCE; lia).
  split; [exact Hwf|]. split; [exact Hb|].
  apply (debounced_auto_save exampleAutoSave 0 log1
           [Mutation 400 log2; Elapse 800; Mutation 900 log3] 5000 Hwf Hb).
Defined.

End BuilderInstances.

(** ** Further properties *)

Section TrackerExtras.
Context `{JsEngine}.

Lemma all_answered_count (l : list WorkflowRequirement) :
  Forall (fun r => answered r = true) l ->
  count answered l = length l
  /\ count answered (List.filter isHigh l) = count isHigh l.
Proof.
  unfold count. induction 1 as [|r l Hr _ (IH1 & IH2)]; [split; reflexivity|].
  cbn. rewrite Hr. destruct (isHigh r); cbn; rewrite ?Hr; cbn; lia.
Qed.

Lemma none_answered_count (l : list WorkflowRequirement) :
  Forall (fun r => answered r = false) l ->
  count answered l = 0%nat
  /\ count answered (List.filter isHigh l) = 0%nat.
Proof.
  unfold count. induction 1 as [|r l Hr _ (IH1 & IH2)]; [split; reflexivity|].
  cbn. rewrite Hr. destruct (isHigh r); cbn; rewrite ?Hr; cbn; lia.
Qed.

Lemma all_answered_complete (l : list WorkflowRequirement) :
  l <> [] -> Forall (fun r => answered r = true) l ->
  calculateCompleteness l = Num 100.
Proof.
  intros Hne Hall. rewrite calculateCompleteness_value by exact Hne.
  destruct (all_answered_count l Hall) as (-> & ->).
  assert (Hl : 0 < Z.of_nat (length l)) by (destruct l; [congruence | cbn; lia]).
  assert (Hb : (200 * Z.of_nat (length l) + Z.of_nat (length l)) / (2 * Z.of_nat (length l)) = 100).
  { symmetry. apply (Z.div_unique _ _ 100 (Z.of_nat (length l))); lia. }
  cbv zeta. rewrite Hb.
  destruct (_ <=? _); reflexivity.
Qed.

(** X1. The list a session starts with: the six base requirements in
    their order, all unanswered, the question of the second possibly
    replaced by the one on schedules, followed by at most two further
    requirements of category inputs.  Its completeness is 0 and its
    focus is the first requirement. *)
Theorem initializeRequirements_shape (userInput : jsstring) :
  exists q extra,
    initializeRequirements userInput
    = alter (set_question q) 1%nat baseRequirements ++ extra
    /\ (q = js "What event should start this automation?"
        \/ q = js "What schedule should this automation run on?")
    /\ (length extra <= 2)%nat
    /\ Forall (fun r => category r = inputs /\ priority r <> low) extra
    /\ Forall (fun r => answered r = false /\ answer r = None)
              (initializeRequirements userInput)
    /\ map category (take 6 (initializeRequirements userInput))
       = [scope; triggers; resources; inputs; destinations; errors]
    /\ map priority (take 6 (initializeRequirements userInput))
       = [high; high; high; medium; medium; low]
    /\ calculateCompleteness (initializeRequirements userInput) = Num 0
    /\ getCurrentFocus (initializeRequirements userInput) = js "scope".
Proof.
  unfold initializeRequirements, customizeRequirements. cbv zeta.
  destruct (includes (toLowerCase userInput) (js "email"));
  destruct (includes (toLowerCase userInput) (js "schedule")
            || includes (toLowerCase userInput) (js "daily")
            || includes (toLowerCase userInput) (js "weekly"));
  destruct (includes (toLowerCase userInput) (js "data")
            || includes (toLowerCase userInput) (js "spreadsheet")
            || includes (toLowerCase userInput) (js "csv"));
  eexists; eexists;
  (split; [| split; [| split; [| split; [| split; [| split; [| split; [| split]]]]]]]);
  try (vm_compute; reflexivity).
  all: try (right; reflexivity).
  all: try (left; reflexivity).
  all: try instantiate (1 := []).
  all: try (cbn; lia).
  all: try (repeat constructor; discriminate).
Qed.

(** X2. What an update does to each requirement: category, question and
    priority stay; a requirement that was answered is left as it is, with
    the answer it had; a requirement that becomes answered records the
    user's message as it was typed, and one that stays unanswered has no
    answer. *)
Theorem analyze_records_user_message (l : list WorkflowRequirement) (m a : jsstring) :
  Forall2 (fun r r' =>
             category r' = category r /\ question r' = question r
             /\ priority r' = priority r
             /\ (answered r = true -> r' = r)
             /\ (answered r = false ->
                 answer r' = if answered r' then Some m else None))
          l (analyzeAndUpdateRequirements l m a).
Proof.
  unfold analyzeAndUpdateRequirements.
  induction l as [|r l IH]; cbn [map]; constructor; [|exact IH].
  destruct (answered r) eqn:E; cbn [category question priority answered answer].
  - repeat split; auto. discriminate.
  - repeat split; auto. discriminate.
Qed.

Lemma summary_answers_all (l : list WorkflowRequirement) (m a : jsstring) :
  existsb (fun i => includes (toLowerCase a) i) summaryIndicators = true ->
  Forall (fun r => answered r = true) (analyzeAndUpdateRequirements l m a).
Proof.
  intros Hs. unfold analyzeAndUpdateRequirements.
  induction l as [|r l IH]; cbn [map]; constructor; [|exact IH].
  destruct (answered r) eqn:E; [exact E|].
  cbn [answered]. unfold checkIfRequirementInResponse. rewrite Hs.
  apply orb_true_r.
Qed.

Lemma all_answered_focus (l : list WorkflowRequirement) :
  Forall (fun r => answered r = true) l ->
  getCurrentFocus l = js "Ready for generation".
Proof.
  intros Hall. unfold getCurrentFocus.
  assert (E : List.filter (fun r => negb (answered r)) l = []).
  { induction Hall as [|r l Hr _ IH]; [reflexivity|]. cbn. now rewrite Hr. }
  now rewrite E.
Qed.

(** X3. A reply that carries one of the summary markers answers every
    requirement at once: after the update all requirements are answered,
    completeness is 100, the focus is "Ready for generation" and the
    phase is past discovery; from validation the state is ready for
    generation. *)
Theorem summary_reply_completes (s : ConversationState) (m a : jsstring) :
  existsb (fun i => includes (toLowerCase a) i) summaryIndicators = true ->
  requirements s <> [] ->
  let s' := updateConversationState s m a in
  Forall (fun r => answered r = true) (requirements s')
  /\ completeness s' = Num 100
  /\ currentFocus s' = Some (js "Ready for generation")
  /\ phase s' <> discovery
  /\ (phase s = validation -> shouldGenerateWorkflow s' = true).
Proof.
  intros Hs Hne s'.
  pose proof (summary_answers_all (requirements s) m a Hs) as Hall.
  assert (Hc : completeness s' = Num 100).
  { subst s'. cbn [completeness updateConversationState].
    apply all_answered_complete; [now apply analyze_nonempty | exact Hall]. }
  split; [exact Hall|]. split; [exact Hc|].
  split; [subst s'; cbn [currentFocus updateConversationState];
          now rewrite all_answered_focus|].
  pose proof (phase_update s m a) as Hp. fold s' in Hp. rewrite Hc in Hp.
  unfold shouldGenerateWorkflow. rewrite Hc, Hp.
  destruct (phase s); cbn; split; congruence.
Qed.

(** X4. The edges of the completeness score.  The empty list scores NaN,
    which passes no threshold.  A list that is not empty scores 100 when
    everything is answered; 0 when nothing is answered and some
    requirement has high priority; and at least 80 when no requirement
    has high priority, whatever is answered. *)
Theorem completeness_edges (l : list WorkflowRequirement) :
  (calculateCompleteness [] = NaN /\ forall k, number_ge (calculateCompleteness []) k = false)
  /\ (l <> [] -> Forall (fun r => answered r = true) l ->
      calculateCompleteness l = Num 100)
  /\ (Forall (fun r => answered r = false) l -> (0 < count isHigh l)%nat ->
      calculateCompleteness l = Num 0)
  /\ (l <> [] -> count isHigh l = 0%nat ->
      exists z, calculateCompleteness l = Num z /\ 80 <= z <= 100).
Proof.
  split; [split; [reflexivity | intros k; reflexivity]|].
  split; [apply all_answered_complete|].
  split.
  - intros Hnone Hhigh.
    assert (Hne : l <> []) by (destruct l; [cbn in Hhigh; lia | discriminate]).
    rewrite calculateCompleteness_value by exact Hne.
    destruct (none_answered_count l Hnone) as (-> & ->).
    assert (Hl : 0 < Z.of_nat (length l)) by (destruct l; [congruence | cbn; lia]).
    cbv zeta.
    replace (_ <=? _) with false by (symmetry; apply Z.leb_gt; lia).
    f_equal. apply Z.div_small. lia.
  - intros Hne Hhigh.
    destruct (calculateCompleteness_range l Hne) as (z & Hz & Hr).
    exists z. split; [exact Hz|].
    rewrite calculateCompleteness_value in Hz by exact Hne.
    rewrite Hhigh in Hz. cbv zeta in Hz.
    replace (_ <=? _) with true in Hz by (symmetry; apply Z.leb_le; lia).
    injection Hz as Hz. lia.
Qed.

Lemma runUpdates_empty (turns : list (jsstring * jsstring)) (s : ConversationState) :
  requirements s = [] -> completeness s = NaN ->
  completeness (runUpdates s turns) = NaN
  /\ phase (runUpdates s turns) = phase s
  /\ requirements (runUpdates s turns) = [].
Proof.
  revert s. induction turns as [|u turns IH]; intros s Hr Hc; [auto|].
  rewrite runUpdates_cons.
  destruct (IH (updateConversationState s (fst u) (snd u))) as (I1 & I2 & I3).
  - cbn. now rewrite Hr.
  - cbn. now rewrite Hr.
  - rewrite I1, I2, I3. repeat split; auto.
    rewrite phase_update. cbn [completeness updateConversationState]. now rewrite Hr.
Qed.

(** X5. A state without requirements never becomes ready: after one or
    more updates its completeness is NaN, its phase is the one it had and
    generation is not allowed, while the focus reads "Ready for
    generation". *)
Theorem empty_requirements_never_ready (s : ConversationState) (m a : jsstring)
    (turns : list (jsstring * jsstring)) :
  requirements s = [] ->
  let s' := runUpdates s ((m, a) :: turns) in
  completeness s' = NaN
  /\ phase s' = phase s
  /\ shouldGenerateWorkflow s' = false
  /\ currentFocus (updateConversationState s m a) = Some (js "Ready for generation").
Proof.
  intros Hr s'. subst s'. rewrite runUpdates_cons. cbn [fst snd].
  destruct (runUpdates_empty turns (updateConversationState s m a)) as (I1 & I2 & I3).
  - cbn. now rewrite Hr.
  - cbn. now rewrite Hr.
  - assert (Hp : phase (updateConversationState s m a) = phase s).
    { rewrite phase_update. cbn [completeness updateConversationState]. now rewrite Hr. }
    unfold shouldGenerateWorkflow. rewrite I1, I2, Hp.
    repeat split; auto. cbn. now rewrite Hr.
Qed.

(** The phase of a session state agrees with its completeness. *)
Lemma reachable_phase (s : ConversationState) :
  reachable s ->
  exists z, completeness s = Num z /\ 0 <= z <= 100
    /\ match phase s with
       | discovery => z < 80
       | validation => 80 <= z
       | generation => 90 <= z
       | complete => False
       end.
Proof.
  induction 1 as [userMessage | s m a Hs (z & Hz & Hr & Hp)].
  - exists 0. cbn. repeat split; lia.
  - destruct (reachable_invariant s Hs) as (Hne & z0 & Hz0 & _ & Hcalc).
    rewrite Hz in Hz0. injection Hz0 as <-.
    destruct (calculateCompleteness_mono (requirements s)
                (analyzeAndUpdateRequirements (requirements s) m a) Hne
                (analyze_grows _ m a)) as (c & c' & Hc & Hc' & Hle).
    destruct (calculateCompleteness_range
                (analyzeAndUpdateRequirements (requirements s) m a)) as (c2 & Hc2 & Hr2);
      [now apply analyze_nonempty|].
    rewrite Hc' in Hc2. injection Hc2 as <-.
    exists c'. split; [exact Hc'|]. split; [exact Hr2|].
    rewrite phase_update. cbn [completeness updateConversationState]. rewrite Hc'.
    cbn [number_ge].
    assert (Hzc : phase s <> discovery -> z <= c').
    { intros Hnd. destruct Hcalc as [-> | Hcalc].
      - destruct (phase s); try congruence; lia.
      - rewrite Hz, Hc in Hcalc. injection Hcalc as ->. exact Hle. }
    destruct (phase s); cbn [Phase_eqb]; rewrite ?andb_true_r, ?andb_false_r.
    + destruct (80 <=? c') eqn:E; [apply Z.leb_le in E | apply Z.leb_gt in E]; lia.
    + specialize (Hzc ltac:(discriminate)).
      destruct (90 <=? c') eqn:E; [apply Z.leb_le in E | apply Z.leb_gt in E]; lia.
    + specialize (Hzc ltac:(discriminate)). lia.
    + destruct Hp.
Qed.

Lemma reachable_runUpdates (turns : list (jsstring * jsstring)) (s : ConversationState) :
  reachable s -> reachable (runUpdates s turns).
Proof.
  revert s. induction turns as [|u turns IH]; intros s Hs; [exact Hs|].
  rewrite runUpdates_cons. apply IH. now constructor.
Qed.

(** X6. In a session the phase agrees with completeness: completeness is
    an integer from 0 to 100, below 80 exactly in discovery, at least 80
    in validation and at least 90 in generation; the phase "complete" is
    never reached; and generation is allowed exactly in the generation
    phase. *)
Theorem phase_matches_completeness (s : ConversationState) :
  reachable s ->
  exists z, completeness s = Num z /\ 0 <= z <= 100
    /\ (phase s = discovery <-> z < 80)
    /\ (phase s = validation -> 80 <= z)
    /\ (phase s = generation -> 90 <= z)
    /\ phase s <> complete
    /\ (shouldGenerateWorkflow s = true <-> phase s = generation).
Proof.
  intros Hs. destruct (reachable_phase s Hs) as (z & Hz & Hr & Hp).
  exists z. split; [exact Hz|]. split; [exact Hr|].
  unfold shouldGenerateWorkflow. rewrite Hz. cbn [number_ge].
  destruct (phase s); cbn [Phase_eqb]; rewrite ?andb_false_r, ?andb_true_r;
    repeat split; try congruence; try lia; try (intros; exfalso; lia); try tauto;
    try (intros _; apply Z.leb_le; lia).
Qed.

(** X7. Once generation is allowed in a session it stays allowed,
    whatever turns follow. *)
Theorem generation_ready_is_stable (s : ConversationState)
    (turns : list (jsstring * jsstring)) :
  reachable s ->
  shouldGenerateWorkflow s = true ->
  shouldGenerateWorkflow (runUpdates s turns) = true.
Proof.
  intros Hs Hg. apply shouldGenerate_phase in Hg. destruct Hg as (Hg & _).
  pose proof (runUpdates_rank turns s) as Hrank. rewrite Hg in Hrank.
  destruct (reachable_phase _ (reachable_runUpdates turns s Hs)) as (z & Hz & Hr & Hp).
  unfold shouldGenerateWorkflow. rewrite Hz. cbn [number_ge].
  destruct (phase (runUpdates s turns)); cbn in Hrank; try lia; try (destruct Hp; fail).
  cbn [Phase_eqb]. rewrite andb_true_r. apply Z.leb_le. lia.
Qed.

End TrackerExtras.

(** Instances on the example session *)

Lemma summary_reply_completes_witness :
  existsb (fun i => includes (@toLowerCase exampleEngine summaryReply) i) summaryIndicators = true
  /\ requirements helloState <> []
  /\ (Forall (fun r => answered r = true)
        (requirements (@updateConversationState exampleEngine helloState (js "hello") summaryReply))
      /\ completeness (@updateConversationState exampleEngine helloState (js "hello") summaryReply)
         = Num 100
      /\ currentFocus (@updateConversationState exampleEngine helloState (js "hello") summaryReply)
         = Some (js "Ready for generation")
      /\ phase (@updateConversationState exampleEngine helloState (js "hello") summaryReply)
         <> discovery
      /\ (phase helloState = validation ->
          @shouldGenerateWorkflow
            (@updateConversationState exampleEngine helloState (js "hello") summaryReply) = true)).
Proof.
  split; [vm_compute; reflexivity|].
  split; [vm_compute; discriminate|].
  apply (@summary_reply_completes exampleEngine helloState (js "hello") summaryReply).
  - vm_compute; reflexivity.
  - vm_compute; discriminate.
Defined.

Lemma empty_requirements_never_ready_witness :
  requirements noRequirements = []
  /\ completeness (@runUpdates exampleEngine noRequirements [(js "yes", summaryReply)]) = NaN
  /\ phase (@runUpdates exampleEngine noRequirements [(js "yes", summaryReply)])
     = phase noRequirements
  /\ shouldGenerateWorkflow (@runUpdates exampleEngine noRequirements [(js "yes", summaryReply)])
     = false
  /\ currentFocus (@updateConversationState exampleEngine noRequirements (js "yes") summaryReply)
     = Some (js "Ready for generation").
Proof.
  split; [reflexivity|].
  apply (@empty_requirements_never_ready exampleEngine noRequirements (js "yes") summaryReply []).
  reflexivity.
Defined.

Lemma phase_matches_completeness_witness :
  @reachable exampleEngine
    (@updateConversationState exampleEngine helloState (js "hello") summaryReply)
  /\ exists z,
       completeness (@updateConversationState exampleEngine helloState (js "hello") summaryReply)
       = Num z
       /\ 0 <= z <= 100
       /\ (phase (@updateConversationState exampleEngine helloState (js "hello") summaryReply)
           = discovery <-> z < 80)
       /\ (phase (@updateConversationState exampleEngine helloState (js "hello") summaryReply)
           = validation -> 80 <= z)
       /\ (phase (@updateConversationState exampleEngine helloState (js "hello") summaryReply)
           = generation -> 90 <= z)
       /\ phase (@updateConversationState exampleEngine helloState (js "hello") summaryReply)
          <> complete
       /\ (@shouldGenerateWorkflow
             (@updateConversationState exampleEngine helloState (js "hello") summaryReply) = true
           <-> phase (@updateConversationState exampleEngine helloState (js "hello") summaryReply)
               = generation).
Proof.
  assert (Hr : @reachable exampleEngine
                 (@updateConversationState exampleEngine helloState (js "hello") summaryReply)).
  { apply (@reachable_update exampleEngine). apply (@reachable_initial exampleEngine). }
  split; [exact Hr|].
  apply (@phase_matches_completeness exampleEngine _ Hr).
Defined.

Lemma generation_ready_is_stable_witness :
  @reachable exampleEngine
    (@runUpdates exampleEngine helloState [(js "hello", summaryReply); (js "yes", summaryReply)])
  /\ @shouldGenerateWorkflow
       (@runUpdates exampleEngine helloState [(js "hello", summaryReply); (js "yes", summaryReply)])
     = true
  /\ @shouldGenerateWorkflow
       (@runUpdates exampleEngine
          (@runUpdates exampleEngine helloState [(js "hello", summaryReply); (js "yes", summaryReply)])
          [(js "and also slack", js "Noted.")])
     = true.
Proof.
  assert (Hr : @reachable exampleEngine
                 (@runUpdates exampleEngine helloState
                    [(js "hello", summaryReply); (js "yes", summaryReply)])).
  { apply (@reachable_update exampleEngine _ (js "yes") summaryReply).
    apply (@reachable_update exampleEngine _ (js "hello") summaryReply).
    apply (@reachable_initial exampleEngine). }
  split; [exact Hr|].
  split; [vm_compute; reflexivity|].
  apply (@generation_ready_is_stable exampleEngine _ _ Hr).
  vm_compute; reflexivity.
Defined.

(** ** Strings *)

Lemma startsWith_app (p s : jsstring) : startsWith p (p ++ s) = true.
Proof.
  induction p as [|a p IH]; [reflexivity|].
  cbn. now rewrite N.eqb_refl, IH.
Qed.

Lemma startsWith_app_l (p s q : jsstring) :
  startsWith p s = true -> startsWith p (s ++ q) = true.
Proof.
  revert s. induction p as [|a p IH]; intros s Hs; [reflexivity|].
  destruct s as [|b s]; [discriminate|].
  cbn in *. apply andb_true_iff in Hs. destruct Hs as (-> & Hs).
  now rewrite IH.
Qed.

Lemma includes_app_l (s q sub : jsstring) :
  includes s sub = true -> includes (s ++ q) sub = true.
Proof.
  induction s as [|c s IH]; cbn [includes app].
  - rewrite orb_false_r. intros Hs. destruct sub; [|discriminate].
    destruct q; reflexivity.
  - intros Hs. apply orb_true_iff in Hs. destruct Hs as [Hs | Hs].
    + change (c :: s ++ q) with ((c :: s) ++ q).
      now rewrite (startsWith_app_l _ _ q Hs).
    + rewrite (IH Hs). apply orb_true_r.
Qed.

Lemma includes_app_r (p s sub : jsstring) :
  includes s sub = true -> includes (p ++ s) sub = true.
Proof.
  intros Hs. induction p as [|c p IH]; [exact Hs|].
  cbn [includes app]. rewrite IH. apply orb_true_r.
Qed.

Lemma includes_self_app (p sub q : jsstring) : includes (p ++ sub ++ q) sub = true.
Proof.
  apply includes_app_r. pose proof (startsWith_app sub q) as Hs.
  destruct (sub ++ q); cbn [includes]; now rewrite Hs.
Qed.

Lemma add_elem (name : jsstring) (st : Gateway.ServerState) :
  name ∈ Gateway.failedProviders (Gateway.add name st).
Proof. unfold Gateway.add. cbn. set_solver. Qed.

Lemma add_within (name : jsstring) (st : Gateway.ServerState) (names : gset jsstring) :
  Gateway.failedProviders st ⊆ names -> name ∈ names ->
  Gateway.failedProviders (Gateway.add name st) ⊆ names.
Proof.
  unfold Gateway.add. cbn. intros Hs Hn x Hx.
  apply elem_of_union in Hx. destruct Hx as [Hx | Hx]; [|now apply Hs].
  apply elem_of_singleton in Hx. now subst.
Qed.

Lemma add_keeps (name : jsstring) (st : Gateway.ServerState) :
  Gateway.failedProviders st ⊆ Gateway.failedProviders (Gateway.add name st).
Proof. unfold Gateway.add. cbn. set_solver. Qed.

Lemma reset_subset (now : Z) (st0 : Gateway.ServerState) (names : gset jsstring) :
  Gateway.failedProviders st0 ⊆ names ->
  Gateway.failedProviders (Gateway.resetSessionIfNeeded now st0) ⊆ names.
Proof.
  unfold Gateway.resetSessionIfNeeded. destruct (_ <? _); cbn; set_solver.
Qed.

Section GatewayExtras.
Context `{JsEngine}.
Variable generateSystemPrompt : ConversationState -> jsstring.

Import Gateway.

Lemma reset_within (now : Z) (st0 : ServerState) :
  now - sessionStartTime st0 <= SESSION_RESET_INTERVAL ->
  resetSessionIfNeeded now st0 = st0.
Proof.
  intros Hwin. unfold resetSessionIfNeeded.
  destruct (Z.ltb_spec SESSION_RESET_INTERVAL (now - sessionStartTime st0)); [lia | reflexivity].
Qed.

Lemma reset_after (now : Z) (st0 : ServerState) :
  SESSION_RESET_INTERVAL < now - sessionStartTime st0 ->
  resetSessionIfNeeded now st0 = {| failedProviders := ∅; sessionStartTime := now |}.
Proof.
  intros Hwin. unfold resetSessionIfNeeded.
  destruct (Z.ltb_spec SESSION_RESET_INTERVAL (now - sessionStartTime st0)); [reflexivity | lia].
Qed.

(** The four outcomes of the classification. *)
Lemma classify_cases (cause : option ErrorCause) (st : ServerState) :
  classify cause st
  = (js "OpenAI context length exceeded (conversation too long)",
     js "CONTEXT_LENGTH_EXCEEDED", true, st)
  \/ (classify cause st
      = (js "OpenAI API credits exhausted", js "CREDITS_LOW", true, add (js "openai") st)
      /\ exists c, cause = Some c /\ type c = Some (js "insufficient_quota"))
  \/ (classify cause st
      = (js "OpenAI API rate limit exceeded", js "RATE_LIMIT", true, add (js "openai") st)
      /\ exists c, cause = Some c /\ type c = Some (js "rate_limit_error"))
  \/ classify cause st = (js "OpenAI API error", js "OPENAI_UNKNOWN", false, st).
Proof.
  unfold classify, eqs. destruct cause as [c|]; [|auto].
  destruct (bool_decide (code c = _)); [auto|].
  destruct (bool_decide (type c = Some (js "insufficient_quota"))) eqn:E1.
  { apply bool_decide_eq_true in E1. right; left. eauto. }
  destruct (bool_decide (type c = Some (js "rate_limit_error"))) eqn:E2.
  { apply bool_decide_eq_true in E2. right; right; left. eauto. }
  auto.
Qed.

(** Destructs the decisions of [POST] one after the other. *)
Ltac post_cases :=
  unfold POST; cbv zeta;
  repeat match goal with
         | |- context [match classify ?c ?s with _ => _ end] =>
             let E := fresh "Hclass" in
             destruct (classify_cases c s) as [E | [(E & ?) | [(E & ?) | E]]];
             rewrite E; cbv beta iota
         | |- context [has (failedProviders (add ?n ?s)) ?n] => rewrite (has_add n s)
         | |- context [has ?s ?n] =>
             let E := fresh "Hhas" in destruct (has s n) eqn:E
         | |- context [match ?x with _ => _ end] =>
             let E := fresh "E" in destruct x eqn:E
         | |- context [if ?x then _ else _] =>
             let E := fresh "E" in destruct x eqn:E
         end.

(** X8. While OpenAI is recorded as failed and the window has not
    elapsed, the route does not call it: the outcome is the same for any
    two transports that agree on Claude, the module state is unchanged,
    and an answer comes from Claude, marked silent, with no notification
    on the client. *)
Theorem suppressed_primary_not_called (w w' : Providers) (now : Z) (st0 : ServerState)
    (apiKeyError : bool) (apiKeys : option (list ApiKey))
    (messages : list AIMessage) (cs : option ConversationState) :
  js "openai" ∈ failedProviders st0 ->
  now - sessionStartTime st0 <= SESSION_RESET_INTERVAL ->
  (forall key ms, callClaude w key ms = callClaude w' key ms) ->
  POST generateSystemPrompt w now st0 apiKeyError apiKeys messages cs
  = POST generateSystemPrompt w' now st0 apiKeyError apiKeys messages cs
  /\ fst (POST generateSystemPrompt w now st0 apiKeyError apiKeys messages cs) = st0
  /\ forall r,
       snd (POST generateSystemPrompt w now st0 apiKeyError apiKeys messages cs) = inr r ->
       res_provider r = js "claude" /\ silentFallback r = true /\ fallback r = false
       /\ Builder.fallbackNotification r = None.
Proof.
  intros Hin Hwin Hclaude.
  assert (Hhas : has (failedProviders st0) (js "openai") = true)
    by (now apply bool_decide_eq_true).
  unfold POST. cbv zeta. rewrite (reset_within _ _ Hwin), Hhas.
  destruct apiKeyError; [split; [reflexivity | split; [reflexivity | intros r Hr; discriminate]]|].
  destruct apiKeys as [[|k keys]|];
    try (split; [reflexivity | split; [reflexivity | intros r Hr; discriminate]]).
  destruct (findKey (k :: keys) "claude") as [ckey|];
    [|split; [reflexivity | split; [reflexivity | intros r Hr; discriminate]]].
  rewrite <- Hclaude.
  destruct (callClaude w (encrypted_key ckey) _);
    [|split; [reflexivity | split; [reflexivity | intros r Hr; discriminate]]].
  split; [reflexivity|]. split; [reflexivity|].
  intros r Hr. cbn [snd] in Hr. injection Hr as <-.
  repeat split; reflexivity.
Qed.

(** X9. The set of failed providers only ever holds "openai".  Within
    the window a request does not remove it and keeps the start of the
    window; after the window the set is emptied first and the window
    restarts at the time of the request.  OpenAI enters the set only
    when its call fails with a cause of type insufficient_quota or
    rate_limit_error. *)
Theorem failedProviders_invariant (w : Providers) (now : Z) (st0 : ServerState)
    (apiKeyError : bool) (apiKeys : option (list ApiKey))
    (messages : list AIMessage) (cs : option ConversationState) :
  let st' := fst (POST generateSystemPrompt w now st0 apiKeyError apiKeys messages cs) in
  (failedProviders st0 ⊆ {[ js "openai" ]} -> failedProviders st' ⊆ {[ js "openai" ]})
  /\ (now - sessionStartTime st0 <= SESSION_RESET_INTERVAL ->
      failedProviders st0 ⊆ failedProviders st'
      /\ sessionStartTime st' = sessionStartTime st0)
  /\ (SESSION_RESET_INTERVAL < now - sessionStartTime st0 ->
      failedProviders st' ⊆ {[ js "openai" ]} /\ sessionStartTime st' = now)
  /\ (js "openai" ∈ failedProviders st' ->
      js "openai" ∈ failedProviders (resetSessionIfNeeded now st0)
      \/ exists key ms message cause,
           callOpenAI w key ms = Threw message (Some cause)
           /\ (type cause = Some (js "insufficient_quota")
               \/ type cause = Some (js "rate_limit_error"))).
Proof.
  intros st'.
  assert (Hst : st' = resetSessionIfNeeded now st0
                \/ (st' = add (js "openai") (resetSessionIfNeeded now st0)
                    /\ exists key ms message cause,
                         callOpenAI w key ms = Threw message (Some cause)
                         /\ (type cause = Some (js "insufficient_quota")
                             \/ type cause = Some (js "rate_limit_error")))).
  { subst st'. post_cases; cbn [fst]; auto.
    all: right; split; [reflexivity|].
    all: match goal with
         | Hx : ex _ |- _ => destruct Hx as (c0 & -> & Hc)
         end.
    all: eauto 10. }
  clearbody st'.
  split; [|split; [|split]].
  - intros Hsub. destruct Hst as [-> | (-> & _)].
    + now apply reset_subset.
    + apply add_within; [now apply reset_subset | now apply elem_of_singleton].
  - intros Hwin. rewrite (reset_within _ _ Hwin) in Hst.
    destruct Hst as [-> | (-> & _)]; (split; [|reflexivity]);
      [reflexivity | apply add_keeps].
  - intros Hwin. rewrite (reset_after _ _ Hwin) in Hst.
    destruct Hst as [-> | (-> & _)]; (split; [|reflexivity]).
    + cbn. apply empty_subseteq.
    + apply add_within; [cbn; apply empty_subseteq | now apply elem_of_singleton].
  - intros Hin. destruct Hst as [-> | (-> & Hc)]; [left; exact Hin | right; exact Hc].
Qed.

Lemma has_false_add_false (st : ServerState) :
  has (failedProviders st) (js "openai") = false -> js "openai" ∉ failedProviders st.
Proof. intros Hh. now apply bool_decide_eq_false in Hh. Qed.

(** X10. The notification the client shows for an answer of the route.
    It is shown exactly when the answer is a fallback and OpenAI was not
    recorded as failed by the request; it is then always the generic
    "Provider Switched" one, with the code CONTEXT_LENGTH_EXCEEDED or
    OPENAI_UNKNOWN: the notifications for exhausted credits, a rate limit
    or an overload are never shown. *)
Theorem notification_only_generic (w : Providers) (now : Z) (st0 : ServerState)
    (apiKeyError : bool) (apiKeys : option (list ApiKey))
    (messages : list AIMessage) (cs : option ConversationState)
    (st' : ServerState) (r : AIResponse) :
  POST generateSystemPrompt w now st0 apiKeyError apiKeys messages cs = (st', inr r) ->
  (Builder.fallbackNotification r <> None
   <-> fallback r = true /\ js "openai" ∉ failedProviders st')
  /\ forall n, Builder.fallbackNotification r = Some n ->
       Builder.title n = js "Provider Switched"
       /\ Builder.type n = Builder.fallback
       /\ (errorCode r = Some (js "CONTEXT_LENGTH_EXCEEDED")
           \/ errorCode r = Some (js "OPENAI_UNKNOWN")).
Proof.
  revert st' r. post_cases; intros st' r Hr; try discriminate;
    injection Hr as <- <-.
  all: unfold Builder.fallbackNotification, respond, plain;
    cbn [fallback errorCode showNotification silentFallback fallbackReason
         res_content res_provider originalProvider fallbackProvider].
  all: rewrite ?has_add.
  all: repeat match goal with
              | Hh : has _ _ = _ |- _ => rewrite Hh
              end.
  all: cbn [andb negb].
  all: try (split; [split; [congruence | intros (Hf & _); discriminate]
                   | intros n Hn; discriminate]).
  all: match goal with
       | |- context [if ?b then ?x else None] =>
           let v := eval vm_compute in (if b then x else None) in
           change (if b then x else None) with v
       end.
  all: try (split; [split; [intros Hn; exfalso; apply Hn; reflexivity
                           | intros (_ & Hnot); exfalso; apply Hnot; apply add_elem]
                   | intros n Hn; discriminate]).
  all: (split; [split; [intros _; split; [reflexivity | now apply has_false_add_false]
                       | intros _; discriminate]
               | intros n Hn; injection Hn as <-; repeat split; auto]).
Qed.

(** The fallback branch of [POST], reached by a failure that is
    temporary or classified. *)
Lemma POST_fallback (w : Providers) (now : Z) (st0 : ServerState)
    (keys : list ApiKey) (messages : list AIMessage) (cs : option ConversationState)
    (okey ckey : ApiKey) (message text reason code_ : jsstring)
    (cause : option ErrorCause) (shouldFallback : bool) (st1 : ServerState) :
  findKey keys "openai" = Some okey ->
  findKey keys "claude" = Some ckey ->
  has (failedProviders (resetSessionIfNeeded now st0)) (js "openai") = false ->
  (forall ms, callOpenAI w (encrypted_key okey) ms = Threw message cause) ->
  (forall ms, callClaude w (encrypted_key ckey) ms = Returned text) ->
  classify cause (resetSessionIfNeeded now st0) = (reason, code_, shouldFallback, st1) ->
  includes message (js "529") || includes message (js "overloaded")
  || includes message (js "rate_limit") || includes message (js "503")
  || includes message (js "timeout") || shouldFallback = true ->
  exists r,
    POST generateSystemPrompt w now st0 false (Some keys) messages cs = (st1, inr r)
    /\ res_content r = text /\ res_provider r = js "claude"
    /\ fallback r = true /\ fallbackReason r = Some reason
    /\ errorCode r = Some code_
    /\ originalProvider r = Some (js "openai")
    /\ showNotification r = Some (negb (has (failedProviders st1) (js "openai")))
    /\ silentFallback r = false.
Proof.
  intros Ho Hc Hhas Hopen Hclaude Hclass Htemp.
  destruct (findKey_nonempty _ _ _ Ho) as (k0 & rest & ->).
  unfold POST. cbv zeta. rewrite Ho, Hc, Hhas, Hopen, Hclass, Htemp, Hclaude.
  eexists. split; [reflexivity|]. repeat split; reflexivity.
Qed.

(** The branch without fallback. *)
Lemma POST_no_fallback (w : Providers) (now : Z) (st0 : ServerState)
    (keys : list ApiKey) (messages : list AIMessage) (cs : option ConversationState)
    (okey : ApiKey) (message reason code_ : jsstring)
    (cause : option ErrorCause) (st1 : ServerState) :
  findKey keys "openai" = Some okey ->
  has (failedProviders (resetSessionIfNeeded now st0)) (js "openai") = false ->
  (forall ms, callOpenAI w (encrypted_key okey) ms = Threw message cause) ->
  classify cause (resetSessionIfNeeded now st0) = (reason, code_, false, st1) ->
  includes message (js "529") || includes message (js "overloaded")
  || includes message (js "rate_limit") || includes message (js "503")
  || includes message (js "timeout") = false ->
  POST generateSystemPrompt w now st0 false (Some keys) messages cs
  = (st1, inl {| status := 503; error := js "OpenAI API error occurred";
                 err_errorCode := Some code_ |}).
Proof.
  intros Ho Hhas Hopen Hclass Htemp.
  destruct (findKey_nonempty _ _ _ Ho) as (k0 & rest & ->).
  unfold POST. cbv zeta. rewrite Ho, Hhas, Hopen, Hclass, orb_false_r, Htemp.
  reflexivity.
Qed.

Lemma classify_unclassified (cause : option ErrorCause) (st : ServerState) :
  (forall c, cause = Some c ->
     code c <> Some (js "context_length_exceeded")
     /\ type c <> Some (js "insufficient_quota")
     /\ type c <> Some (js "rate_limit_error")) ->
  classify cause st = (js "OpenAI API error", js "OPENAI_UNKNOWN", false, st).
Proof.
  intros Hc. unfold classify, eqs. destruct cause as [c|]; [|reflexivity].
  destruct (Hc c eq_refl) as (H1 & H2 & H3).
  now rewrite !bool_decide_eq_false_2.
Qed.

(** X11. With Claude configured and answering, the only error the chat
    route returns once the keys are read is the one for an OpenAI
    failure that is neither classified nor temporary by its message: 503
    with the code OPENAI_UNKNOWN, and OpenAI is not recorded as failed. *)
Theorem backup_leaves_one_error (w : Providers) (now : Z) (st0 : ServerState)
    (keys : list ApiKey) (messages : list AIMessage) (cs : option ConversationState)
    (ckey : ApiKey) (st' : ServerState) (e : ErrorResponse) :
  findKey keys "claude" = Some ckey ->
  (forall ms, exists text, callClaude w (encrypted_key ckey) ms = Returned text) ->
  POST generateSystemPrompt w now st0 false (Some keys) messages cs = (st', inl e) ->
  e = {| status := 503; error := js "OpenAI API error occurred";
         err_errorCode := Some (js "OPENAI_UNKNOWN") |}
  /\ st' = resetSessionIfNeeded now st0
  /\ exists okey ms message cause,
       findKey keys "openai" = Some okey
       /\ callOpenAI w (encrypted_key okey) ms = Threw message cause
       /\ classify cause (resetSessionIfNeeded now st0)
          = (js "OpenAI API error", js "OPENAI_UNKNOWN", false, resetSessionIfNeeded now st0)
       /\ includes message (js "529") = false
       /\ includes message (js "overloaded") = false
       /\ includes message (js "rate_limit") = false
       /\ includes message (js "503") = false
       /\ includes message (js "timeout") = false.
Proof.
  intros Hc Hclaude. revert st' e.
  destruct (findKey_nonempty _ _ _ Hc) as (k0 & rest & ->).
  unfold POST. cbv zeta. rewrite Hc.
  set (ms := _ :: List.filter _ messages).
  destruct (Hclaude ms) as (text & Htext). rewrite Htext.
  destruct (has _ _) eqn:Hhas; [intros st' e He; discriminate|].
  destruct (findKey _ "openai") as [okey|] eqn:Ho; [|intros st' e He; discriminate].
  destruct (callOpenAI w (encrypted_key okey) ms) as [t|message cause] eqn:Hopen;
    [intros st' e He; discriminate|].
  destruct (classify_cases cause (resetSessionIfNeeded now st0))
    as [E | [(E & _) | [(E & _) | E]]]; rewrite E;
    rewrite ?orb_true_r; try (intros st' e He; discriminate).
  rewrite orb_false_r.
  destruct (_ || _) eqn:Htemp; [intros st' e He; discriminate|].
  intros st' e He. injection He as <- <-.
  split; [reflexivity|]. split; [reflexivity|].
  exists okey, ms, message, cause.
  repeat (apply orb_false_iff in Htemp; destruct Htemp as (Htemp & ?)).
  repeat split; auto.
Qed.

(** X12. An OpenAI failure that is neither classified nor temporary by
    its message is not retried on Claude: whatever Claude would do, and
    whether it is configured or not, the route answers 503 with the code
    OPENAI_UNKNOWN and leaves the failed set as it is. *)
Theorem unclassified_failure_no_fallback (w : Providers) (now : Z) (st0 : ServerState)
    (keys : list ApiKey) (messages : list AIMessage) (cs : option ConversationState)
    (okey : ApiKey) (message : jsstring) (cause : option ErrorCause) :
  findKey keys "openai" = Some okey ->
  has (failedProviders (resetSessionIfNeeded now st0)) (js "openai") = false ->
  (forall ms, callOpenAI w (encrypted_key okey) ms = Threw message cause) ->
  (forall c, cause = Some c ->
     code c <> Some (js "context_length_exceeded")
     /\ type c <> Some (js "insufficient_quota")
     /\ type c <> Some (js "rate_limit_error")) ->
  includes message (js "529") || includes message (js "overloaded")
  || includes message (js "rate_limit") || includes message (js "503")
  || includes message (js "timeout") = false ->
  POST generateSystemPrompt w now st0 false (Some keys) messages cs
  = (resetSessionIfNeeded now st0,
     inl {| status := 503; error := js "OpenAI API error occurred";
            err_errorCode := Some (js "OPENAI_UNKNOWN") |}).
Proof.
  intros Ho Hhas Hopen Hcause Htemp.
  apply (POST_no_fallback w now st0 keys messages cs okey message
           (js "OpenAI API error") (js "OPENAI_UNKNOWN") cause); auto.
  now apply classify_unclassified.
Qed.

(** X13. An OpenAI answer that is not ok and whose body is a JSON object
    with [error.type] "insufficient_quota" makes the route answer from
    Claude with the code CREDITS_LOW and record OpenAI as failed,
    whatever the status. *)
Theorem quota_body_suppresses_primary (w : Providers) (now : Z) (st0 : ServerState)
    (keys : list ApiKey) (messages : list AIMessage) (cs : option ConversationState)
    (okey ckey : ApiKey) (status_ : Z) (body text : jsstring)
    (members details : list (jsstring * json)) :
  findKey keys "openai" = Some okey ->
  findKey keys "claude" = Some ckey ->
  has (failedProviders (resetSessionIfNeeded now st0)) (js "openai") = false ->
  (forall ms, callOpenAI w (encrypted_key okey) ms = Transport.callOpenAI_notOk status_ body) ->
  (forall ms, callClaude w (encrypted_key ckey) ms = Returned text) ->
  JSON_parse body = Some (JObject members) ->
  lookupMember (js "error") members = Some (JObject details) ->
  lookupMember (js "type") details = Some (JString (js "insufficient_quota")) ->
  lookupMember (js "code") details <> Some (JString (js "context_length_exceeded")) ->
  exists st' r,
    POST generateSystemPrompt w now st0 false (Some keys) messages cs = (st', inr r)
    /\ res_content r = text /\ res_provider r = js "claude"
    /\ fallback r = true
    /\ fallbackReason r = Some (js "OpenAI API credits exhausted")
    /\ errorCode r = Some (js "CREDITS_LOW")
    /\ js "openai" ∈ failedProviders st'.
Proof.
  intros Ho Hc Hhas Hopen Hclaude Hparse Herror Htype Hcode.
  assert (Hcause : Transport.callOpenAI_notOk status_ body
                   = Threw (js "OpenAI API error: " ++ toString status_ ++ js " - " ++ body)
                           (Some {| type := Some (js "insufficient_quota");
                                    code := Transport.stringMember "code" details |})).
  { unfold Transport.callOpenAI_notOk, Transport.errorDetails.
    rewrite Hparse, Herror. cbn [truthy Transport.causeOf].
    unfold Transport.stringMember at 1. now rewrite Htype. }
  assert (Hclass : classify (Some {| type := Some (js "insufficient_quota");
                                     code := Transport.stringMember "code" details |})
                            (resetSessionIfNeeded now st0)
                   = (js "OpenAI API credits exhausted", js "CREDITS_LOW", true,
                      add (js "openai") (resetSessionIfNeeded now st0))).
  { unfold classify, eqs. cbn [type code].
    rewrite bool_decide_eq_false_2.
    - now rewrite bool_decide_eq_true_2.
    - unfold Transport.stringMember. intros E. apply Hcode.
      destruct (lookupMember (js "code") details) as [[]|]; congruence. }
  destruct (POST_fallback w now st0 keys messages cs okey ckey _ text _ _ _ _ _
              Ho Hc Hhas (fun ms => eq_trans (Hopen ms) Hcause) Hclaude Hclass)
    as (r & Hr & H1 & H2 & H3 & H4 & H5 & _).
  { apply orb_true_r. }
  exists (add (js "openai") (resetSessionIfNeeded now st0)), r.
  repeat split; auto. apply add_elem.
Qed.

(** X14. An OpenAI answer that is not ok is retried on Claude whenever
    its status is 503 or 529, or its body mentions "overloaded",
    "timeout" or "rate_limit", whatever else the body holds. *)
Theorem overload_status_falls_back (w : Providers) (now : Z) (st0 : ServerState)
    (keys : list ApiKey) (messages : list AIMessage) (cs : option ConversationState)
    (okey ckey : ApiKey) (status_ : Z) (body text : jsstring) :
  findKey keys "openai" = Some okey ->
  findKey keys "claude" = Some ckey ->
  has (failedProviders (resetSessionIfNeeded now st0)) (js "openai") = false ->
  (forall ms, callOpenAI w (encrypted_key okey) ms = Transport.callOpenAI_notOk status_ body) ->
  (forall ms, callClaude w (encrypted_key ckey) ms = Returned text) ->
  status_ = 503 \/ status_ = 529
  \/ includes body (js "overloaded") = true
  \/ includes body (js "timeout") = true
  \/ includes body (js "rate_limit") = true ->
  exists st' r,
    POST generateSystemPrompt w now st0 false (Some keys) messages cs = (st', inr r)
    /\ res_content r = text /\ res_provider r = js "claude"
    /\ fallback r = true
    /\ originalProvider r = Some (js "openai").
Proof.
  intros Ho Hc Hhas Hopen Hclaude Hmark.
  unfold Transport.callOpenAI_notOk in Hopen.
  set (message := js "OpenAI API error: " ++ toString status_ ++ js " - " ++ body) in *.
  set (cause := Transport.causeOf _) in *.
  destruct (classify cause (resetSessionIfNeeded now st0)) as [[[reason code_] sf] st1] eqn:Hclass.
  assert (Htemp : includes message (js "529") || includes message (js "overloaded")
                  || includes message (js "rate_limit") || includes message (js "503")
                  || includes message (js "timeout") || sf = true).
  { assert (Hbody : forall m, includes body m = true -> includes message m = true).
    { intros m Hm. unfold message. rewrite !app_assoc. now apply includes_app_r. }
    destruct Hmark as [-> | [-> | [Hm | [Hm | Hm]]]].
    - assert (E : includes message (js "503") = true)
        by (unfold message; apply (includes_self_app _ (js "503"))).
      rewrite E. now rewrite !orb_true_r.
    - assert (E : includes message (js "529") = true)
        by (unfold message; apply (includes_self_app _ (js "529"))).
      now rewrite E.
    - rewrite (Hbody _ Hm). now rewrite !orb_true_r.
    - rewrite (Hbody _ Hm). now rewrite !orb_true_r.
    - rewrite (Hbody _ Hm). now rewrite !orb_true_r. }
  destruct (POST_fallback w now st0 keys messages cs okey ckey message text reason code_
              cause sf st1 Ho Hc Hhas Hopen Hclaude Hclass Htemp)
    as (r & Hr & H1 & H2 & H3 & _ & _ & H6 & _).
  exists st1, r. repeat split; auto.
Qed.

(** X15. The suppression ends with the window.  A request that comes
    more than 30 minutes after the window started empties the failed set
    and restarts the window before anything else: OpenAI, recorded as
    failed or not, is called again, and when it answers the answer is
    its own, not a fallback and not marked silent. *)
Theorem suppression_expires (w : Providers) (now : Z) (st0 : ServerState)
    (keys : list ApiKey) (messages : list AIMessage) (cs : option ConversationState)
    (okey : ApiKey) (text : jsstring) :
  SESSION_RESET_INTERVAL < now - sessionStartTime st0 ->
  findKey keys "openai" = Some okey ->
  (forall ms, callOpenAI w (encrypted_key okey) ms = Returned text) ->
  exists r,
    POST generateSystemPrompt w now st0 false (Some keys) messages cs
    = ({| failedProviders := ∅; sessionStartTime := now |}, inr r)
    /\ res_content r = text /\ res_provider r = js "openai"
    /\ fallback r = false /\ silentFallback r = false
    /\ Builder.fallbackNotification r = None.
Proof.
  intros Hwin Ho Hopen.
  destruct (findKey_nonempty _ _ _ Ho) as (k0 & rest & ->).
  unfold POST. cbv zeta. rewrite (reset_after _ _ Hwin).
  cbn [failedProviders].
  assert (Hhas : has (∅ : gset jsstring) (js "openai") = false).
  { apply bool_decide_eq_false. apply not_elem_of_empty. }
  rewrite Hhas, Ho, Hopen.
  eexists. split; [reflexivity|]. repeat split; reflexivity.
Qed.

End GatewayExtras.

Section GenerationExtras.
Context `{JsEngine}.

Import Gateway.

(** X16. The generation branch of the route.  It leaves the failed set
    to the reset alone: no failure is recorded.  With Claude configured
    and answering, it always answers once the keys are read; the answer
    is flagged as a fallback exactly when it comes from Claude after an
    OpenAI failure, and any OpenAI failure is retried, classified or
    not. *)
Theorem generation_branch_falls_back (w : Providers) (now : Z) (st0 : ServerState)
    (apiKeyError : bool) (apiKeys : option (list ApiKey)) (messages : list AIMessage) :
  fst (Generation.POST w now st0 apiKeyError apiKeys messages) = resetSessionIfNeeded now st0
  /\ (forall r, snd (Generation.POST w now st0 apiKeyError apiKeys messages) = inr r ->
        Generation.isWorkflowGeneration r = true
        /\ (res_provider (Generation.response r) = js "openai"
            \/ res_provider (Generation.response r) = js "claude")
        /\ (fallback (Generation.response r) = true ->
            res_provider (Generation.response r) = js "claude"
            /\ exists key ms message cause, callOpenAI w key ms = Threw message cause))
  /\ (forall keys ckey,
        apiKeyError = false -> apiKeys = Some keys ->
        findKey keys "claude" = Some ckey ->
        (forall ms, exists text, callClaude w (encrypted_key ckey) ms = Returned text) ->
        exists r, snd (Generation.POST w now st0 apiKeyError apiKeys messages) = inr r).
Proof.
  split; [|split].
  - unfold Generation.POST. cbv zeta.
    repeat match goal with
           | |- context [match ?x with _ => _ end] => destruct x
           | |- context [if ?x then _ else _] => destruct x
           end; reflexivity.
  - intros r. unfold Generation.POST. cbv zeta.
    repeat match goal with
           | |- context [match ?x with _ => _ end] =>
               let E := fresh "E" in destruct x eqn:E
           | |- context [if ?x then _ else _] =>
               let E := fresh "E" in destruct x eqn:E
           end; cbn [snd]; intros Hr; try discriminate; injection Hr as <-;
      cbn [Generation.isWorkflowGeneration Generation.response res_provider fallback plain];
      (split; [reflexivity|]); (split; [auto|]); try (intros Hf; discriminate).
    intros _. split; [reflexivity|]. eauto.
  - intros keys ckey -> -> Hc Hclaude.
    destruct (findKey_nonempty _ _ _ Hc) as (k0 & rest & ->).
    unfold Generation.POST. cbv zeta. rewrite Hc.
    set (ms := _ :: _ ++ _).
    destruct (Hclaude ms) as (text & ->).
    destruct (if has _ _ then None else _); [destruct (callOpenAI _ _ _)|];
      cbn [snd]; eauto.
Qed.

(** X17. An error of the generation branch reaches the user as it is:
    the handler shows the text of the route's error, appends one error
    message to the log, shows the button again and makes no call to the
    storage service or to a callback. *)
Theorem generation_error_shown_verbatim (w : Providers) (now now' : Z) (st0 : ServerState)
    (apiKeyError : bool) (apiKeys : option (list ApiKey)) (b : Builder.Builder)
    (st' : ServerState) (e : ErrorResponse) :
  Generation.POST w now st0 apiKeyError apiKeys
    (Generation.conversationHistory (Builder.messages b)) = (st', inl e) ->
  let after := Builder.handleGenerateWorkflow now' (Generation.fetched (inl e)) b in
  Builder.errorText (fst after) = error e
  /\ snd after = []
  /\ Builder.showGenerateButton (fst after) = true
  /\ Builder.workflowGenerated (fst after) = Builder.workflowGenerated b
  /\ exists m, Builder.messages (fst after) = Builder.messages b ++ [m]
               /\ Builder.error m = true.
Proof.
  intros Hpost after.
  assert (He : In (error e)
                 [js "Failed to fetch API keys"; js "No API keys configured";
                  js "Workflow generation failed - all AI providers unavailable";
                  js "Internal server error occurred while processing your request";
                  js "Workflow generation failed - Claude API unavailable";
                  js "No AI providers configured for workflow generation"]).
  { revert Hpost. unfold Generation.POST. cbv zeta.
    repeat match goal with
           | |- context [match ?x with _ => _ end] => destruct x
           | |- context [if ?x then _ else _] => destruct x
           end; intros Hpost; try discriminate; injection Hpost as _ <-;
      cbn [error In]; auto 10. }
  assert (Hg : exists c t, error e = c :: t
                           /\ Builder.shownError (c :: t) = c :: t).
  { cbn [In] in He.
    destruct He as [<- | [<- | [<- | [<- | [<- | [<- | []]]]]]];
      eexists; eexists; (split; [vm_compute; reflexivity | vm_compute; reflexivity]). }
  destruct Hg as (c & t & Hct & Hshown).
  subst after. unfold Builder.handleGenerateWorkflow, Generation.fetched.
  cbn [Builder.generate]. rewrite Hct.
  cbn [fst snd Builder.errorText Builder.showGenerateButton Builder.workflowGenerated
       Builder.messages].
  rewrite Hshown. repeat split; auto.
  eexists. split; [reflexivity|]. reflexivity.
Qed.

End GenerationExtras.

(** ** Searching and slicing a string *)

Lemma indexOf_from_spec (c : N) (s : jsstring) (i : Z) :
  indexOf_from c s i = -1
  \/ exists k : nat, indexOf_from c s i = i + Z.of_nat k /\ s !! k = Some c.
Proof.
  revert i. induction s as [|x t IH]; intros i; cbn [indexOf_from]; [auto|].
  destruct (N.eqb_spec x c) as [-> | Hne].
  - right. exists 0%nat. split; [lia | reflexivity].
  - destruct (IH (i + 1)) as [E | (k & E & Hk)]; [auto|].
    right. exists (S k). split; [lia | exact Hk].
Qed.

Lemma lastIndexOf_from_spec (c : N) (s : jsstring) (i last : Z) :
  lastIndexOf_from c s i last = last
  \/ exists k : nat, lastIndexOf_from c s i last = i + Z.of_nat k /\ s !! k = Some c.
Proof.
  revert i last. induction s as [|x t IH]; intros i last; cbn [lastIndexOf_from]; [auto|].
  destruct (IH (i + 1) (if N.eqb x c then i else last)) as [E | (k & E & Hk)].
  - rewrite E. destruct (N.eqb_spec x c) as [-> | Hne]; [|auto].
    right. exists 0%nat. split; [lia | reflexivity].
  - right. exists (S k). split; [lia | exact Hk].
Qed.

Lemma substring_slice (s : jsstring) (a b : nat) (x y : N) :
  (a < b)%nat -> s !! a = Some x -> s !! b = Some y ->
  head (substring s (Z.of_nat a) (Z.of_nat b + 1)) = Some x
  /\ last (substring s (Z.of_nat a) (Z.of_nat b + 1)) = Some y.
Proof.
  intros Hab Ha Hb.
  pose proof (lookup_lt_Some _ _ _ Hb) as Hlen.
  unfold substring.
  replace (Z.min (Z.max (Z.of_nat a) 0) (Z.of_nat (length s))) with (Z.of_nat a) by lia.
  replace (Z.min (Z.max (Z.of_nat b + 1) 0) (Z.of_nat (length s))) with (Z.of_nat b + 1) by lia.
  replace (Z.min (Z.of_nat a) (Z.of_nat b + 1)) with (Z.of_nat a) by lia.
  replace (Z.max (Z.of_nat a) (Z.of_nat b + 1)) with (Z.of_nat b + 1) by lia.
  replace (Z.to_nat (Z.of_nat b + 1 - Z.of_nat a)) with (S (b - a)) by lia.
  rewrite Nat2Z.id. split.
  - rewrite head_lookup, lookup_take_lt by lia. rewrite lookup_drop.
    now replace (a + 0)%nat with a by lia.
  - rewrite last_lookup, length_take, length_drop.
    replace (Nat.pred (S (b - a) `min` (length s - a))) with (b - a)%nat by lia.
    rewrite lookup_take_lt by lia. rewrite lookup_drop.
    now replace (a + (b - a))%nat with b by lia.
Qed.

Section GenerateExtras.
Context `{JsEngine}.

Import Builder.

(** The text [extractJson] returns is a slice from an opening brace to a
    closing brace. *)
Lemma extractJson_braces (content w : jsstring) :
  extractJson content = inr w ->
  head w = Some (ch "{") /\ last w = Some (ch "}").
Proof.
  unfold extractJson, indexOf, lastIndexOf. cbv zeta.
  remember (ch "{") as o eqn:Ho. remember (ch "}") as c eqn:Hc'.
  remember (stripFences (trim content)) as text eqn:Ht.
  destruct (indexOf_from_spec o text 0) as [E | (a & Ea & Ha)];
    [rewrite E, Z.eqb_refl; cbn [orb]; case_ifs; discriminate|].
  destruct (lastIndexOf_from_spec c text 0 (-1)) as [E | (b & Eb & Hb)];
    [rewrite E, Z.eqb_refl, orb_true_r; cbn [orb]; case_ifs; discriminate|].
  rewrite Z.add_0_l in Ea, Eb. rewrite Ea, Eb.
  destruct (_ || _) eqn:Hc; [case_ifs; discriminate|].
  intros E. injection E as <-.
  apply orb_false_iff in Hc. destruct Hc as (_ & Hlt). apply Z.leb_gt in Hlt.
  apply substring_slice; [lia | exact Ha | exact Hb].
Qed.

Lemma nodeInvalid_false (node : json) :
  nodeInvalid node = inr false ->
  exists members name type_,
    node = JObject members
    /\ lookupMember (js "name") members = Some name /\ truthy name = true
    /\ lookupMember (js "type") members = Some type_ /\ truthy type_ = true.
Proof.
  unfold nodeInvalid, getProp.
  destruct node as [| | | | |members]; try discriminate.
  destruct (lookupMember (js "name") members) as [name|] eqn:En; [|discriminate].
  cbn [truthyOpt]. destruct (truthy name) eqn:Tn; [|discriminate]. cbn [negb].
  destruct (lookupMember (js "type") members) as [type_|] eqn:Et; [|discriminate].
  cbn [truthyOpt]. destruct (truthy type_) eqn:Tt; [|discriminate].
  intros _. exists members, name, type_. auto.
Qed.

Lemma invalidNodes_none (nodes : list json) :
  invalidNodes nodes = inr [] -> Forall (fun n => nodeInvalid n = inr false) nodes.
Proof.
  induction nodes as [|n rest IH]; cbn [invalidNodes]; [constructor|].
  destruct (nodeInvalid n) as [e|b] eqn:En; [discriminate|].
  destruct (invalidNodes rest) as [e|l] eqn:El; [discriminate|].
  destruct b; [discriminate|]. intros [= ->]. constructor; auto.
Qed.

Lemma checkWorkflow_accepts (parsed : json) (nodes : list json) :
  checkWorkflow parsed = inr nodes ->
  exists members,
    parsed = JObject members
    /\ lookupMember (js "nodes") members = Some (JArray nodes)
    /\ nodes <> []
    /\ Forall (fun n => nodeInvalid n = inr false) nodes.
Proof.
  unfold checkWorkflow, getProp.
  destruct parsed as [| | | | |members]; try discriminate.
  destruct (lookupMember (js "nodes") members) as [[| | | |items|]|] eqn:En; try discriminate.
  destruct items as [|n rest]; [discriminate|].
  cbn [length Nat.eqb].
  destruct (invalidNodes (n :: rest)) as [e|invalid] eqn:Ei; [discriminate|].
  destruct invalid as [|i invalid]; [|discriminate].
  cbn [length Nat.ltb Nat.leb]. intros [= <-].
  exists members. split; [reflexivity|]. split; [exact En|].
  split; [discriminate|]. now apply invalidNodes_none.
Qed.

Lemma generate_accepts (response : FetchResult) (w : jsstring) (parsed : json) (p : jsstring) :
  generate response = inr (w, parsed, p) ->
  exists content nodes,
    response = Ok content p
    /\ extractJson content = inr w
    /\ JSON_parse w = Some parsed
    /\ checkWorkflow parsed = inr nodes.
Proof.
  unfold generate. destruct response as [m|[[|c e]|]|content provider_]; try discriminate.
  destruct (extractJson content) as [e|w'] eqn:Ew; [discriminate|].
  destruct (JSON_parse w') as [parsed'|] eqn:Ep; [|discriminate].
  destruct (checkWorkflow parsed') as [e|nodes] eqn:Ec; [discriminate|].
  intros [= <- <- <-]. exists content, nodes. auto.
Qed.

(** X18. What an accepted generation holds: the reply was read, the
    text kept is a slice of it that starts with an opening brace, ends
    with a closing brace and parses to the artifact; the artifact is an
    object whose [nodes] is an array that is not empty, and every node is
    an object with a truthy name and a truthy type. *)
Theorem accepted_artifact_is_valid (response : FetchResult) (w : jsstring)
    (parsed : json) (p : jsstring) :
  generate response = inr (w, parsed, p) ->
  (exists content, response = Ok content p /\ extractJson content = inr w)
  /\ head w = Some (ch "{") /\ last w = Some (ch "}")
  /\ JSON_parse w = Some parsed
  /\ exists members nodes,
       parsed = JObject members
       /\ lookupMember (js "nodes") members = Some (JArray nodes)
       /\ nodes <> []
       /\ Forall (fun node =>
                    exists ms name type_,
                      node = JObject ms
                      /\ lookupMember (js "name") ms = Some name /\ truthy name = true
                      /\ lookupMember (js "type") ms = Some type_ /\ truthy type_ = true)
                 nodes.
Proof.
  intros Hg. destruct (generate_accepts _ _ _ _ Hg) as (content & nodes & -> & Hw & Hp & Hc).
  destruct (extractJson_braces _ _ Hw) as (Hh & Hl).
  destruct (checkWorkflow_accepts _ _ Hc) as (members & -> & Hn & Hne & Hall).
  split; [eauto|]. repeat (split; [assumption|]).
  exists members, nodes. split; [reflexivity|]. repeat (split; [assumption|]).
  eapply Forall_impl; [exact Hall|]. intros node Hnode. now apply nodeInvalid_false.
Qed.

(** X19. What leaves the generation handler.  At most one write
    reaches the storage service; a write carries the status "generated",
    the id of the current workflow and the accepted artifact; the text
    handed to [onWorkflowGenerated] parses to that artifact; and
    [onWorkflowUpdated] is called only right after a write that came
    first. *)
Theorem stored_artifact_matches_panel (now : Z) (response : FetchResult) (b : Builder) :
  let effects := snd (handleGenerateWorkflow now response b) in
  (length (List.filter isStorageWrite effects) <= 1)%nat
  /\ (forall workflowId artifact status_,
        In (updateWorkflowJsonAndStatus workflowId artifact status_) effects ->
        status_ = js "generated"
        /\ currentWorkflowId b = Some workflowId /\ workflowId <> []
        /\ exists w p,
             generate response = inr (w, artifact, p)
             /\ (has_onWorkflowGenerated b = true -> In (onWorkflowGenerated w) effects))
  /\ (forall w, In (onWorkflowGenerated w) effects ->
        exists artifact p,
          generate response = inr (w, artifact, p) /\ JSON_parse w = Some artifact)
  /\ (In onWorkflowUpdated effects ->
      exists workflowId artifact rest,
        effects = updateWorkflowJsonAndStatus workflowId artifact (js "generated")
                  :: onWorkflowUpdated :: rest).
Proof.
  intros effects. subst effects. unfold handleGenerateWorkflow.
  destruct (generate response) as [e|[[w parsed] p]] eqn:Hg; cbn [snd].
  { split; [cbn; lia|]. split; [intros ? ? ? []|]. split; [intros ? []|intros []]. }
  destruct (generate_accepts _ _ _ _ Hg) as (content & nodes & _ & _ & Hp & _).
  split; [|split; [|split]].
  - destruct (currentWorkflowId b) as [[|c i]|];
      destruct (has_onWorkflowUpdated b), (has_onWorkflowGenerated b); cbn; lia.
  - intros workflowId artifact status_ Hin.
    destruct (currentWorkflowId b) as [[|c i]|];
      destruct (has_onWorkflowUpdated b), (has_onWorkflowGenerated b);
      cbn [app In] in Hin;
      repeat (destruct Hin as [Hin | Hin]; try discriminate); try contradiction;
      injection Hin as <- <- <-;
      (split; [reflexivity|]); (split; [reflexivity|]); (split; [discriminate|]);
      exists w, p; (split; [reflexivity|]); intros Hgen; try discriminate;
      cbn [app In]; auto.
  - intros t Hin.
    destruct (currentWorkflowId b) as [[|c i]|];
      destruct (has_onWorkflowUpdated b), (has_onWorkflowGenerated b);
      cbn [app In] in Hin;
      repeat (destruct Hin as [Hin | Hin]; try discriminate); try contradiction;
      injection Hin as <-; eauto.
  - intros Hin.
    destruct (currentWorkflowId b) as [[|c i]|];
      destruct (has_onWorkflowUpdated b), (has_onWorkflowGenerated b);
      cbn [app In] in Hin |- *;
      repeat (destruct Hin as [Hin | Hin]; try discriminate); try contradiction;
      eauto.
Qed.

End GenerateExtras.

Section BuilderExtraInstances.
Import Builder.

Lemma accepted_artifact_is_valid_witness :
  @generate exampleEngine (Ok sampleOutput (js "openai"))
  = inr (sampleJson,
         JObject [(js "nodes", JArray [JObject [(js "name", JString (js "A"));
                                               (js "type", JString (js "t"))]]);
                  (js "connections", JObject [])],
         js "openai")
  /\ ((exists content,
          Ok sampleOutput (js "openai") = Ok content (js "openai")
          /\ @extractJson exampleEngine content = inr sampleJson)
      /\ head sampleJson = Some (ch "{") /\ last sampleJson = Some (ch "}")
      /\ JSON_parse sampleJson
         = Some (JObject [(js "nodes", JArray [JObject [(js "name", JString (js "A"));
                                                        (js "type", JString (js "t"))]]);
                          (js "connections", JObject [])])
      /\ exists members nodes,
           JObject [(js "nodes", JArray [JObject [(js "name", JString (js "A"));
                                                  (js "type", JString (js "t"))]]);
                    (js "connections", JObject [])]
           = JObject members
           /\ lookupMember (js "nodes") members = Some (JArray nodes)
           /\ nodes <> []
           /\ Forall (fun node =>
                        exists ms name type_,
                          node = JObject ms
                          /\ lookupMember (js "name") ms = Some name /\ truthy name = true
                          /\ lookupMember (js "type") ms = Some type_ /\ truthy type_ = true)
                     nodes).
Proof.
  split; [vm_compute; reflexivity|].
  apply (@accepted_artifact_is_valid exampleEngine).
  vm_compute; reflexivity.
Defined.

End BuilderExtraInstances.

Section AutoSaveExtras.

Import Builder.

Lemma wellFormed_timers (s : AutoSave) :
  wellFormed s ->
  timers s = []
  \/ exists tm, timers s = [tm]
       /\ pendingAfter s (due tm - DEBOUNCE) (cl_messages (captured tm)).
Proof.
  unfold wellFormed, pendingAfter.
  destruct (timers s) as [|t0 [|t1 rest]]; [auto | | intros []].
  intros [Hr Hc]. right. exists t0. split; [reflexivity|].
  right. exists t0. repeat split; auto. lia.
Qed.

Lemma pendingAfter_wellFormed (s : AutoSave) (t : Z) (m : list Message) :
  pendingAfter s t m -> wellFormed s.
Proof.
  unfold wellFormed. intros [-> | (tm & -> & _ & _ & Hr & Hc)]; auto.
Qed.

Lemma callbacks_timers (dues : list Timer) (s : AutoSave) :
  timers (fold_left (fun acc t => autoSaveCallback t acc) dues s) = timers s.
Proof.
  revert s. induction dues as [|t dues IH]; intros s; [reflexivity|].
  cbn [fold_left]. rewrite IH. apply autoSaveCallback_saves.
Qed.

Lemma elapse_timers (T : Z) (s : AutoSave) :
  timers (elapse T s) = List.filter (fun t => negb (due t <=? T)) (timers s).
Proof. unfold elapse. cbv zeta. now rewrite callbacks_timers. Qed.

(** One event, for any property [Q] of the due time and the log of a
    timeout: what is pending and what is saved satisfies [Q] when the
    pending timeouts did and the mutation does. *)
Lemma step_provenance (Q : Z -> list Message -> Prop) (e : Event) (s : AutoSave) :
  wellFormed s ->
  (forall tm, In tm (timers s) -> Q (due tm) (cl_messages (captured tm))) ->
  (forall t m, e = Mutation t m -> Q (t + DEBOUNCE) m) ->
  wellFormed (step s e)
  /\ (forall tm, In tm (timers (step s e)) -> Q (due tm) (cl_messages (captured tm)))
  /\ exists new,
       saves (step s e) = saves s ++ new
       /\ (forall sv, In sv new -> Q (save_time sv) (save_chatHistory sv))
       /\ (length new + length (timers (step s e))
           <= length (timers s) + mutations [e])%nat.
Proof.
  intros Hwf Hq He.
  assert (Hel : forall T,
             wellFormed (elapse T s)
             /\ (forall tm, In tm (timers (elapse T s)) ->
                   Q (due tm) (cl_messages (captured tm)))
             /\ exists new,
                  saves (elapse T s) = saves s ++ new
                  /\ (forall sv, In sv new -> Q (save_time sv) (save_chatHistory sv))
                  /\ (length new + length (timers (elapse T s)) <= length (timers s))%nat).
  { intros T. split; [now apply elapse_wellFormed|]. split.
    - intros tm. rewrite elapse_timers. intros Hin.
      apply filter_In in Hin. now apply Hq.
    - destruct (wellFormed_timers s Hwf) as [Hnil | (tm & Hts & Hp)].
      + destruct (elapse_post T s 0 [] (or_introl Hnil)) as (_ & _ & new & Hs & Hl & Hall).
        exists new. split; [exact Hs|].
        rewrite elapse_timers, Hnil. cbn [List.filter length].
        destruct new as [|sv new]; [split; [intros sv []|cbn; lia]|].
        destruct (Hall sv (or_introl eq_refl)) as (_ & _ & Hle).
        exfalso. revert Hs. unfold elapse. cbv zeta. rewrite Hnil. cbn.
        intros Hs. apply (f_equal length) in Hs. rewrite length_app in Hs. cbn in Hs. lia.
      + destruct (elapse_post T s _ _ Hp) as (_ & _ & new & Hs & Hl & Hall).
        exists new. split; [exact Hs|]. split.
        * intros sv Hin. destruct (Hall sv Hin) as (-> & -> & _).
          replace (due tm - DEBOUNCE + DEBOUNCE) with (due tm) by lia.
          apply Hq. rewrite Hts. now left.
        * rewrite elapse_timers, Hts. cbn [List.filter length].
          destruct new as [|sv new]; [cbn; destruct (due tm <=? T); cbn; lia|].
          destruct (Hall sv (or_introl eq_refl)) as (_ & _ & Hle).
          replace (due tm <=? T) with true by (symmetry; apply Z.leb_le; lia).
          cbn in *. lia. }
  destruct e as [t m | T | success hash]; cbn [step].
  - destruct (Hel t) as (Hwf1 & Hq1 & new & Hs & Hall & Hlen).
    destruct (commit_post t m (fst (workflowStateRef (elapse t s))) (elapse t s) Hwf1)
      as (Hp & Hsaves & _).
    split; [now apply pendingAfter_wellFormed with t m|]. split.
    + intros tm Hin. destruct Hp as [Hnil | (tm' & Hts & Hdue & Hm & _)].
      * rewrite Hnil in Hin. destruct Hin.
      * rewrite Hts in Hin. destruct Hin as [<- | []]. rewrite Hdue, Hm. now apply He.
    + exists new. rewrite Hsaves. split; [exact Hs|]. split; [exact Hall|].
      assert (length (timers (commit t m (fst (workflowStateRef (elapse t s))) (elapse t s))) <= 1)%nat.
      { destruct Hp as [-> | (tm' & -> & _)]; cbn; lia. }
      unfold mutations. cbn. lia.
  - destruct (Hel T) as (Hwf1 & Hq1 & new & Hs & Hall & Hlen).
    split; [exact Hwf1|]. split; [exact Hq1|].
    exists new. split; [exact Hs|]. split; [exact Hall|]. unfold mutations. cbn. lia.
  - unfold saveResolved. destruct success; cbn [timers saves].
    + split; [exact Hwf|]. split; [exact Hq|].
      exists []. rewrite app_nil_r. split; [reflexivity|]. split; [intros sv []|cbn; lia].
    + split; [exact Hwf|]. split; [exact Hq|].
      exists []. rewrite app_nil_r. split; [reflexivity|]. split; [intros sv []|cbn; lia].
Qed.

Lemma run_provenance (Q : Z -> list Message -> Prop) (events : list Event) (s : AutoSave) :
  wellFormed s ->
  (forall tm, In tm (timers s) -> Q (due tm) (cl_messages (captured tm))) ->
  (forall t m, In (Mutation t m) events -> Q (t + DEBOUNCE) m) ->
  wellFormed (run s events)
  /\ exists new,
       saves (run s events) = saves s ++ new
       /\ (forall sv, In sv new -> Q (save_time sv) (save_chatHistory sv))
       /\ (length new + length (timers (run s events))
           <= length (timers s) + mutations events)%nat.
Proof.
  revert s. induction events as [|e events IH]; intros s Hwf Hq He.
  - split; [exact Hwf|]. exists []. rewrite app_nil_r. cbn.
    split; [reflexivity|]. split; [intros sv []|lia].
  - change (run s (e :: events)) with (run (step s e) events).
    destruct (step_provenance Q e s Hwf Hq) as (Hwf1 & Hq1 & new1 & Hs1 & Hall1 & Hlen1).
    { intros t m ->. apply He. now left. }
    destruct (IH (step s e) Hwf1 Hq1) as (Hwf2 & new2 & Hs2 & Hall2 & Hlen2).
    { intros t m Hin. apply He. now right. }
    split; [exact Hwf2|]. exists (new1 ++ new2).
    rewrite Hs2, Hs1, app_assoc. split; [reflexivity|]. split.
    + intros sv Hin. apply in_app_or in Hin. destruct Hin; auto.
    + rewrite length_app.
      assert (mutations (e :: events) = (mutations [e] + mutations events)%nat).
      { unfold mutations. cbn. destruct e; cbn; lia. }
      lia.
Qed.

(** X20. Whatever the events, starting with nothing pending: at most
    one timeout is pending at any time; the calls made before are kept;
    every new call carries the log of one of the mutations and is made 3
    seconds after that mutation; and there are no more new calls than
    mutations. *)
Theorem saves_come_from_mutations (s : AutoSave) (events : list Event) :
  timers s = [] ->
  wellFormed (run s events)
  /\ (length (timers (run s events)) <= 1)%nat
  /\ exists new,
       saves (run s events) = saves s ++ new
       /\ (length new <= mutations events)%nat
       /\ forall sv, In sv new ->
            exists t m, In (Mutation t m) events
                        /\ save_chatHistory sv = m /\ save_time sv = t + DEBOUNCE.
Proof.
  intros Hnil.
  destruct (run_provenance
              (fun d m => exists t, In (Mutation t m) events /\ d = t + DEBOUNCE)
              events s) as (Hwf & new & Hs & Hall & Hlen).
  - unfold wellFormed. now rewrite Hnil.
  - rewrite Hnil. intros tm [].
  - intros t m Hin. eauto.
  - split; [exact Hwf|]. split.
    { unfold wellFormed in Hwf. destruct (timers (run s events)) as [|t0 [|t1 rest]];
        cbn; try lia; destruct Hwf. }
    exists new. split; [exact Hs|]. rewrite Hnil in Hlen. cbn in Hlen.
    split; [lia|].
    intros sv Hin. destruct (Hall sv Hin) as (t & Hm & Ht). eauto.
Qed.

(** X21. When a save is due.  With nothing pending and no transition in
    progress, a mutation of the current workflow that leaves a log of
    more than one message whose hash is not the last saved one, followed
    by 3 seconds without events, makes exactly one call, for that
    workflow and that log, and leaves nothing pending. *)
Theorem quiet_period_saves (s : AutoSave) (t T : Z) (m : list Message)
    (c : N) (w : jsstring) :
  timers s = [] ->
  isTransitioningRef s = false ->
  fst (workflowStateRef s) = Some (c :: w) ->
  (1 < length m)%nat ->
  lastSavedHashRef s <> Some (messagesHash m) ->
  t + DEBOUNCE <= T ->
  saves (run s [Mutation t m; Elapse T])
  = saves s ++ [ {| save_time := t + DEBOUNCE; save_workflowId := Some (c :: w);
                    save_chatHistory := m |} ]
  /\ timers (run s [Mutation t m; Elapse T]) = [].
Proof.
  intros Hnil Htr Hid Hlen Hhash HT.
  assert (He : elapse t s = with_timers s (cleanup s) (autoSaveTimeoutRef s) [] (nextTimerId s)).
  { unfold elapse. cbv zeta. rewrite Hnil. reflexivity. }
  cbn [run fold_left step]. rewrite He.
  unfold commit, autoSaveEffect. cbv zeta.
  cbn [with_timers workflowStateRef lastSavedHashRef isTransitioningRef autoSaveTimeoutRef
       cleanup timers nextTimerId saves fst].
  rewrite Htr, Hid. cbn [truthyString negb orb].
  replace (length m <=? 1)%nat with false by (symmetry; apply Nat.leb_gt; lia).
  rewrite bool_decide_eq_true_2 by reflexivity. cbn [negb].
  rewrite bool_decide_eq_false_2 by congruence.
  assert (Hts : clearTimeout (autoSaveTimeoutRef s)
                  (if cleanup s then clearTimeout (autoSaveTimeoutRef s) [] else []) = []).
  { destruct (cleanup s), (autoSaveTimeoutRef s); reflexivity. }
  rewrite Hts. cbn [app].
  unfold elapse. cbv zeta.
  cbn [with_timers workflowStateRef lastSavedHashRef isTransitioningRef autoSaveTimeoutRef
       cleanup timers nextTimerId saves fst List.filter due].
  replace (t + DEBOUNCE <=? T) with true by (symmetry; apply Z.leb_le; lia).
  cbn [negb fold_left]. unfold autoSaveCallback. cbv zeta.
  cbn [with_timers workflowStateRef lastSavedHashRef isTransitioningRef autoSaveTimeoutRef
       cleanup timers nextTimerId saves fst captured cl_currentWorkflowId cl_messages
       cl_messagesHash due].
  rewrite !bool_decide_eq_true_2 by reflexivity.
  cbn [negb orb saves timers]. split; reflexivity.
Qed.

(** X22. Loading a workflow (or none) cancels the save that was pending
    and schedules none for the loaded log; while the transition lasts no
    mutation is saved; and when it is over, committing the loaded log
    again schedules nothing. *)
Theorem loading_schedules_no_save (now : Z) (workflow : option (jsstring * list Message))
    (s : AutoSave) :
  wellFormed s ->
  let s1 := Loading.loadWorkflowData now workflow s in
  timers s1 = [] /\ saves s1 = saves s
  /\ isTransitioningRef s1 = true
  /\ fst (workflowStateRef s1) = fst (Loading.messagesToSet now workflow)
  /\ (forall t m, timers (step s1 (Mutation t m)) = []
                  /\ saves (step s1 (Mutation t m)) = saves s)
  /\ (forall t,
        let s2 := commit t (snd (Loading.messagesToSet now workflow))
                    (fst (Loading.messagesToSet now workflow))
                    (Loading.transitionComplete s1) in
        timers s2 = [] /\ saves s2 = saves s).
Proof.
  intros Hwf s1.
  assert (Hts : (if cleanup s then clearTimeout (autoSaveTimeoutRef s) (timers s)
                 else timers s) = []).
  { unfold wellFormed in Hwf. destruct (timers s) as [|t0 [|t1 rest]]; [| |destruct Hwf].
    - destruct (cleanup s), (autoSaveTimeoutRef s); reflexivity.
    - destruct Hwf as [-> ->]. apply clearTimeout_own. }
  assert (Hs1 : s1 = {| workflowStateRef := Loading.messagesToSet now workflow;
                        lastSavedHashRef :=
                          Some (messagesHash (snd (Loading.messagesToSet now workflow)));
                        isTransitioningRef := true;
                        autoSaveTimeoutRef := autoSaveTimeoutRef s;
                        cleanup := false;
                        timers := [];
                        nextTimerId := nextTimerId s;
                        saves := saves s |}).
  { subst s1. unfold Loading.loadWorkflowData, commit, autoSaveEffect. cbv zeta.
    cbn [workflowStateRef lastSavedHashRef isTransitioningRef autoSaveTimeoutRef cleanup
         timers nextTimerId saves with_timers].
    rewrite Hts. now destruct (Loading.messagesToSet now workflow). }
  clearbody s1. subst s1.
  cbn [workflowStateRef lastSavedHashRef isTransitioningRef autoSaveTimeoutRef cleanup
       timers nextTimerId saves fst].
  repeat (split; [reflexivity|]). split.
  - intros t m. cbn [step]. unfold elapse, commit, autoSaveEffect. cbv zeta.
    cbn [workflowStateRef lastSavedHashRef isTransitioningRef autoSaveTimeoutRef cleanup
         timers nextTimerId saves with_timers List.filter fold_left].
    split; reflexivity.
  - intros t.
    unfold Loading.transitionComplete, commit, autoSaveEffect. cbv zeta.
    cbn [workflowStateRef lastSavedHashRef isTransitioningRef autoSaveTimeoutRef cleanup
         timers nextTimerId saves with_timers fst snd].
    rewrite !bool_decide_eq_true_2 by reflexivity.
    case_ifs; split; reflexivity.
Qed.

(** X23. The guards of the storage call.  A request is issued only for
    a workflow that was found and whose stored history is at most two
    messages longer than the new one; it carries the new history and a
    version that is not 0.  The call succeeds exactly when the content is
    already stored, without a request, or the request is answered with a
    2xx status and a body that is JSON text: an answer whose body is
    empty or cannot be read gives false, whatever its status, and so
    does a request that is not answered. *)
Theorem storage_call_guards (currentWorkflow : option StoredWorkflow)
    (response : PutResponse) (chatHistory : list Message) :
  let result := updateWorkflowChatHistory currentWorkflow response chatHistory in
  (forall request, snd result = Some request ->
     exists w, currentWorkflow = Some w
               /\ (length (chat_history w) <= length chatHistory + 2)%nat
               /\ put_chat_history request = chatHistory
               /\ expected_version request <> 0
               /\ (forall v, version w = Some v -> v <> 0 -> expected_version request = v))
  /\ (fst result = true <->
      (snd result = None
       /\ exists w, currentWorkflow = Some w
                    /\ storageHash (chat_history w) = storageHash chatHistory)
      \/ (snd result <> None
          /\ exists status text parsed,
               response = PutAnswered status (Some text)
               /\ 200 <= status <= 299
               /\ JSON_parse text = Some parsed))
  /\ (currentWorkflow = None -> result = (false, None))
  /\ (snd result <> None ->
      response = PutFailed
      \/ (exists status, response = PutAnswered status None)
      \/ (exists status, response = PutAnswered status (Some [])) ->
      fst result = false).
Proof.
  intros result. subst result. unfold updateWorkflowChatHistory.
  destruct currentWorkflow as [w|]; cbv zeta.
  2:{ split; [intros request; discriminate|]. split; [|split; [reflexivity|]].
      - cbn. split; [discriminate|].
        intros [(_ & w & Hw & _) | (Hn & _)]; congruence.
      - cbn. intros Hn. congruence. }
  destruct (Z.ltb_spec (Z.of_nat (length chatHistory) + 2) (Z.of_nat (length (chat_history w))))
    as [Hlong | Hshort].
  { split; [intros request; discriminate|]. split; [|split; [discriminate|]].
    - cbn. split; [discriminate|].
      intros [(_ & w' & Hw & Hh) | (Hn & _)]; [|congruence].
      injection Hw as <-. apply (f_equal length) in Hh. unfold storageHash in Hh.
      rewrite !length_map in Hh. lia.
    - cbn. intros Hn. congruence. }
  destruct (bool_decide (storageHash (chat_history w) = storageHash chatHistory)) eqn:Hh.
  - apply bool_decide_eq_true in Hh.
    assert (Hl : length (chat_history w) = length chatHistory).
    { apply (f_equal length) in Hh. unfold storageHash in Hh. now rewrite !length_map in Hh. }
    replace (Z.abs _ <=? 2) with true by (symmetry; apply Z.leb_le; lia).
    cbn [andb fst snd].
    split; [intros request; discriminate|]. split; [|split; [discriminate|]].
    + split; [|reflexivity]. intros _. left. split; [reflexivity|]. eauto.
    + intros Hn. congruence.
  - apply bool_decide_eq_false in Hh. rewrite andb_false_r.
    assert (Hv : match version w with
                 | Some v => if v =? 0 then 1 else v
                 | None => 1
                 end <> 0).
    { destruct (version w) as [v|]; [|lia]. destruct (Z.eqb_spec v 0); lia. }
    assert (Hv' : forall v, version w = Some v -> v <> 0 ->
                    match version w with
                    | Some v => if v =? 0 then 1 else v
                    | None => 1
                    end = v).
    { intros v -> Hne. destruct (Z.eqb_spec v 0); [contradiction | reflexivity]. }
    assert (Hempty : JSON_parse [] = None) by (vm_compute; reflexivity).
    assert (Hreq : forall (r : bool) request0 request,
               snd (r, Some request0) = Some request ->
               request0 = {| put_chat_history := chatHistory;
                             expected_version := match version w with
                                                 | Some v => if v =? 0 then 1 else v
                                                 | None => 1
                                                 end |} ->
               exists w0, Some w = Some w0
                 /\ (length (chat_history w0) <= length chatHistory + 2)%nat
                 /\ put_chat_history request = chatHistory
                 /\ expected_version request <> 0
                 /\ (forall v, version w0 = Some v -> v <> 0 -> expected_version request = v)).
    { intros r request0 request [= <-] ->. exists w. cbn. repeat split; auto. lia. }
    destruct response as [|status [text|]].
    + cbn [fst snd]. split; [intros request Hr; now apply (Hreq false _ _ Hr)|].
      split; [|split; [discriminate | reflexivity]].
      split; [discriminate|].
      intros [(Hn & _) | (_ & st & tx & pj & Hr & _)]; discriminate.
    + destruct (Z.eqb_spec status 409) as [-> | H409]; cbn [fst snd].
      { split; [intros request Hr; now apply (Hreq false _ _ Hr)|].
        split; [|split; [discriminate|]].
        - split; [discriminate|].
          intros [(Hn & _) | (_ & st & tx & pj & [= <- <-] & Hr & _)]; [discriminate | lia].
        - reflexivity. }
      destruct (Z.leb_spec 200 status), (Z.leb_spec status 299); cbn [andb negb fst snd].
      2-4: (split; [intros request Hr; now apply (Hreq false _ _ Hr)|];
            split; [|split; [discriminate | reflexivity]];
            split; [discriminate|];
            intros [(Hn & _) | (_ & st & tx & pj & [= <- <-] & Hr & _)];
            [discriminate | lia]).
      destruct (JSON_parse text) as [parsed|] eqn:Hp; cbn [fst snd].
      * split; [intros request Hr; now apply (Hreq true _ _ Hr)|].
        split; [|split; [discriminate|]].
        -- split; [|reflexivity]. intros _. right. split; [discriminate|].
           exists status, text, parsed. repeat split; auto.
        -- intros _ [Hf | [(st & Hf) | (st & Hf)]]; try discriminate.
           injection Hf as _ ->. congruence.
      * split; [intros request Hr; now apply (Hreq false _ _ Hr)|].
        split; [|split; [discriminate | reflexivity]].
        split; [discriminate|].
        intros [(Hn & _) | (_ & st & tx & pj & [= <- <-] & _ & Hj)]; congruence.
    + assert (Hres : (if status =? 409 then (false, Some {| put_chat_history := chatHistory;
                             expected_version := match version w with
                                                 | Some v => if v =? 0 then 1 else v
                                                 | None => 1
                                                 end |})
                      else if negb ((200 <=? status) && (status <=? 299))
                           then (false, Some {| put_chat_history := chatHistory;
                             expected_version := match version w with
                                                 | Some v => if v =? 0 then 1 else v
                                                 | None => 1
                                                 end |})
                           else (false, Some {| put_chat_history := chatHistory;
                             expected_version := match version w with
                                                 | Some v => if v =? 0 then 1 else v
                                                 | None => 1
                                                 end |}))
                     = (false, Some {| put_chat_history := chatHistory;
                             expected_version := match version w with
                                                 | Some v => if v =? 0 then 1 else v
                                                 | None => 1
                                                 end |}))
        by (destruct (status =? 409); [reflexivity|]; now destruct (negb _)).
      rewrite Hres. cbn [fst snd].
      split; [intros request Hr; now apply (Hreq false _ _ Hr)|].
      split; [|split; [discriminate | reflexivity]].
      split; [discriminate|].
      intros [(Hn & _) | (_ & st & tx & pj & Hr & _)]; discriminate.
Qed.

End AutoSaveExtras.

Section StorageExtras.

Import Storage.
Variable server : Scheduled -> option Builder.StoredWorkflow * Builder.PutResponse.

Lemma callbacks_dropped (n : nat) (dues : list Scheduled) (s : Service) :
  Forall (fun x => sch_timer x <> n) dues ->
  dropped n s ->
  dropped n (fold_left (fun acc x => timeoutCallback server x acc) dues s).
Proof.
  revert s. induction dues as [|x dues IH]; intros s Hd Hs; [exact Hs|].
  cbn [fold_left]. apply Forall_cons in Hd. destruct Hd as (Hx & Hd).
  apply IH; [exact Hd|].
  destruct Hs as (H1 & H2 & H3). unfold dropped, timeoutCallback.
  cbn [scheduled nextTimeout settled]. split; [exact H1 | split; [exact H2|]].
  rewrite map_app, in_app_iff. cbn. intros [Hin | [E | []]]; auto.
Qed.

Lemma Forall_filter_keep {A : Type} (P : A -> Prop) (p : A -> bool) (l : list A) :
  Forall P l -> Forall P (List.filter p l).
Proof.
  induction 1 as [|x l Hx _ IH]; cbn; [constructor|].
  destruct (p x); auto.
Qed.

Lemma elapse_dropped (n : nat) (now : Z) (s : Service) :
  dropped n s -> dropped n (elapse server now s).
Proof.
  intros (H1 & H2 & H3). unfold elapse. cbv zeta.
  apply callbacks_dropped; [now apply Forall_filter_keep|].
  unfold dropped. cbn [scheduled nextTimeout settled].
  split; [now apply Forall_filter_keep | split; [exact H2 | exact H3]].
Qed.

Lemma call_dropped (n : nat) (now : Z) (workflowId : jsstring)
    (chatHistory : list Builder.Message) (s : Service) :
  dropped n s -> dropped n (updateWorkflowChatHistory now workflowId chatHistory s).
Proof.
  intros (H1 & H2 & H3). unfold dropped, updateWorkflowChatHistory. cbv zeta.
  cbn [scheduled nextTimeout settled]. split; [|split; [lia | exact H3]].
  apply Forall_app. split.
  - destruct (pendingUpdates s !! workflowId); [now apply Forall_filter_keep | exact H1].
  - repeat constructor. cbn. lia.
Qed.

Lemma run_dropped (n : nat) (events : list Event) (s : Service) :
  dropped n s -> dropped n (run server s events).
Proof.
  revert s. induction events as [|e events IH]; intros s Hs; [exact Hs|].
  change (run server s (e :: events)) with (run server (step server s e) events).
  apply IH. destruct e; cbn [step].
  - now apply call_dropped, elapse_dropped.
  - now apply elapse_dropped.
Qed.

(** X24. Two calls for the same workflow less than a second apart, with
    nothing pending before.  The second call cancels the timeout of the
    first: the promise of the first is never resolved, whatever happens
    later.  When the second is due its body runs once: its promise is
    the only one resolved and the only request, if any, is the one for
    its history. *)
Theorem superseded_call_never_settles (s : Service) (t1 t2 T : Z) (workflowId : jsstring)
    (h1 h2 : list Builder.Message) (events : list Event) :
  scheduled s = [] ->
  Forall (fun p => (fst p < nextTimeout s)%nat) (settled s) ->
  t1 <= t2 < t1 + 1000 ->
  t2 + 1000 <= T ->
  let first := nextTimeout s in
  let second := {| sch_timer := S first; sch_due := t2 + 1000;
                   sch_workflowId := workflowId; sch_chatHistory := h2 |} in
  let result :=
    Builder.updateWorkflowChatHistory (fst (server second)) (snd (server second)) h2 in
  ~ In first
      (map fst (settled (run server s (Call t1 workflowId h1 :: Call t2 workflowId h2 :: events))))
  /\ settled (run server s [Call t1 workflowId h1; Call t2 workflowId h2; Elapse T])
     = settled s ++ [(S first, fst result)]
  /\ puts (run server s [Call t1 workflowId h1; Call t2 workflowId h2; Elapse T])
     = puts s ++ match snd result with
                 | Some request => [(workflowId, request)]
                 | None => []
                 end
  /\ scheduled (run server s [Call t1 workflowId h1; Call t2 workflowId h2; Elapse T]) = [].
Proof.
  intros Hnil Hsettled Ht HT first second result.
  assert (He1 : elapse server t1 s = s).
  { unfold elapse. cbv zeta. rewrite Hnil. cbn [List.filter fold_left].
    rewrite <- Hnil. now destruct s. }
  set (s1 := updateWorkflowChatHistory t1 workflowId h1 s).
  assert (He2 : elapse server t2 s1 = s1).
  { unfold elapse, s1, updateWorkflowChatHistory. cbv zeta. rewrite Hnil.
    cbn [scheduled List.filter app sch_due pendingUpdates nextTimeout settled puts].
    replace (match pendingUpdates s !! workflowId with
             | Some t => List.filter (fun x => negb (Nat.eqb (sch_timer x) t)) []
             | None => []
             end) with (@nil Scheduled)
      by (now destruct (pendingUpdates s !! workflowId)).
    cbn [app List.filter sch_due].
    replace (t1 + 1000 <=? t2) with false by (symmetry; apply Z.leb_gt; lia).
    reflexivity. }
  set (s2 := updateWorkflowChatHistory t2 workflowId h2 s1).
  assert (Hs2 : s2 = {| pendingUpdates :=
                          <[ workflowId := S first ]> (<[ workflowId := first ]> (pendingUpdates s));
                        scheduled := [second];
                        nextTimeout := S (S first);
                        settled := settled s;
                        puts := puts s |}).
  { unfold s2, s1, updateWorkflowChatHistory. cbv zeta. rewrite Hnil.
    cbn [pendingUpdates scheduled nextTimeout settled puts].
    rewrite lookup_insert_eq.
    replace (match pendingUpdates s !! workflowId with
             | Some t => List.filter (fun x => negb (Nat.eqb (sch_timer x) t)) []
             | None => []
             end) with (@nil Scheduled)
      by (now destruct (pendingUpdates s !! workflowId)).
    cbn [app List.filter sch_timer]. rewrite Nat.eqb_refl. reflexivity. }
  assert (Hrun2 : forall rest,
             run server s (Call t1 workflowId h1 :: Call t2 workflowId h2 :: rest)
             = run server s2 rest).
  { intros rest. cbn [run fold_left step]. rewrite He1. fold s1. rewrite He2. reflexivity. }
  split; [|rewrite Hrun2].
  - rewrite Hrun2. apply run_dropped. rewrite Hs2. unfold dropped.
    cbn [scheduled nextTimeout settled]. split; [|split].
    + repeat constructor. cbn. unfold first. lia.
    + unfold first. lia.
    + intros Hin. apply in_map_iff in Hin. destruct Hin as (p & Hp & Hin).
      pose proof (proj1 (List.Forall_forall _ _) Hsettled p Hin) as Hlt.
      cbv beta in Hlt. unfold first in Hp. lia.
  - rewrite Hs2. cbn [run fold_left step]. unfold elapse. cbv zeta.
    cbn [scheduled List.filter sch_due second].
    replace (t2 + 1000 <=? T) with true by (symmetry; apply Z.leb_le; lia).
    cbn [negb fold_left]. unfold timeoutCallback.
    cbn [settled puts scheduled sch_timer sch_chatHistory sch_workflowId pendingUpdates
         nextTimeout].
    repeat split; reflexivity.
Qed.

End StorageExtras.

Lemma superseded_call_never_settles_witness :
  Storage.scheduled Storage.newService = []
  /\ Forall (fun p => (fst p < Storage.nextTimeout Storage.newService)%nat)
            (Storage.settled Storage.newService)
  /\ 0 <= 400 < 0 + 1000
  /\ 400 + 1000 <= 5000
  /\ (~ In (Storage.nextTimeout Storage.newService)
        (map fst (Storage.settled
                    (Storage.run acceptingServer Storage.newService
                       (Storage.Call 0 (js "wf-1") log1
                        :: Storage.Call 400 (js "wf-1") log2 :: [Storage.Elapse 5000]))))
      /\ Storage.settled
           (Storage.run acceptingServer Storage.newService
              [Storage.Call 0 (js "wf-1") log1; Storage.Call 400 (js "wf-1") log2;
               Storage.Elapse 5000])
         = Storage.settled Storage.newService
           ++ [(S (Storage.nextTimeout Storage.newService),
                fst (Builder.updateWorkflowChatHistory
                       (fst (acceptingServer
                               {| Storage.sch_timer := S (Storage.nextTimeout Storage.newService);
                                  Storage.sch_due := 400 + 1000;
                                  Storage.sch_workflowId := js "wf-1";
                                  Storage.sch_chatHistory := log2 |}))
                       (snd (acceptingServer
                               {| Storage.sch_timer := S (Storage.nextTimeout Storage.newService);
                                  Storage.sch_due := 400 + 1000;
                                  Storage.sch_workflowId := js "wf-1";
                                  Storage.sch_chatHistory := log2 |}))
                       log2))]
      /\ Storage.puts
           (Storage.run acceptingServer Storage.newService
              [Storage.Call 0 (js "wf-1") log1; Storage.Call 400 (js "wf-1") log2;
               Storage.Elapse 5000])
         = Storage.puts Storage.newService
           ++ match snd (Builder.updateWorkflowChatHistory
                           (fst (acceptingServer
                                   {| Storage.sch_timer := S (Storage.nextTimeout Storage.newService);
                                      Storage.sch_due := 400 + 1000;
                                      Storage.sch_workflowId := js "wf-1";
                                      Storage.sch_chatHistory := log2 |}))
                           (snd (acceptingServer
                                   {| Storage.sch_timer := S (Storage.nextTimeout Storage.newService);
                                      Storage.sch_due := 400 + 1000;
                                      Storage.sch_workflowId := js "wf-1";
                                      Storage.sch_chatHistory := log2 |}))
                           log2) with
              | Some request => [(js "wf-1", request)]
              | None => []
              end
      /\ Storage.scheduled
           (Storage.run acceptingServer Storage.newService
              [Storage.Call 0 (js "wf-1") log1; Storage.Call 400 (js "wf-1") log2;
               Storage.Elapse 5000]) = []).
Proof.
  split; [reflexivity|]. split; [constructor|]. split; [lia|]. split; [lia|].
  apply (superseded_call_never_settles acceptingServer Storage.newService 0 400 5000
           (js "wf-1") log1 log2 [Storage.Elapse 5000]).
  - reflexivity.
  - constructor.
  - lia.
  - lia.
Defined.

(** ** Replacement keeps what holds of every character *)

Lemma replaceAll_Forall (P : N -> Prop) (matchAt : jsstring -> option (jsstring * nat)) :
  (forall s r n, Forall P s -> matchAt s = Some (r, n) -> Forall P r) ->
  forall (s : jsstring) (skip : nat), Forall P s -> Forall P (replaceAll matchAt skip s).
Proof.
  intros Hm s. induction s as [|c t IH]; intros skip Hs; cbn [replaceAll]; [constructor|].
  pose proof (Forall_inv Hs) as Hc. pose proof (Forall_inv_tail Hs) as Ht.
  destruct skip as [|k]; [|now apply IH].
  destruct (matchAt (c :: t)) as [[r n]|] eqn:E.
  - apply Forall_app. split; [now apply (Hm _ _ _ Hs E) | now apply IH].
  - constructor; [exact Hc | now apply IH].
Qed.

Lemma replaceAll_apostrophe (s : jsstring) :
  Forall (fun c => c <> 39%N) (replaceAll AIService.apostropheAt 0 s).
Proof.
  induction s as [|c t IH]; cbn [replaceAll AIService.apostropheAt]; [constructor|].
  destruct (N.eqb_spec c 39) as [-> | Hne]; cbn [Nat.pred app].
  - constructor; [discriminate | exact IH].
  - constructor; [exact Hne | exact IH].
Qed.

Section CleaningExtras.
Context `{JsEngine}.

(** X25. The cleaned text holds no apostrophe: every one of the text is
    replaced by a double quote, those inside string values as well, and
    the later replacements add none. *)
Theorem cleanJsonResponse_no_apostrophe (text : jsstring) :
  Forall (fun c => c <> 39%N) (AIService.cleanJsonResponse text).
Proof.
  unfold AIService.cleanJsonResponse. cbv zeta.
  apply replaceAll_Forall.
  { intros s r n Hs. unfold AIService.missingCommaAt.
    destruct s as [|a [|b t]]; try discriminate.
    destruct (_ && _); [|discriminate].
    destruct (drop _ t) as [|q [|c0 rest]]; try discriminate.
    destruct (_ && _); [|discriminate].
    intros [= <- _]. cbn [app].
    repeat (constructor; [discriminate|]).
    apply Forall_app. split.
    - apply Forall_take. now apply Forall_inv_tail, Forall_inv_tail in Hs.
    - repeat (constructor; [discriminate|]). constructor. }
  apply replaceAll_Forall.
  { intros s r n Hs. unfold AIService.bareKeyAt. cbv zeta.
    destruct (_ <? _)%nat; [|discriminate].
    destruct (drop _ s) as [|d rest]; [discriminate|].
    destruct (N.eqb d _); [|discriminate].
    intros [= <- _]. cbn [app].
    constructor; [discriminate|].
    apply Forall_app. split; [now apply Forall_take|].
    repeat (constructor; [discriminate|]). constructor. }
  apply replaceAll_apostrophe.
Qed.

(** X26. What [generateWorkflowJson] returns: the cleaned text of the
    answer, which parses to an object whose [nodes] is an array and
    whose [connections] is an object or an array.  The nodes are not
    inspected: it returns a workflow without nodes, which
    [handleGenerateWorkflow] refuses; and it refuses a workflow without
    connections, which [handleGenerateWorkflow] accepts. *)
Theorem generateWorkflowJson_accepts (p : jsstring) :
  (forall response w,
     AIServiceJson.generateWorkflowJson response = inr w ->
     exists content members nodes connections,
       response = inr content
       /\ w = AIService.cleanJsonResponse (trim content)
       /\ JSON_parse w = Some (JObject members)
       /\ lookupMember (js "nodes") members = Some (JArray nodes)
       /\ lookupMember (js "connections") members = Some connections
       /\ ((exists ms, connections = JObject ms) \/ (exists items, connections = JArray items)))
  /\ (AIServiceJson.generateWorkflowJson (inr (jsq "{'nodes':[],'connections':{}}"))
      = inr (jsq "{'nodes':[],'connections':{}}")
      /\ Builder.generate (Builder.Ok (jsq "{'nodes':[],'connections':{}}") p)
         = inl (js "Generated workflow has no nodes"))
  /\ (AIServiceJson.generateWorkflowJson (inr (jsq "{'nodes':[{'name':'A','type':'t'}]}"))
      = inl (js "Invalid workflow structure: missing connections object")
      /\ exists parsed,
           Builder.generate (Builder.Ok (jsq "{'nodes':[{'name':'A','type':'t'}]}") p)
           = inr (jsq "{'nodes':[{'name':'A','type':'t'}]}", parsed, p)).
Proof.
  split; [|split].
  - intros response w.
    unfold AIServiceJson.generateWorkflowJson. destruct response as [e|content]; [discriminate|].
    cbv zeta.
    destruct (JSON_parse _) as [parsed|] eqn:Hp; [|discriminate].
    unfold Builder.getProp.
    destruct parsed as [| | | | |members]; try discriminate.
    destruct (lookupMember (js "nodes") members) as [[| | | |nodes|]|] eqn:Hn; try discriminate.
    cbn [negb].
    destruct (lookupMember (js "connections") members) as [[| | | |items|ms]|] eqn:Hc;
      try discriminate; cbn [negb]; intros [= <-].
    + exists content, members, nodes, (JArray items). repeat split; eauto.
    + exists content, members, nodes, (JObject ms). repeat split; eauto.
  - split; vm_compute; reflexivity.
  - split; [vm_compute; reflexivity|]. eexists. vm_compute. reflexivity.
Qed.

End CleaningExtras.


Section ClientExtras.
Context `{JsEngine}.
Variable generateSystemPrompt : ConversationState -> jsstring.

Import Client.

Lemma lastContent_aiMessages (messages_ : list Builder.Message) (content_ : jsstring) :
  Gateway.lastContent (aiMessages messages_ content_) = content_.
Proof.
  unfold Gateway.lastContent, aiMessages. now rewrite last_snoc.
Qed.

(** What the route answers with has the state of the tracker, updated
    from the state it was given. *)
Lemma POST_state (w : Gateway.Providers) (at_ : Z) (st0 : Gateway.ServerState)
    (apiKeyError : bool) (apiKeys : option (list Gateway.ApiKey))
    (messages_ : list Gateway.AIMessage) (cs : option ConversationState)
    (st' : Gateway.ServerState) (r : Gateway.AIResponse) :
  Gateway.POST generateSystemPrompt w at_ st0 apiKeyError apiKeys messages_ cs = (st', inr r) ->
  let before := match cs with
                | Some state => state
                | None => initialState (Gateway.lastContent messages_)
                end in
  Gateway.conversationState r
  = Some (updateConversationState before (Gateway.lastContent messages_) (Gateway.res_content r))
  /\ Gateway.canGenerateWorkflow r
     = shouldGenerateWorkflow
         (updateConversationState before (Gateway.lastContent messages_) (Gateway.res_content r)).
Proof.
  unfold Gateway.POST. cbv zeta.
  repeat match goal with
         | |- context [match ?x with _ => _ end] => destruct x
         | |- context [if ?x then _ else _] => destruct x
         end; intros Hr; try discriminate; injection Hr as _ <-;
    split; reflexivity.
Qed.

(** X27. A turn that the route answers.  The log grows by the message
    typed, trimmed, and the reply; the state of the tracker kept by the
    client is the update, with that message and that reply, of the state
    it held, or of a fresh state for that message when it held none; the
    input is emptied and the error cleared. *)
Theorem turn_threads_tracker_state (w : Gateway.Providers) (at_ : Z)
    (st0 st' : Gateway.ServerState) (apiKeyError : bool)
    (apiKeys : option (list Gateway.ApiKey))
    (now later : Z) (c : Chat) (r : Gateway.AIResponse) :
  trim (inputValue c) <> [] ->
  isLoading c = false ->
  Gateway.POST generateSystemPrompt w at_ st0 apiKeyError apiKeys
    (aiMessages (chat_messages c) (trim (inputValue c))) (conversationState c)
  = (st', inr r) ->
  let c' := turn generateSystemPrompt w at_ st0 apiKeyError apiKeys now later c in
  let before := match conversationState c with
                | Some state => state
                | None => initialState (trim (inputValue c))
                end in
  conversationState c'
  = Some (updateConversationState before (trim (inputValue c)) (Gateway.res_content r))
  /\ (exists userMessage aiMessage,
        chat_messages c' = chat_messages c ++ [userMessage; aiMessage]
        /\ Builder.content userMessage = trim (inputValue c)
        /\ Builder.sender userMessage = Builder.user
        /\ Builder.content aiMessage = Gateway.res_content r
        /\ Builder.sender aiMessage = Builder.ai
        /\ Builder.error aiMessage = false)
  /\ inputValue c' = [] /\ chat_error c' = [] /\ isLoading c' = false
  /\ chat_showGenerateButton c' = generateButton (chat_messages c) r.
Proof.
  intros Hinput Hload Hpost c' before.
  destruct (POST_state _ _ _ _ _ _ _ _ _ Hpost) as (Hstate & _).
  rewrite lastContent_aiMessages in Hstate. fold before in Hstate.
  subst c'. unfold turn, handleSendMessage. cbv zeta.
  rewrite Hload. cbn [Builder.content].
  destruct (trim (inputValue c)) as [|ch0 rest] eqn:Ht; [congruence|].
  cbn [Builder.truthyString negb orb]. rewrite Hpost. cbn [snd generateResponse].
  cbn [conversationState chat_messages inputValue chat_error isLoading
       chat_showGenerateButton].
  rewrite Hstate. split; [reflexivity|]. split.
  - eexists. eexists. split; [reflexivity|]. repeat split; reflexivity.
  - repeat split; reflexivity.
Qed.

(** X28. The error messages that announce a switch to the backup
    provider are shown only when there is no backup: the route answers
    with the error code CREDITS_LOW or RATE_LIMIT only when no Claude key
    is configured, and the client then says that it is switching to the
    backup provider. *)
Theorem switch_announced_without_backup (w : Gateway.Providers) (at_ : Z)
    (st0 st' : Gateway.ServerState) (keys : list Gateway.ApiKey)
    (messages_ : list Gateway.AIMessage) (cs : option ConversationState)
    (e : Gateway.ErrorResponse) :
  Gateway.POST generateSystemPrompt w at_ st0 false (Some keys) messages_ cs = (st', inl e) ->
  Gateway.err_errorCode e = Some (js "CREDITS_LOW")
  \/ Gateway.err_errorCode e = Some (js "RATE_LIMIT") ->
  Gateway.findKey keys "claude" = None
  /\ js "openai" ∈ Gateway.failedProviders st'
  /\ exists text,
       generateResponse (inl e) = inl text
       /\ includes text (js "Switching to backup provider...") = true.
Proof.
  unfold Gateway.POST. cbv zeta.
  destruct keys as [|k keys]; [intros [= _ <-]; cbn; intros [E | E]; discriminate|].
  destruct (if Gateway.has _ _ then None else _) as [okey|].
  2:{ destruct (Gateway.findKey _ "claude") as [ckey|];
        [destruct (Gateway.callClaude _ _ _)|]; intros Hr; try discriminate;
        injection Hr as _ <-; cbn; intros [E | E]; vm_compute in E; discriminate. }
  destruct (Gateway.callOpenAI _ _ _) as [text|message cause]; [discriminate|].
  destruct (classify_cases cause (Gateway.resetSessionIfNeeded at_ st0))
    as [E | [(E & _) | [(E & _) | E]]]; rewrite E; rewrite ?orb_true_r.
  - destruct (Gateway.findKey _ "claude") as [ckey|];
      [destruct (Gateway.callClaude _ _ _)|]; intros Hr; try discriminate;
      injection Hr as _ <-; cbn; intros [E' | E']; vm_compute in E'; discriminate.
  - destruct (Gateway.findKey _ "claude") as [ckey|];
      [destruct (Gateway.callClaude _ _ _); intros Hr; try discriminate;
       injection Hr as _ <-; cbn; intros [E' | E']; vm_compute in E'; discriminate|].
    intros Hr. injection Hr as <- <-. intros _.
    split; [reflexivity|]. split; [apply add_elem|].
    eexists. split; vm_compute; reflexivity.
  - destruct (Gateway.findKey _ "claude") as [ckey|];
      [destruct (Gateway.callClaude _ _ _); intros Hr; try discriminate;
       injection Hr as _ <-; cbn; intros [E' | E']; vm_compute in E'; discriminate|].
    intros Hr. injection Hr as <- <-. intros _.
    split; [reflexivity|]. split; [apply add_elem|].
    eexists. split; vm_compute; reflexivity.
  - destruct (_ || _);
      [destruct (Gateway.findKey _ "claude") as [ckey|];
       [destruct (Gateway.callClaude _ _ _)|]|];
      intros Hr; try discriminate;
      injection Hr as _ <-; cbn; intros [E' | E']; vm_compute in E'; discriminate.
Qed.

End ClientExtras.

Section ClientSessions.
Context `{JsEngine}.
Variable generateSystemPrompt : ConversationState -> jsstring.

Import Client.

(** X29. The state of the tracker that the client holds is a state of a
    session: when it holds none, or one that a session reaches, the same
    is true after a turn against the route, whatever the route
    answers. *)
Theorem client_state_is_session_state (w : Gateway.Providers) (at_ : Z)
    (st0 : Gateway.ServerState) (apiKeyError : bool)
    (apiKeys : option (list Gateway.ApiKey)) (now later : Z) (c : Chat) :
  (forall s, conversationState c = Some s -> reachable s) ->
  forall s',
    conversationState (turn generateSystemPrompt w at_ st0 apiKeyError apiKeys now later c)
    = Some s' ->
    reachable s'.
Proof.
  intros Hc s'. unfold turn, handleSendMessage. cbv zeta.
  destruct (_ || _); [apply Hc|].
  cbn [Builder.content].
  destruct (Gateway.POST _ _ _ _ _ _ _ _) as [st' [e|r]] eqn:Hpost;
    cbn [snd generateResponse conversationState]; [apply Hc|].
  destruct (POST_state _ _ _ _ _ _ _ _ _ _ Hpost) as (Hstate & _).
  rewrite Hstate. intros [= <-].
  apply reachable_update.
  destruct (conversationState c) as [s|]; [now apply Hc | apply reachable_initial].
Qed.

End ClientSessions.

(** ** Instances of the further properties *)

Lemma suppressed_primary_not_called_witness :
  js "openai" ∈ Gateway.failedProviders suppressedServer
  /\ 61000 - Gateway.sessionStartTime suppressedServer <= Gateway.SESSION_RESET_INTERVAL
  /\ (forall key ms, Gateway.callClaude rateLimited key ms = Gateway.callClaude badKey key ms)
  /\ @Gateway.POST exampleEngine examplePrompt rateLimited 61000 suppressedServer false
       (Some exampleKeys) exampleMessages None
     = @Gateway.POST exampleEngine examplePrompt badKey 61000 suppressedServer false
         (Some exampleKeys) exampleMessages None
  /\ fst (@Gateway.POST exampleEngine examplePrompt rateLimited 61000 suppressedServer false
            (Some exampleKeys) exampleMessages None) = suppressedServer.
Proof.
  assert (H1 : js "openai" ∈ Gateway.failedProviders suppressedServer)
    by (unfold suppressedServer; cbn [Gateway.failedProviders];
        now apply elem_of_singleton).
  assert (H2 : 61000 - Gateway.sessionStartTime suppressedServer
               <= Gateway.SESSION_RESET_INTERVAL) by (vm_compute; discriminate).
  assert (H3 : forall key ms,
             Gateway.callClaude rateLimited key ms = Gateway.callClaude badKey key ms)
    by reflexivity.
  split; [exact H1|]. split; [exact H2|]. split; [exact H3|].
  destruct (@suppressed_primary_not_called exampleEngine examplePrompt rateLimited badKey
              61000 suppressedServer false (Some exampleKeys) exampleMessages None H1 H2 H3)
    as (E1 & E2 & _).
  split; [exact E1 | exact E2].
Defined.

Lemma notification_only_generic_witness :
  exists st' r,
    contextCall = (st', inr r)
    /\ (Builder.fallbackNotification r <> None
        <-> Gateway.fallback r = true /\ js "openai" ∉ Gateway.failedProviders st')
    /\ forall n, Builder.fallbackNotification r = Some n ->
         Builder.title n = js "Provider Switched"
         /\ Builder.type n = Builder.fallback
         /\ (Gateway.errorCode r = Some (js "CONTEXT_LENGTH_EXCEEDED")
             \/ Gateway.errorCode r = Some (js "OPENAI_UNKNOWN")).
Proof.
  destruct contextCall as [st' [e|r]] eqn:Hcall; [vm_compute in Hcall; discriminate|].
  exists st', r. split; [reflexivity|].
  apply (@notification_only_generic exampleEngine examplePrompt contextTooLong 1000
           freshServer false (Some exampleKeys) exampleMessages None st' r).
  exact Hcall.
Defined.

Lemma backup_leaves_one_error_witness :
  exists st' e,
    @Gateway.findKey exampleEngine exampleKeys "claude"
    = Some {| Gateway.provider := js "Claude"; Gateway.encrypted_key := js "key-2" |}
    /\ (forall ms, exists text, Gateway.callClaude badKey (js "key-2") ms = Gateway.Returned text)
    /\ badKeyCall = (st', inl e)
    /\ e = {| Gateway.status := 503; Gateway.error := js "OpenAI API error occurred";
              Gateway.err_errorCode := Some (js "OPENAI_UNKNOWN") |}
    /\ st' = Gateway.resetSessionIfNeeded 1000 freshServer.
Proof.
  destruct badKeyCall as [st' [e|r]] eqn:Hcall; [|vm_compute in Hcall; discriminate].
  exists st', e.
  assert (Hk : @Gateway.findKey exampleEngine exampleKeys "claude"
               = Some {| Gateway.provider := js "Claude"; Gateway.encrypted_key := js "key-2" |})
    by (vm_compute; reflexivity).
  assert (Hc : forall ms, exists text,
               Gateway.callClaude badKey
                 (Gateway.encrypted_key
                    {| Gateway.provider := js "Claude"; Gateway.encrypted_key := js "key-2" |}) ms
               = Gateway.Returned text)
    by (intros ms; eexists; reflexivity).
  split; [exact Hk|]. split; [exact Hc|]. split; [reflexivity|].
  destruct (@backup_leaves_one_error exampleEngine examplePrompt badKey 1000 freshServer
              exampleKeys exampleMessages None _ st' e Hk Hc Hcall) as (E1 & E2 & _).
  split; [exact E1 | exact E2].
Defined.

Lemma unclassified_failure_no_fallback_witness :
  @Gateway.POST exampleEngine examplePrompt badKey 1000 freshServer false
    (Some exampleKeys) exampleMessages None
  = (Gateway.resetSessionIfNeeded 1000 freshServer,
     inl {| Gateway.status := 503; Gateway.error := js "OpenAI API error occurred";
            Gateway.err_errorCode := Some (js "OPENAI_UNKNOWN") |}).
Proof.
  apply (@unclassified_failure_no_fallback exampleEngine examplePrompt badKey 1000 freshServer
           exampleKeys exampleMessages None
           {| Gateway.provider := js "OpenAI"; Gateway.encrypted_key := js "key-1" |}
           (js "OpenAI API error: 401 - "
            ++ jsq "{'error':{'message':'Incorrect API key provided','type':'invalid_request_error','code':'invalid_api_key'}}")
           (Some {| Gateway.type := Some (js "invalid_request_error");
                    Gateway.code := Some (js "invalid_api_key") |})).
  - vm_compute; reflexivity.
  - vm_compute; reflexivity.
  - intros ms. vm_compute; reflexivity.
  - intros c [= <-]. cbn. repeat split; intros E; vm_compute in E; discriminate.
  - vm_compute; reflexivity.
Defined.

Lemma quota_body_suppresses_primary_witness :
  exists st' r,
    @Gateway.POST exampleEngine examplePrompt outOfQuota 1000 freshServer false
      (Some exampleKeys) exampleMessages None = (st', inr r)
    /\ Gateway.res_content r = js "Which event starts it?"
    /\ Gateway.res_provider r = js "claude"
    /\ Gateway.fallback r = true
    /\ Gateway.fallbackReason r = Some (js "OpenAI API credits exhausted")
    /\ Gateway.errorCode r = Some (js "CREDITS_LOW")
    /\ js "openai" ∈ Gateway.failedProviders st'.
Proof.
  apply (@quota_body_suppresses_primary exampleEngine examplePrompt outOfQuota 1000 freshServer
           exampleKeys exampleMessages None
           {| Gateway.provider := js "OpenAI"; Gateway.encrypted_key := js "key-1" |}
           {| Gateway.provider := js "Claude"; Gateway.encrypted_key := js "key-2" |}
           429 quotaBody (js "Which event starts it?")
           [(js "error",
             JObject [(js "message", JString (js "You exceeded your current quota"));
                      (js "type", JString (js "insufficient_quota"));
                      (js "code", JString (js "insufficient_quota"))])]
           [(js "message", JString (js "You exceeded your current quota"));
            (js "type", JString (js "insufficient_quota"));
            (js "code", JString (js "insufficient_quota"))]).
  - vm_compute; reflexivity.
  - vm_compute; reflexivity.
  - vm_compute; reflexivity.
  - intros ms. reflexivity.
  - intros ms. reflexivity.
  - vm_compute; reflexivity.
  - vm_compute; reflexivity.
  - vm_compute; reflexivity.
  - intros E. vm_compute in E. discriminate.
Defined.

Lemma overload_status_falls_back_witness :
  exists st' r,
    @Gateway.POST exampleEngine examplePrompt gatewayDown 1000 freshServer false
      (Some exampleKeys) exampleMessages None = (st', inr r)
    /\ Gateway.res_content r = js "Which event starts it?"
    /\ Gateway.res_provider r = js "claude"
    /\ Gateway.fallback r = true
    /\ Gateway.originalProvider r = Some (js "openai").
Proof.
  apply (@overload_status_falls_back exampleEngine examplePrompt gatewayDown 1000 freshServer
           exampleKeys exampleMessages None
           {| Gateway.provider := js "OpenAI"; Gateway.encrypted_key := js "key-1" |}
           {| Gateway.provider := js "Claude"; Gateway.encrypted_key := js "key-2" |}
           503 (js "<html>Service Unavailable</html>") (js "Which event starts it?")).
  - vm_compute; reflexivity.
  - vm_compute; reflexivity.
  - vm_compute; reflexivity.
  - intros ms. reflexivity.
  - intros ms. reflexivity.
  - left. reflexivity.
Defined.

Lemma generation_error_shown_verbatim_witness :
  @Generation.POST exampleEngine rateLimited 1000 freshServer false None
    (Generation.conversationHistory (Builder.messages exampleBuilder))
  = (Gateway.resetSessionIfNeeded 1000 freshServer,
     inl {| Gateway.status := 400; Gateway.error := js "No API keys configured";
            Gateway.err_errorCode := None |})
  /\ Builder.errorText
       (fst (@Builder.handleGenerateWorkflow exampleEngine 2000
               (Generation.fetched
                  (inl {| Gateway.status := 400; Gateway.error := js "No API keys configured";
                          Gateway.err_errorCode := None |}))
               exampleBuilder))
     = js "No API keys configured"
  /\ snd (@Builder.handleGenerateWorkflow exampleEngine 2000
            (Generation.fetched
               (inl {| Gateway.status := 400; Gateway.error := js "No API keys configured";
                       Gateway.err_errorCode := None |}))
            exampleBuilder) = [].
Proof.
  assert (Hp : @Generation.POST exampleEngine rateLimited 1000 freshServer false None
                 (Generation.conversationHistory (Builder.messages exampleBuilder))
               = (Gateway.resetSessionIfNeeded 1000 freshServer,
                  inl {| Gateway.status := 400; Gateway.error := js "No API keys configured";
                         Gateway.err_errorCode := None |}))
    by reflexivity.
  split; [exact Hp|].
  destruct (@generation_error_shown_verbatim exampleEngine rateLimited 1000 2000 freshServer
              false None exampleBuilder _ _ Hp) as (E1 & E2 & _).
  split; [exact E1 | exact E2].
Defined.

Lemma saves_come_from_mutations_witness :
  Builder.timers exampleAutoSave = []
  /\ Builder.wellFormed
       (Builder.run exampleAutoSave
          [Builder.Mutation 0 log1; Builder.Mutation 400 log2; Builder.Elapse 5000])
  /\ (length (Builder.timers
                (Builder.run exampleAutoSave
                   [Builder.Mutation 0 log1; Builder.Mutation 400 log2; Builder.Elapse 5000]))
      <= 1)%nat
  /\ exists new,
       Builder.saves
         (Builder.run exampleAutoSave
            [Builder.Mutation 0 log1; Builder.Mutation 400 log2; Builder.Elapse 5000])
       = Builder.saves exampleAutoSave ++ new
       /\ (length new
           <= mutations [Builder.Mutation 0 log1; Builder.Mutation 400 log2; Builder.Elapse 5000])%nat
       /\ forall sv, In sv new ->
            exists t m,
              In (Builder.Mutation t m)
                 [Builder.Mutation 0 log1; Builder.Mutation 400 log2; Builder.Elapse 5000]
              /\ Builder.save_chatHistory sv = m
              /\ Builder.save_time sv = t + Builder.DEBOUNCE.
Proof.
  split; [reflexivity|].
  apply (saves_come_from_mutations exampleAutoSave
           [Builder.Mutation 0 log1; Builder.Mutation 400 log2; Builder.Elapse 5000]).
  reflexivity.
Defined.

Lemma quiet_period_saves_witness :
  Builder.timers exampleAutoSave = []
  /\ Builder.isTransitioningRef exampleAutoSave = false
  /\ fst (Builder.workflowStateRef exampleAutoSave) = Some (js "wf-1")
  /\ (1 < length log1)%nat
  /\ Builder.lastSavedHashRef exampleAutoSave <> Some (Builder.messagesHash log1)
  /\ 0 + Builder.DEBOUNCE <= 3000
  /\ Builder.saves (Builder.run exampleAutoSave [Builder.Mutation 0 log1; Builder.Elapse 3000])
     = Builder.saves exampleAutoSave
       ++ [ {| Builder.save_time := 0 + Builder.DEBOUNCE;
               Builder.save_workflowId := Some (js "wf-1");
               Builder.save_chatHistory := log1 |} ]
  /\ Builder.timers (Builder.run exampleAutoSave [Builder.Mutation 0 log1; Builder.Elapse 3000])
     = [].
Proof.
  assert (H5 : Builder.lastSavedHashRef exampleAutoSave <> Some (Builder.messagesHash log1))
    by (intros E; vm_compute in E; discriminate).
  assert (H6 : 0 + Builder.DEBOUNCE <= 3000) by (vm_compute; discriminate).
  assert (H4 : (1 < length log1)%nat) by (vm_compute; lia).
  split; [reflexivity|]. split; [reflexivity|]. split; [reflexivity|].
  split; [exact H4|]. split; [exact H5|]. split; [exact H6|].
  apply (quiet_period_saves exampleAutoSave 0 3000 log1 119%N (js "f-1")
           eq_refl eq_refl eq_refl H4 H5 H6).
Defined.

Lemma loading_schedules_no_save_witness :
  Builder.wellFormed (Builder.step exampleAutoSave (Builder.Mutation 0 log1))
  /\ Builder.timers (Builder.step exampleAutoSave (Builder.Mutation 0 log1)) <> []
  /\ Builder.timers
       (Loading.loadWorkflowData 1000 (Some (js "wf-2", []))
          (Builder.step exampleAutoSave (Builder.Mutation 0 log1))) = []
  /\ Builder.saves
       (Loading.loadWorkflowData 1000 (Some (js "wf-2", []))
          (Builder.step exampleAutoSave (Builder.Mutation 0 log1)))
     = Builder.saves (Builder.step exampleAutoSave (Builder.Mutation 0 log1)).
Proof.
  assert (Hwf : Builder.wellFormed (Builder.step exampleAutoSave (Builder.Mutation 0 log1))).
  { vm_compute. split; reflexivity. }
  split; [exact Hwf|]. split; [vm_compute; discriminate|].
  destruct (loading_schedules_no_save 1000 (Some (js "wf-2", []))
              (Builder.step exampleAutoSave (Builder.Mutation 0 log1)) Hwf) as (E1 & E2 & _).
  split; [exact E1 | exact E2].
Defined.

Lemma turn_threads_tracker_state_witness :
  exists st' r,
    trim (Client.inputValue exampleChat) <> []
    /\ Client.isLoading exampleChat = false
    /\ @Gateway.POST exampleEngine examplePrompt rateLimited 1000 freshServer false
         (Some exampleKeys)
         (Client.aiMessages (Client.chat_messages exampleChat)
            (trim (Client.inputValue exampleChat)))
         (Client.conversationState exampleChat)
       = (st', inr r)
    /\ Client.conversationState
         (@Client.turn exampleEngine examplePrompt rateLimited 1000 freshServer false
            (Some exampleKeys) 900 1500 exampleChat)
       = Some (@updateConversationState exampleEngine
                 (@initialState exampleEngine (trim (Client.inputValue exampleChat)))
                 (trim (Client.inputValue exampleChat)) (Gateway.res_content r))
    /\ Client.inputValue
         (@Client.turn exampleEngine examplePrompt rateLimited 1000 freshServer false
            (Some exampleKeys) 900 1500 exampleChat) = [].
Proof.
  destruct (@Gateway.POST exampleEngine examplePrompt rateLimited 1000 freshServer false
              (Some exampleKeys)
              (Client.aiMessages (Client.chat_messages exampleChat)
                 (trim (Client.inputValue exampleChat)))
              (Client.conversationState exampleChat)) as [st' [e|r]] eqn:Hpost;
    [vm_compute in Hpost; discriminate|].
  exists st', r.
  assert (H1 : trim (Client.inputValue exampleChat) <> []) by (vm_compute; discriminate).
  split; [exact H1|]. split; [reflexivity|]. split; [reflexivity|].
  destruct (@turn_threads_tracker_state exampleEngine examplePrompt rateLimited 1000
              freshServer st' false (Some exampleKeys) 900 1500 exampleChat r H1 eq_refl Hpost)
    as (E1 & _ & E3 & _).
  split; [exact E1 | exact E3].
Defined.

Lemma switch_announced_without_backup_witness :
  exists st' e,
    @Gateway.POST exampleEngine examplePrompt rateLimited 1000 freshServer false
      (Some openaiOnly) exampleMessages None = (st', inl e)
    /\ Gateway.err_errorCode e = Some (js "RATE_LIMIT")
    /\ @Gateway.findKey exampleEngine openaiOnly "claude" = None
    /\ js "openai" ∈ Gateway.failedProviders st'
    /\ exists text,
         Client.generateResponse (inl e) = inl text
         /\ includes text (js "Switching to backup provider...") = true.
Proof.
  destruct (@Gateway.POST exampleEngine examplePrompt rateLimited 1000 freshServer false
              (Some openaiOnly) exampleMessages None) as [st' [e|r]] eqn:Hpost;
    [|vm_compute in Hpost; discriminate].
  exists st', e.
  assert (Hcode : Gateway.err_errorCode e = Some (js "RATE_LIMIT")).
  { vm_compute in Hpost. injection Hpost as _ <-. reflexivity. }
  split; [reflexivity|]. split; [exact Hcode|].
  apply (@switch_announced_without_backup exampleEngine examplePrompt rateLimited 1000
           freshServer st' openaiOnly exampleMessages None e Hpost).
  right. exact Hcode.
Defined.

Lemma client_state_is_session_state_witness :
  (forall s, Client.conversationState exampleChat = Some s -> @reachable exampleEngine s)
  /\ forall s',
       Client.conversationState
         (@Client.turn exampleEngine examplePrompt rateLimited 1000 freshServer false
            (Some exampleKeys) 900 1500 exampleChat) = Some s' ->
       @reachable exampleEngine s'.
Proof.
  assert (H0 : forall s, Client.conversationState exampleChat = Some s ->
                         @reachable exampleEngine s) by (intros s E; discriminate).
  split; [exact H0|].
  apply (@client_state_is_session_state exampleEngine examplePrompt rateLimited 1000
           freshServer false (Some exampleKeys) 900 1500 exampleChat H0).
Defined.

Lemma suppression_expires_witness :
  Gateway.SESSION_RESET_INTERVAL < 1900000 - Gateway.sessionStartTime suppressedServer
  /\ exists r,
       @Gateway.POST exampleEngine examplePrompt
         {| Gateway.callOpenAI := fun _ _ => Gateway.Returned (js "Which event starts it?");
            Gateway.callClaude := fun _ _ => Gateway.Returned (js "Claude here") |}
         1900000 suppressedServer false (Some exampleKeys) exampleMessages None
       = ({| Gateway.failedProviders := ∅; Gateway.sessionStartTime := 1900000 |}, inr r)
       /\ Gateway.res_content r = js "Which event starts it?"
       /\ Gateway.res_provider r = js "openai"
       /\ Gateway.fallback r = false /\ Gateway.silentFallback r = false
       /\ Builder.fallbackNotification r = None.
Proof.
  assert (Hwin : Gateway.SESSION_RESET_INTERVAL
                 < 1900000 - Gateway.sessionStartTime suppressedServer)
    by (vm_compute; reflexivity).
  split; [exact Hwin|].
  apply (@suppression_expires exampleEngine examplePrompt
           {| Gateway.callOpenAI := fun _ _ => Gateway.Returned (js "Which event starts it?");
              Gateway.callClaude := fun _ _ => Gateway.Returned (js "Claude here") |}
           1900000 suppressedServer exampleKeys exampleMessages None
           {| Gateway.provider := js "OpenAI"; Gateway.encrypted_key := js "key-1" |}
           (js "Which event starts it?") Hwin).
  - vm_compute; reflexivity.
  - intros ms. reflexivity.
Defined.
